(** * ozon_login.py: OTP extraction, session factory, login flow and batch loop

    A shallow embedding of [src/ozon_login.py].  Python strings are lists of
    Unicode code points, exceptions and early [return]s are outcomes of a
    small state monad whose state survives a raised exception, and every call
    into the outside world (IMAP server, browser driver, file system) reads
    its outcome from an explicit environment record and leaves an event in a
    log. *)

From Stdlib Require Import String Ascii Decimal DecimalString.
From Stdlib Require Import List Bool Arith NArith Lia.
Import ListNotations.

(* ------------------------------------------------------------------ *)
(** ** Python strings *)

(** A code point. *)
Definition char := N.

(** A Python [str]. *)
Definition pystr := list char.

(** An ASCII literal as a Python [str]. *)
Definition u (s : string) : pystr := map N_of_ascii (list_ascii_of_string s).

Definition char_eqb (a b : char) : bool := N.eqb a b.

Fixpoint pystr_eqb (a b : pystr) : bool :=
  match a, b with
  | [], [] => true
  | x :: a', y :: b' => char_eqb x y && pystr_eqb a' b'
  | _, _ => false
  end.

(** [s.startswith(p)] *)
Fixpoint startswith (p s : pystr) : bool :=
  match p, s with
  | [], _ => true
  | x :: p', y :: s' => char_eqb x y && startswith p' s'
  | _ :: _, [] => false
  end.

(** [s[-n:]] for [n > 0]: the last [n] characters, all of [s] when it is shorter. *)
Definition last_chars (n : nat) (s : pystr) : pystr := skipn (length s - n) s.

(** [str(n)] for a non-negative [int]. *)
Definition str_of_nat (n : nat) : pystr := u (NilEmpty.string_of_uint (Nat.to_uint n)).

(** [Py_UNICODE_ISSPACE]: what [str.strip()] removes. *)
Definition is_space (c : char) : bool :=
  ((9 <=? c) && (c <=? 13) || (28 <=? c) && (c <=? 32) || (c =? 133) || (c =? 160)
   || (c =? 5760) || (8192 <=? c) && (c <=? 8202) || (c =? 8232) || (c =? 8233)
   || (c =? 8239) || (c =? 8287) || (c =? 12288))%N.

Fixpoint lstrip (s : pystr) : pystr :=
  match s with
  | c :: s' => if is_space c then lstrip s' else s
  | [] => []
  end.

(** [s.strip()] *)
Definition strip (s : pystr) : pystr := rev (lstrip (rev (lstrip s))).

(* ------------------------------------------------------------------ *)
(** ** Control flow of a Python function body

    A statement ends normally, leaves the function through [return], or
    raises.  The state is threaded through all three, so what a block did
    before it raised is still visible to its handler. *)

Inductive flow (R A : Type) : Type :=
| Normal (a : A)
| Return (r : R)
| Raise.

Arguments Normal {R A} a.
Arguments Return {R A} r.
Arguments Raise {R A}.

Definition M (S R A : Type) : Type := S -> flow R A * S.

Definition ret {S R A} (a : A) : M S R A := fun s => (Normal a, s).

Definition bind {S R A B} (m : M S R A) (k : A -> M S R B) : M S R B :=
  fun s =>
    match m s with
    | (Normal a, s') => k a s'
    | (Return r, s') => (Return r, s')
    | (Raise, s') => (Raise, s')
    end.

(** [return r] *)
Definition py_return {S R A} (r : R) : M S R A := fun s => (Return r, s).

(** [raise] *)
Definition py_raise {S R A} : M S R A := fun s => (Raise, s).

(** [try: body  except Exception: handler].  A [return] inside [body] is not
    an exception and passes through. *)
Definition try_except {S R A} (body handler : M S R A) : M S R A :=
  fun s =>
    match body s with
    | (Raise, s') => handler s'
    | other => other
    end.

(** An outside call that either succeeds or raises. *)
Definition guard {S R} (ok : bool) : M S R unit :=
  if ok then ret tt else py_raise.

(** An outside call that returns a value or raises. *)
Definition value {S R A} (v : option A) : M S R A :=
  match v with Some a => ret a | None => py_raise end.

Definition when {S R} (b : bool) (m : M S R unit) : M S R unit :=
  if b then m else ret tt.

Declare Scope py_scope.
Delimit Scope py_scope with py.
Notation "x <- m ;; k" := (bind m (fun x => k))
  (at level 61, m at next level, right associativity) : py_scope.
Notation "m ;; k" := (bind m (fun _ => k))
  (at level 61, right associativity) : py_scope.
Local Open Scope py_scope.

(* ------------------------------------------------------------------ *)
(** ** The regular expressions of the OTP extractor

    The four patterns of [extract_otp_from_email] are sequences of
    single-character classes under a quantifier, one of them in group 1.
    [match_here] is the backtracking matcher for such sequences (greedy
    quantifiers, longest first) and [re_search] scans start positions from
    the left, as [re.search] does. *)

Inductive cls : Type :=
| Digit               (* \d *)
| NonDigit            (* \D *)
| Lit (c : char).     (* a literal character *)

Inductive quant : Type :=
| Times (n : nat)     (* {n}, and a bare atom for n = 1 *)
| Star                (* * *)
| Plus.               (* + *)

Record piece : Type := mk_piece {
  p_cls : cls;
  p_quant : quant;
  p_group : bool      (* the piece is the body of group 1 *)
}.

Definition regex := list piece.

Definition lit (c : char) : piece := mk_piece (Lit c) (Times 1) false.

(** [r'(\d{6})'] *)
Definition re_six : regex := [mk_piece Digit (Times 6) true].

(** [r'(\d{4})'] *)
Definition re_four : regex := [mk_piece Digit (Times 4) true].

(** The Cyrillic keyword of the third pattern: U+043A U+043E U+0434. *)
Definition kod : pystr := [1082; 1086; 1076]%N.

(** The keyword of the fourth pattern. *)
Definition code : pystr := u "code".

(** [r'<keyword>\D*(\d+)'] *)
Definition re_keyword (kw : pystr) : regex :=
  map lit kw ++ [mk_piece NonDigit Star false; mk_piece Digit Plus true].

Definition ascii_lower (c : char) : char :=
  if ((65 <=? c) && (c <=? 90))%N then (c + 32)%N else c.

(** Lower case of the basic Cyrillic capitals U+0410..U+042F. *)
Definition cyr_lower (c : char) : char :=
  if ((1040 <=? c) && (c <=? 1071))%N then (c + 32)%N else c.

(** The regular expression engine works on Unicode text.  Its behaviour on
    ASCII and on the basic Cyrillic letters is written out below; the rest of
    its Unicode tables is a parameter: the decimal digits beyond ASCII, and
    the case equivalences beyond ASCII and basic Cyrillic. *)
Class Unicode : Type := {
  uni_digit : char -> bool;
  uni_fold : char -> char -> bool
}.

Section Engine.

Context {U : Unicode}.

(** [\d] *)
Definition is_digit (c : char) : bool :=
  if (c <? 128)%N then ((48 <=? c) && (c <=? 57))%N else uni_digit c.

(** A literal [p] of the pattern against the character [t] of the text under
    [re.IGNORECASE], for the literals this program uses (ASCII letters and
    basic Cyrillic letters): an ASCII character of the text matches only the
    same ASCII letter in either case. *)
Definition ci_match (p t : char) : bool :=
  if (t <? 128)%N then (p <? 128)%N && N.eqb (ascii_lower p) (ascii_lower t)
  else N.eqb (cyr_lower p) (cyr_lower t) || uni_fold p t.

Definition cls_match (icase : bool) (k : cls) (c : char) : bool :=
  match k with
  | Digit => is_digit c
  | NonDigit => negb (is_digit c)
  | Lit p => if icase then ci_match p c else char_eqb p c
  end.

(** Length of the longest prefix of [s] whose characters all satisfy [f]. *)
Fixpoint span (f : char -> bool) (s : pystr) : nat :=
  match s with
  | c :: s' => if f c then S (span f s') else 0
  | [] => 0
  end.

(** Greedy repetition with backtracking: give the piece [n] characters, then
    [n - 1], ... down to [lo], until the rest of the pattern matches. *)
Fixpoint descend {A} (cont : nat -> option A) (n lo : nat) : option A :=
  match cont n with
  | Some r => Some r
  | None =>
      match n with
      | 0 => None
      | S n' => if n <=? lo then None else descend cont n' lo
      end
  end.

(** Match [re] at the start of [s]; the result is the text of group 1. *)
Fixpoint match_here (icase : bool) (re : regex) (s : pystr) (g : pystr) : option pystr :=
  match re with
  | [] => Some g
  | p :: re' =>
      let m := span (cls_match icase (p_cls p)) s in
      let cont n :=
        match_here icase re' (skipn n s) (if p_group p then firstn n s else g) in
      match p_quant p with
      | Times n => if n <=? m then cont n else None
      | Star => descend cont m 0
      | Plus => if 1 <=? m then descend cont m 1 else None
      end
  end.

(** [re.search(re, s[, re.IGNORECASE])] followed by [.group(1)]; [None] when
    there is no match. *)
Fixpoint re_search (icase : bool) (re : regex) (s : pystr) : option pystr :=
  match match_here icase re s [] with
  | Some g => Some g
  | None =>
      match s with
      | [] => None
      | _ :: s' => re_search icase re s'
      end
  end.

End Engine.

(* ------------------------------------------------------------------ *)
(** ** The mailbox seen by [extract_otp_from_email] *)

(** One part of [email_message.walk()]: its content type and the decoded
    payload, [None] when [get_payload(decode=True).decode(...)] raises. *)
Record part : Type := mk_part {
  content_type : pystr;
  payload : option pystr
}.

Inductive query : Type :=
| FromUnseen          (* '(FROM "ozon.ru" UNSEEN)' *)
| FromSender          (* '(FROM "ozon.ru")' *)
| BySubject.          (* the three-way SUBJECT search *)

(** What the mail server does during one attempt.  [None] and [false] stand
    for a call that raises ([imaplib.IMAP4.error], a socket error, a reply the
    code cannot index).  [close] and [logout] can be called several times in
    one attempt, so their outcomes are indexed by the number of earlier calls. *)
Record attempt_env : Type := mk_attempt {
  connect_ok : bool;                          (* imaplib.IMAP4_SSL(mail_server) *)
  login_ok : bool;                            (* mail.login(...) *)
  select_ok : bool;                           (* mail.select("inbox") *)
  search_ids : query -> option (list nat);    (* mail.search(...); data[0].split() *)
  fetch_parts : nat -> option (list part);    (* mail.fetch(id, "(RFC822)") up to .walk() *)
  close_ok : nat -> bool;                     (* mail.close() *)
  logout_ok : nat -> bool                     (* mail.logout() *)
}.

(** A mailbox: what the server does on attempt 0, 1, 2, ... *)
Definition mailbox := nat -> attempt_env.

Inductive imap_event : Type :=
| ImapConnect (ok : bool)
| ImapLogin (ok : bool)
| ImapSelect (ok : bool)
| ImapSearch (q : query) (ok : bool)
| ImapFetch (id : nat) (ok : bool)
| ImapClose (ok : bool)
| ImapLogout (ok : bool)
| ImapSleep (seconds : nat).

(** State of the extractor: the calls made so far, and how often [close] and
    [logout] were called on the current [mail] object. *)
Record imap_state : Type := mk_imap {
  imap_log : list imap_event;
  closes : nat;
  logouts : nat
}.

Definition imap_start : imap_state := mk_imap [] 0 0.

(** The result of [extract_otp_from_email]: a code, or Python's [None]. *)
Definition IM (A : Type) : Type := M imap_state (option pystr) A.

Definition imap_emit (e : imap_event) : IM unit :=
  fun s => (Normal tt, mk_imap (imap_log s ++ [e]) (closes s) (logouts s)).

(** [mail = imaplib.IMAP4_SSL(mail_server)]: a new object, no [close] or
    [logout] on it yet. *)
Definition imap_new : IM unit :=
  fun s => (Normal tt, mk_imap (imap_log s) 0 0).

Definition imap_connect (a : attempt_env) : IM unit :=
  imap_new ;;
  imap_emit (ImapConnect (connect_ok a)) ;;
  guard (connect_ok a).

Definition imap_login (a : attempt_env) : IM unit :=
  imap_emit (ImapLogin (login_ok a)) ;; guard (login_ok a).

Definition imap_select (a : attempt_env) : IM unit :=
  imap_emit (ImapSelect (select_ok a)) ;; guard (select_ok a).

Definition is_some {A} (o : option A) : bool :=
  match o with Some _ => true | None => false end.

Definition imap_search (a : attempt_env) (q : query) : IM (list nat) :=
  imap_emit (ImapSearch q (is_some (search_ids a q))) ;; value (search_ids a q).

Definition imap_fetch (a : attempt_env) (id : nat) : IM (list part) :=
  imap_emit (ImapFetch id (is_some (fetch_parts a id))) ;; value (fetch_parts a id).

Definition imap_close (a : attempt_env) : IM unit :=
  fun s =>
    let ok := close_ok a (closes s) in
    (if ok then Normal tt else Raise,
     mk_imap (imap_log s ++ [ImapClose ok]) (S (closes s)) (logouts s)).

Definition imap_logout (a : attempt_env) : IM unit :=
  fun s =>
    let ok := logout_ok a (logouts s) in
    (if ok then Normal tt else Raise,
     mk_imap (imap_log s ++ [ImapLogout ok]) (closes s) (S (logouts s))).

Definition imap_sleep (seconds : nat) : IM unit := imap_emit (ImapSleep seconds).

Definition is_empty {A} (l : list A) : bool :=
  match l with [] => true | _ => false end.

Section Extractor.

Context {U : Unicode}.

(** Lines 124-126 and their three copies: [mail.close(); mail.logout();
    return otp]. *)
Definition finish (a : attempt_env) (otp : pystr) : IM unit :=
  imap_close a ;; imap_logout a ;; py_return (Some otp).

(** Lines 118-153: the four patterns tried on one body, in this order. *)
Definition scan_body (a : attempt_env) (body : pystr) : IM unit :=
  match re_search false re_six body with
  | Some otp => finish a otp
  | None =>
  match re_search false re_four body with
  | Some otp => finish a otp
  | None =>
  match re_search true (re_keyword kod) body with
  | Some otp => finish a otp
  | None =>
  match re_search true (re_keyword code) body with
  | Some otp => finish a otp
  | None => ret tt
  end end end end.

Definition is_text (p : part) : bool :=
  pystr_eqb (content_type p) (u "text/plain") || pystr_eqb (content_type p) (u "text/html").

(** Lines 114-156: one step of the loop over the parts.  The inner [try]
    covers the decoding, the patterns and the [close]/[logout] before the
    [return]; its handler goes on with the next part. *)
Definition scan_part (a : attempt_env) (p : part) : IM unit :=
  if is_text p then
    try_except (body <- value (payload p) ;; scan_body a body) (ret tt)
  else ret tt.

Fixpoint walk (a : attempt_env) (parts : list part) : IM unit :=
  match parts with
  | [] => ret tt
  | p :: rest => scan_part a p ;; walk a rest
  end.

(** Lines 87-159: the body of the outer [try], up to the second [logout]. *)
Definition attempt_body (a : attempt_env) : IM unit :=
  imap_connect a ;;
  imap_login a ;;
  imap_select a ;;
  ids <- imap_search a FromUnseen ;;
  ids <- (if is_empty ids then
            ids <- imap_search a FromSender ;;
            if is_empty ids then imap_search a BySubject else ret ids
          else ret ids) ;;
  when (negb (is_empty ids))
       (parts <- imap_fetch a (last ids 0) ;; walk a parts) ;;
  imap_close a ;;
  imap_logout a.

(** Lines 84-169: the iterations [attempt], [attempt + 1], ... of
    [for attempt in range(max_retries)], [remaining] of them. *)
Fixpoint retry_loop (mb : mailbox) (max_retries retry_interval attempt remaining : nat)
  : IM unit :=
  match remaining with
  | 0 => ret tt
  | S remaining' =>
      try_except
        (attempt_body (mb attempt) ;;
         when (attempt <? max_retries - 1) (imap_sleep retry_interval))
        (when (attempt <? max_retries - 1) (imap_sleep retry_interval)) ;;
      retry_loop mb max_retries retry_interval (S attempt) remaining'
  end.

Definition extract_body (mb : mailbox) (max_retries retry_interval : nat) : IM unit :=
  retry_loop mb max_retries retry_interval 0 max_retries ;; py_return None.

(** [extract_otp_from_email(mail_server, email_address, email_password,
    max_retries, retry_interval)]: the returned value and the calls made. *)
Definition extract_otp_from_email (mb : mailbox) (max_retries retry_interval : nat)
  : option pystr * list imap_event :=
  match extract_body mb max_retries retry_interval imap_start with
  | (Return r, s) => (r, imap_log s)
  | (_, s) => (None, imap_log s)
  end.

End Extractor.

(* ------------------------------------------------------------------ *)
(** ** The account store *)

(** A cell of the [Cookies] column. *)
Inductive cell : Type :=
| NaN                 (* an empty cell as [read_excel] gives it *)
| PyNone              (* [None], as [df['Cookies'] = None] sets it *)
| Text (s : pystr).

(** One row; the three identity fields as [str(row[...])] renders them. *)
Record account : Type := mk_account {
  phone : pystr;              (* 'Телефон' *)
  mail_address : pystr;       (* 'Привязанная\nпочта' *)
  mail_password : pystr;      (* 'пароль от\nпочты' *)
  cookies : cell              (* 'Cookies' *)
}.

(** A [DataFrame] with a [RangeIndex]. *)
Record frame : Type := mk_frame {
  identity_columns : bool;    (* the three identity columns exist *)
  cookies_column : bool;      (* 'Cookies' in df.columns *)
  rows : list account
}.

(** [pd.notna(c) and c] *)
Definition done (c : cell) : bool :=
  match c with
  | Text s => negb (is_empty s)
  | NaN | PyNone => false
  end.

Definition with_cookies (c : cell) (r : account) : account :=
  mk_account (phone r) (mail_address r) (mail_password r) c.

Fixpoint update_row (index : nat) (f : account -> account) (l : list account) : list account :=
  match l, index with
  | [], _ => []
  | r :: l', 0 => f r :: l'
  | r :: l', S i => r :: update_row i f l'
  end.

(** [df.at[index, 'Cookies'] = text] for an index of the frame. *)
Definition set_cookies (index : nat) (text : pystr) (df : frame) : frame :=
  mk_frame (identity_columns df) (cookies_column df)
           (update_row index (with_cookies (Text text)) (rows df)).

(** [df['Cookies'] = None] *)
Definition add_cookies_column (df : frame) : frame :=
  mk_frame (identity_columns df) true (map (with_cookies PyNone) (rows df)).

(** The store is written by [DataFrame.to_excel] and read by
    [pandas.read_excel], which are not part of the program.  A text does not
    always come back as it was written: [read_excel] takes the strings of its
    [na_values] for empty cells and Excel holds a bounded number of
    characters in a cell.  What comes back for a text is therefore a
    parameter of the model; [pandas_cell] is pandas with its defaults. *)
Class Excel : Type := {
  read_back : pystr -> cell     (* the cell read where this text was written *)
}.

(** The [na_values] that [read_excel] uses by default (pandas'
    [STR_NA_VALUES]), the empty string among them. *)
Definition na_strings : list pystr :=
  [] :: map u ["#N/A"; "#N/A N/A"; "#NA"; "-1.#IND"; "-1.#QNAN"; "-NaN"; "-nan";
               "1.#IND"; "1.#QNAN"; "<NA>"; "N/A"; "NA"; "NULL"; "NaN"; "None";
               "n/a"; "nan"; "null"]%string.

(** The number of characters an Excel cell holds. *)
Definition cell_limit : N := 32767.

(** [s[:n]] *)
Fixpoint first_chars (n : N) (s : pystr) : pystr :=
  match s with
  | [] => []
  | c :: s' => if (n =? 0)%N then [] else c :: first_chars (N.pred n) s'
  end.

(** pandas with its defaults: the writer cuts the text at the limit of a
    cell, the reader takes an NA string for an empty cell. *)
Definition pandas_cell (s : pystr) : cell :=
  let written := first_chars cell_limit s in
  if existsb (pystr_eqb written) na_strings then NaN else Text written.

(** What a cell is after [to_excel] and [read_excel]: [None] and [NaN] come
    back as empty cells, a text as [read_excel] reads it. *)
Definition excel_cell {XL : Excel} (c : cell) : cell :=
  match c with
  | Text s => read_back s
  | NaN | PyNone => NaN
  end.

Definition excel_view {XL : Excel} (df : frame) : frame :=
  mk_frame (identity_columns df) (cookies_column df)
           (map (fun r => with_cookies (excel_cell (cookies r)) r) (rows df)).

(** A cell as [read_excel] returns it: written and read once more, it is the
    same cell. *)
Definition as_read {XL : Excel} (c : cell) : Prop := excel_cell c = c.

(* ------------------------------------------------------------------ *)
(** ** [login_to_ozon] *)

(** Lines 320-323. *)
Definition format_phone (phone_number : pystr) : pystr :=
  if negb (startswith (u "+") phone_number) then
    if startswith (u "9") phone_number || startswith (u "8") phone_number
    then u "+7" ++ last_chars 10 phone_number
    else phone_number
  else phone_number.

(** [f"<stem>_{index}.png"] *)
Definition shot_name (stem : string) (index : nat) : pystr :=
  u stem ++ u "_" ++ str_of_nat index ++ u ".png".

(** [browser.save_screenshot(name)]: the file is written, or it is not and
    the call returns [False], or the driver raises. *)
Inductive shot_outcome : Type := Saved | NotSaved | ShotRaises.

Inductive ui_event : Type :=
| UiNavigate (ok : bool)                      (* browser.get("https://www.ozon.ru") *)
| UiSleep (seconds : nat)
| UiClickLogin (ok : bool)                    (* wait for the login button, click *)
| UiWaitPhone (found : bool)
| UiClearPhone (ok : bool)
| UiTypePhone (text : pystr) (ok : bool)      (* phone_input.send_keys(formatted_phone) *)
| UiSubmitPhone (ok : bool)                   (* wait for the submit button, click *)
| UiEnterPhone (ok : bool)                    (* phone_input.send_keys(Keys.RETURN) *)
| UiWaitOtp (found : bool)
| UiMail (e : imap_event)
| UiClearOtp (ok : bool)
| UiTypeOtp (text : pystr) (ok : bool)
| UiConfirm (ok : bool)                       (* wait for the confirm button, click *)
| UiEnterOtp (ok : bool)                      (* otp_input.send_keys(Keys.RETURN) *)
| UiProbe (indicator : nat) (found : bool)
| UiGetCookies (ok : bool)
| UiSetCookies (index : nat) (text : pystr)   (* df.at[index, 'Cookies'] = ... *)
| UiToExcel (ok : bool)                       (* df.to_excel("acc_ozon_updated.xlsx") *)
| UiScreenshot (name : pystr) (outcome : shot_outcome).

(** What the browser, the mailbox and the disk do during one login.  [false]
    and [None] stand for a call that raises (for a wait: its timeout). *)
Record login_env : Type := mk_login_env {
  nav1 : option bool;          (* first get; "ozon" in current_url.lower() *)
  nav2 : option bool;          (* second get; the same test *)
  login_click_ok : bool;
  phone_found : bool;
  phone_clear_ok : bool;
  phone_type_ok : bool;
  submit_click_ok : bool;
  phone_enter_ok : bool;
  otp_found : bool;
  mail : mailbox;
  otp_clear_ok : bool;
  otp_type_ok : bool;
  confirm_click_ok : bool;
  otp_enter_ok : bool;
  probe : nat -> bool;         (* the three success indicators *)
  final_url : option bool;     (* "ozon.ru" in current_url.lower() *)
  session_cookies : option pystr;   (* str(browser.get_cookies()) *)
  to_excel_ok : bool;
  shot : pystr -> shot_outcome
}.

(** The frame in memory, the file [acc_ozon_updated.xlsx], and the calls
    made. *)
Record login_state : Type := mk_login_state {
  l_df : frame;
  l_file : option frame;
  l_log : list ui_event
}.

(** [login_to_ozon] returns [True] or [False]. *)
Definition LM (A : Type) : Type := M login_state bool A.

Definition ui_emit (e : ui_event) : LM unit :=
  fun s => (Normal tt, mk_login_state (l_df s) (l_file s) (l_log s ++ [e])).

Definition ui_sleep (seconds : nat) : LM unit := ui_emit (UiSleep seconds).

Definition save_screenshot (e : login_env) (name : pystr) : LM unit :=
  ui_emit (UiScreenshot name (shot e name)) ;;
  match shot e name with
  | ShotRaises => py_raise
  | Saved | NotSaved => ret tt
  end.

(** A browser call: logged, then it succeeds or raises. *)
Definition ui_do (ev : bool -> ui_event) (ok : bool) : LM unit :=
  ui_emit (ev ok) ;; guard ok.

(** [browser.get(...)], the sleep, and the test of the URL that follows. *)
Definition navigate (v : option bool) : LM bool :=
  ui_emit (UiNavigate (is_some v)) ;; reached <- value v ;; ui_sleep 10 ;; ret reached.

(** Lines 387-396: the indicators are probed in order until one is found. *)
Fixpoint probes (e : login_env) (indicators : list nat) : LM bool :=
  match indicators with
  | [] => ret false
  | i :: rest =>
      ui_emit (UiProbe i (probe e i)) ;;
      if probe e i then ret true else probes e rest
  end.

Section Login.

Context {U : Unicode} {XL : Excel}.

(** Line 351: the call with the default budget of 8 attempts, 5 seconds
    apart; its IMAP calls join the log. *)
Definition retrieve_otp (e : login_env) : LM (option pystr) :=
  fun s =>
    let r := extract_otp_from_email (mail e) 8 5 in
    (Normal (fst r), mk_login_state (l_df s) (l_file s) (l_log s ++ map UiMail (snd r))).

(** [not otp_code] *)
Definition falsy (otp : option pystr) : bool :=
  match otp with
  | None => true
  | Some c => is_empty c
  end.

(** [df.at[index, 'Cookies'] = text] *)
Definition assign_cookies (index : nat) (text : pystr) : LM unit :=
  fun s => (Normal tt,
            mk_login_state (set_cookies index text (l_df s)) (l_file s)
                           (l_log s ++ [UiSetCookies index text])).

(** The file [acc_ozon_updated.xlsx] becomes what [to_excel] writes of [df]. *)
Definition store_file : LM unit :=
  fun s => (Normal tt, mk_login_state (l_df s) (Some (excel_view (l_df s))) (l_log s)).

(** [df.to_excel("acc_ozon_updated.xlsx", index=False)] *)
Definition write_excel (ok : bool) : LM unit :=
  ui_emit (UiToExcel ok) ;; guard ok ;; store_file.

(** Lines 402-408. *)
Definition save_cookies (e : login_env) (index : nat) : LM unit :=
  ui_emit (UiGetCookies (is_some (session_cookies e))) ;;
  text <- value (session_cookies e) ;;
  assign_cookies index text ;;
  write_excel (to_excel_ok e) ;;
  py_return true.

(** Lines 313-412: the body of the inner [try]. *)
Definition phone_and_otp (e : login_env) (phone_number : pystr) (index : nat) : LM unit :=
  ui_do UiWaitPhone (phone_found e) ;;
  ui_do UiClearPhone (phone_clear_ok e) ;;
  ui_do (UiTypePhone (format_phone phone_number)) (phone_type_ok e) ;;
  ui_sleep 2 ;;
  try_except (ui_do UiSubmitPhone (submit_click_ok e))
             (ui_do UiEnterPhone (phone_enter_ok e)) ;;
  ui_sleep 5 ;;
  ui_do UiWaitOtp (otp_found e) ;;
  otp_code <- retrieve_otp e ;;
  when (falsy otp_code)
       (save_screenshot e (shot_name "error_otp_retrieval" index) ;; py_return false) ;;
  let otp := match otp_code with Some c => c | None => [] end in
  ui_do UiClearOtp (otp_clear_ok e) ;;
  ui_do (UiTypeOtp otp) (otp_type_ok e) ;;
  ui_sleep 2 ;;
  try_except (ui_do UiConfirm (confirm_click_ok e))
             (ui_do UiEnterOtp (otp_enter_ok e)) ;;
  ui_sleep 15 ;;
  login_successful <- probes e [0; 1; 2] ;;
  ok <- (if login_successful then ret true else value (final_url e)) ;;
  if ok then save_cookies e index
  else save_screenshot e (shot_name "login_failed" index) ;; py_return false.

(** [login_to_ozon(browser, phone_number, email_address, email_password,
    index, df)].  The browser, the mailbox the credentials open and the disk
    are the environment [e]; [df] is in the state. *)
Definition login_to_ozon (e : login_env) (phone_number : pystr) (index : nat) : LM unit :=
  try_except
    (reached <- navigate (nav1 e) ;;
     when (negb reached)
          (reached <- navigate (nav2 e) ;;
           when (negb reached)
                (save_screenshot e (shot_name "error_navigation" index) ;; py_return false)) ;;
     try_except (ui_do UiClickLogin (login_click_ok e) ;; ui_sleep 5) (ret tt) ;;
     try_except (phone_and_otp e phone_number index)
                (save_screenshot e (shot_name "error_login_process" index) ;;
                 py_return false))
    (save_screenshot e (shot_name "error_general" index) ;; py_return false).

End Login.

(* ------------------------------------------------------------------ *)
(** ** The batch: sessions, artifacts and the loop of [main] *)

(** A proxy-auth artifact [proxy_auth_plugin_<t>.zip], named by its time
    stamp. *)
Definition path := nat.

(** A browser session, named by its place in the order of launches. *)
Definition session := nat.

Inductive run_event : Type :=
| RunSkip                                  (* "already has cookies. Skipping." *)
| RunQuit (b : session) (ok : bool)        (* browser.quit() *)
| RunRemove (p : path) (ok : bool)         (* os.remove(plugin_path) *)
| RunCreate (p : path)                     (* ZipFile(plugin_path, 'w') made the file *)
| RunLaunch (b : session)                  (* webdriver.Chrome(...) returned *)
| RunVerify (b : session) (ok : bool)      (* verify_proxy_working(browser) *)
| RunUi (e : ui_event)                     (* a call made by login_to_ozon *)
| RunDeleteCookies (b : session) (ok : bool)
| RunFileWritten.                          (* df.to_excel(target_file) while loading *)

(** An event with the index of the account whose iteration made it; [None]
    outside the loop. *)
Abbreviation entry := (option nat * run_event)%type.

Fixpoint remove_nat (x : nat) (l : list nat) : list nat :=
  match l with
  | [] => []
  | y :: l' => if Nat.eqb x y then remove_nat x l' else y :: remove_nat x l'
  end.

Definition add_nat (x : nat) (l : list nat) : list nat :=
  if existsb (Nat.eqb x) l then l else l ++ [x].

(** The artifact files on disk and the live sessions after one more event. *)
Definition resources_step (st : list path * list session) (en : entry)
  : list path * list session :=
  match snd en with
  | RunCreate p => (add_nat p (fst st), snd st)
  | RunRemove p true => (remove_nat p (fst st), snd st)
  | RunLaunch b => (fst st, add_nat b (snd st))
  | RunQuit b true => (fst st, remove_nat b (snd st))
  | _ => st
  end.

Definition resources (log : list entry) : list path * list session :=
  fold_left resources_step log ([], []).

Definition artifacts (log : list entry) : list path := fst (resources log).
Definition live_sessions (log : list entry) : list session := snd (resources log).

(** Sessions launched so far. *)
Definition launches (log : list entry) : nat :=
  length (filter (fun en => match snd en with RunLaunch _ => true | _ => false end) log).

(** What the outside world does while a session is built. *)
Record setup_env : Type := mk_setup_env {
  stamp : nat;                 (* time.time() in the name of the artifact *)
  zip_open_ok : bool;          (* zipfile.ZipFile(plugin_path, 'w') *)
  zip_write_ok : bool;         (* the two writestr calls and the closing of the archive *)
  add_extension_ok : bool;     (* options.add_extension(plugin_path) *)
  driver_ok : bool;            (* Service(ChromeDriverManager().install()) *)
  launch_ok : bool;            (* webdriver.Chrome(service=..., options=...) *)
  cdp_ok : bool;               (* browser.execute_cdp_cmd(...) *)
  cleanup_ok : bool            (* os.remove(plugin_path) in the handler *)
}.

(** What the outside world does during the iteration for one account. *)
Record account_env : Type := mk_account_env {
  quit_previous_ok : bool;     (* line 475 *)
  remove_previous_ok : bool;   (* line 481 *)
  setup : setup_env;
  verify_ok : bool;            (* verify_proxy_working(browser) *)
  quit_unverified_ok : bool;   (* line 495 *)
  login : login_env;
  delete_cookies_ok : bool     (* line 515 *)
}.

Record batch_env : Type := mk_batch_env {
  copy_ok : bool;              (* line 445 *)
  column_save_ok : bool;       (* line 452 *)
  per_account : nat -> account_env;
  final_quit_ok : bool;        (* line 524 *)
  final_remove_ok : bool       (* line 530 *)
}.

(** The frame in memory, the file [acc_ozon_updated.xlsx] ([None]: there is
    no such file), and the log. *)
Record run_state : Type := mk_run_state {
  r_df : frame;
  r_file : option frame;
  r_log : list entry
}.

Definition RM (R A : Type) : Type := M run_state R A.

Definition run_emit {R} (tag : option nat) (e : run_event) : RM R unit :=
  fun s => (Normal tt, mk_run_state (r_df s) (r_file s) (r_log s ++ [(tag, e)])).

(** A call of a Python function from another: its [return] value is the
    value of the call, its exception the caller's. *)
Definition invoke {S R R' A} (m : M S R' A) (fallthrough : R') : M S R R' :=
  fun s =>
    match m s with
    | (Return r, s') => (Normal r, s')
    | (Normal _, s') => (Normal fallthrough, s')
    | (Raise, s') => (Raise, s')
    end.

(** [os.path.exists(plugin_path)] *)
Definition path_exists {R} (p : path) : RM R bool :=
  fun s => (Normal (existsb (Nat.eqb p) (artifacts (r_log s))), s).

(** [browser.quit()] *)
Definition quit_browser {R} (tag : option nat) (b : session) (ok : bool) : RM R unit :=
  run_emit tag (RunQuit b ok) ;; guard ok.

(** [os.remove(plugin_path)] *)
Definition remove_path {R} (tag : option nat) (p : path) (ok : bool) : RM R unit :=
  run_emit tag (RunRemove p ok) ;; guard ok.

(** [if browser: try: browser.quit() except: pass] *)
Definition quit_if_open {R} (tag : option nat) (browser : option session) (ok : bool)
  : RM R unit :=
  match browser with
  | Some b => try_except (quit_browser tag b ok) (ret tt)
  | None => ret tt
  end.

(** [if plugin_path and os.path.exists(plugin_path): try: os.remove(plugin_path)
    except: pass] *)
Definition remove_if_there {R} (tag : option nat) (plugin_path : option path) (ok : bool)
  : RM R unit :=
  match plugin_path with
  | Some p =>
      there <- path_exists p ;;
      when there (try_except (remove_path tag p ok) (ret tt))
  | None => ret tt
  end.

(** Lines 473-483 and 522-532: quit the session if there is one and remove
    the artifact if there is one on disk, each under its own bare handler. *)
Definition teardown {R} (tag : option nat) (browser : option session)
    (plugin_path : option path) (quit_ok remove_ok : bool) : RM R unit :=
  quit_if_open tag browser quit_ok ;;
  remove_if_there tag plugin_path remove_ok.

(** [create_proxy_auth_extension(..., plugin_path=...)]: the archive is
    opened for writing, which makes the file, then filled and closed. *)
Definition create_proxy_auth_extension {R} (tag : option nat) (e : setup_env) : RM R path :=
  guard (zip_open_ok e) ;;
  run_emit tag (RunCreate (stamp e)) ;;
  guard (zip_write_ok e) ;;
  ret (stamp e).

(** The result of [setup_browser_with_proxy]: [(browser, plugin_path)]. *)
Definition setup_result : Type := option session * option path.

(** Lines 227-234, with the value [plugin_path] has when the handler runs. *)
Definition setup_handler (tag : option nat) (e : setup_env) (plugin_path : option path)
  : RM setup_result unit :=
  remove_if_there tag plugin_path (cleanup_ok e) ;;
  py_return (None, plugin_path).

(** [setup_browser_with_proxy(...)].  [plugin_path] is [None] until
    [create_proxy_auth_extension] has returned. *)
Definition setup_browser_with_proxy (tag : option nat) (e : setup_env)
  : RM setup_result unit :=
  try_except
    (p <- create_proxy_auth_extension tag e ;;
     try_except
       (guard (add_extension_ok e) ;;
        guard (driver_ok e) ;;
        guard (launch_ok e) ;;
        b <- (fun s => (Normal (launches (r_log s)), s)) ;;
        run_emit tag (RunLaunch b) ;;
        guard (cdp_ok e) ;;
        py_return (Some b, Some p))
       (setup_handler tag e (Some p)))
    (setup_handler tag e None).

Section Batch.

Context {U : Unicode} {XL : Excel}.

(** The call of [login_to_ozon] from [main]: it works on the frame and the
    file, and its calls join the log under the account's index. *)
Definition run_login (index : nat) (e : login_env) (phone_number : pystr)
  : RM unit bool :=
  fun s =>
    let r := login_to_ozon e phone_number index
               (mk_login_state (r_df s) (r_file s) []) in
    let s' := mk_run_state (l_df (snd r)) (l_file (snd r))
                (r_log s ++ map (fun ev => (Some index, RunUi ev)) (l_log (snd r))) in
    match fst r with
    | Return b => (Normal b, s')
    | Normal _ => (Normal false, s')
    | Raise => (Raise, s')
    end.

(** Lines 492-519: the health check, the login and the clearing of the
    cookies, with the session [b] that was just made. *)
Definition use_session (env : account_env) (index : nat) (row : account)
    (has_identity : bool) (b : session) : RM unit unit :=
  let tag := Some index in
  run_emit tag (RunVerify b (verify_ok env)) ;;
  if negb (verify_ok env) then
    quit_browser tag b (quit_unverified_ok env)
  else
    try_except
      (guard has_identity ;;
       _ <- run_login index (login env) (strip (phone row)) ;;
       run_emit tag (RunDeleteCookies b (delete_cookies_ok env)) ;;
       guard (delete_cookies_ok env))
      (ret tt).

(** Lines 463-519: one iteration of the loop, for the row as [iterrows]
    yielded it.  The result is the new [(browser, plugin_path)]. *)
Definition iteration (env : account_env) (index : nat) (row : account)
    (has_identity : bool) (browser : option session) (plugin_path : option path)
  : RM unit setup_result :=
  let tag := Some index in
  if done (cookies row) then
    run_emit tag RunSkip ;; ret (browser, plugin_path)
  else
    teardown tag browser plugin_path (quit_previous_ok env) (remove_previous_ok env) ;;
    made <- invoke (setup_browser_with_proxy tag (setup env)) (None, None) ;;
    match fst made with
    | None => ret made
    | Some b => use_session env index row has_identity b ;; ret made
    end.

(** Line 462: [for index, row in df.iterrows()], over the rows as they were
    when the loop began. *)
Fixpoint main_loop (env : batch_env) (has_identity : bool) (items : list (nat * account))
    (browser : option session) (plugin_path : option path) : RM unit setup_result :=
  match items with
  | [] => ret (browser, plugin_path)
  | (index, row) :: rest =>
      now <- iteration (per_account env index) index row has_identity browser plugin_path ;;
      main_loop env has_identity rest (fst now) (snd now)
  end.

Definition iterrows (df : frame) : list (nat * account) :=
  combine (seq 0 (length (rows df))) (rows df).

(** [df.to_excel(target_file, index=False)] while loading. *)
Definition write_target (ok : bool) (df : frame) : RM unit unit :=
  guard ok ;;
  (fun s => (Normal tt, mk_run_state (r_df s) (Some (excel_view df))
                                     (r_log s ++ [(None, RunFileWritten)]))).

(** Lines 432-452: the body of the [try] that loads the store. *)
Definition load_store (env : batch_env) (source : option frame) : RM unit unit :=
  target <- (fun s => (Normal (r_file s), s)) ;;
  df <- match target with
        | Some df => ret df
        | None => df <- value source ;; write_target (copy_ok env) df ;; ret df
        end ;;
  df <- (if cookies_column df then ret df
         else write_target (column_save_ok env) (add_cookies_column df) ;;
              ret (add_cookies_column df)) ;;
  (fun s => (Normal tt, mk_run_state df (r_file s) (r_log s))).

(** [main()].  [source] is the file [acc_ozon_выдача.xlsx], [None] when it
    cannot be read. *)
Definition main (env : batch_env) (source : option frame) : RM unit unit :=
  try_except (load_store env source) (py_return tt) ;;
  df <- (fun s => (Normal (r_df s), s)) ;;
  last <- main_loop env (identity_columns df) (iterrows df) None None ;;
  teardown None (fst last) (snd last) (final_quit_ok env) (final_remove_ok env).

(** A run of [main] with the target file as it is on disk: the file and the
    log afterwards, and whether the run ended by an exception. *)
Definition run_main (env : batch_env) (source target : option frame)
  : bool * option frame * list entry :=
  let r := main env source (mk_run_state (mk_frame false false []) target []) in
  (match fst r with Raise => true | _ => false end, r_file (snd r), r_log (snd r)).

End Batch.

(* ------------------------------------------------------------------ *)
(** ** [verify_proxy_working] *)

(** [needle in hay] *)
Fixpoint contains (needle hay : pystr) : bool :=
  startswith needle hay ||
  match hay with
  | [] => false
  | _ :: hay' => contains needle hay'
  end.

(** The pattern of the address check has what the patterns of the extractor
    do not: the two anchors, and a class repeated between [lo] and [hi]
    times. *)
Inductive token : Type :=
| Bol                               (* ^ *)
| Eol                               (* $ *)
| Rep (k : cls) (lo hi : nat).      (* k{lo,hi}, and a bare atom for lo = hi = 1 *)

Definition dot : char := 46%N.

Definition newline : char := 10%N.

(** [r"^\d{1,3}\.\d{1,3}\.\d{1,3}\.\d{1,3}$"] *)
Definition ip_pattern : list token :=
  [Bol; Rep Digit 1 3; Rep (Lit dot) 1 1; Rep Digit 1 3; Rep (Lit dot) 1 1;
   Rep Digit 1 3; Rep (Lit dot) 1 1; Rep Digit 1 3; Eol].

Section Anchored.

Context {U : Unicode}.

(** Match [re] against [s], the rest of the text; [at_start] tells whether
    nothing of the text has been consumed.  Without [re.MULTILINE], [^]
    matches at the start of the text only, and [$] at its end or before a
    newline that ends it.  Repetition is greedy, longest first. *)
Fixpoint match_from (re : list token) (at_start : bool) (s : pystr) : bool :=
  match re with
  | [] => true
  | Bol :: re' => at_start && match_from re' at_start s
  | Eol :: re' => (is_empty s || pystr_eqb s [newline]) && match_from re' at_start s
  | Rep k lo hi :: re' =>
      let m := Nat.min hi (span (cls_match false k) s) in
      (lo <=? m) &&
      is_some (descend (fun n => if match_from re' (at_start && (n =? 0)) (skipn n s)
                                 then Some tt else None) m lo)
  end.

(** [re.match(re, s)] as a truth value. *)
Definition re_match (re : list token) (s : pystr) : bool := match_from re true s.

End Anchored.

(** What the browser shows for one address.  [false] and [None] stand for a
    call that raises. *)
Record page : Type := mk_page {
  get_ok : bool;                  (* browser.get(url) *)
  body_text : option pystr;       (* browser.find_element(By.TAG_NAME, "body").text *)
  url_has_ozon : option bool      (* "ozon" in browser.current_url.lower() *)
}.

Definition web := pystr -> page.

Inductive check_event : Type :=
| CheckGet (url : pystr) (ok : bool)
| CheckSleep (seconds : nat)
| CheckBody (ok : bool)
| CheckUrl (ok : bool).

(** [verify_proxy_working] returns [True] or [False]; its state is the list
    of the calls made. *)
Definition VM (A : Type) : Type := M (list check_event) bool A.

Definition check_emit (e : check_event) : VM unit := fun log => (Normal tt, log ++ [e]).

Definition ip_services : list pystr :=
  [u "https://api.ipify.org"; u "https://ifconfig.me/ip"; u "https://ipinfo.io/ip"].

Definition ozon_url : pystr := u "https://www.ozon.ru".

(** [browser.get(url); time.sleep(5)] *)
Definition check_get (w : web) (url : pystr) : VM unit :=
  check_emit (CheckGet url (get_ok (w url))) ;;
  guard (get_ok (w url)) ;;
  check_emit (CheckSleep 5).

Section Verify.

Context {U : Unicode}.

(** Lines 246-261: the loop over the services. *)
Fixpoint check_services (w : web) (services : list pystr) : VM unit :=
  match services with
  | [] => ret tt
  | service :: rest =>
      check_get w service ;;
      check_emit (CheckBody (is_some (body_text (w service)))) ;;
      text <- value (body_text (w service)) ;;
      let ip := strip text in
      when (negb (is_empty ip) && re_match ip_pattern ip)
           (when (contains (u "85.142") ip) (py_return true)) ;;
      check_services w rest
  end.

(** [verify_proxy_working(browser)], with the browser and the network behind
    it as [w]. *)
Definition verify_proxy_working (w : web) : VM unit :=
  try_except
    (check_services w ip_services ;;
     check_get w ozon_url ;;
     check_emit (CheckUrl (is_some (url_has_ozon (w ozon_url)))) ;;
     reached <- value (url_has_ozon (w ozon_url)) ;;
     when reached (py_return true) ;;
     py_return false)
    (py_return false).

End Verify.

(* ------------------------------------------------------------------ *)
(** ** Facts about the matcher *)

Section EngineFacts.

Context {U : Unicode}.

(** A string of decimal digits. *)
Definition all_digits (s : pystr) : bool := forallb is_digit s.

Lemma span_le f s : span f s <= length s.
Proof.
  induction s as [|c s IH]; simpl; [lia|]. destruct (f c); simpl; lia.
Qed.

Lemma span_firstn f s n :
  n <= span f s -> forallb f (firstn n s) = true /\ length (firstn n s) = n.
Proof.
  revert n. induction s as [|c s IH]; intros n Hn; simpl in Hn.
  - assert (n = 0) by lia. subst. simpl. auto.
  - destruct n as [|n]; [simpl; auto|].
    destruct (f c) eqn:Hc; [|lia].
    destruct (IH n) as [H1 H2]; [lia|].
    simpl. rewrite Hc, H1, H2. auto.
Qed.

(** After the longest run comes the end of the text or a character outside
    the class. *)
Lemma span_stop f s :
  match skipn (span f s) s with
  | [] => True
  | c :: _ => f c = false
  end.
Proof.
  induction s as [|c s IH]; simpl; [exact I|].
  destruct (f c) eqn:Hc; simpl; [exact IH | exact Hc].
Qed.

Lemma span_app_run f a b :
  forallb f a = true -> span f (a ++ b) = length a + span f b.
Proof.
  induction a as [|c a IH]; simpl; intros H; [reflexivity|].
  apply andb_true_iff in H. destruct H as [Hc Ha]. rewrite Hc, IH; auto.
Qed.

Lemma descend_some {A} (cont : nat -> option A) n lo r :
  descend cont n lo = Some r -> exists k, k <= n /\ cont k = Some r.
Proof.
  induction n as [|n IH]; simpl.
  - destruct (cont 0) eqn:E; [|discriminate]. intros H. exists 0. split; [lia|congruence].
  - destruct (cont (S n)) eqn:E.
    + intros H. exists (S n). split; [lia|congruence].
    + destruct lo as [|lo]; simpl.
      * intros H. destruct (IH H) as [k [Hk Hc]]. exists k. split; [lia|exact Hc].
      * destruct (n <=? lo); [discriminate|].
        intros H. destruct (IH H) as [k [Hk Hc]]. exists k. split; [lia|exact Hc].
Qed.

Lemma descend_top {A} (cont : nat -> option A) n lo r :
  cont n = Some r -> descend cont n lo = Some r.
Proof. intros H. destruct n; simpl; rewrite H; reflexivity. Qed.

(** [\d{n}] in group 1, matched at the start of the text. *)
Lemma here_digits n s g :
  match_here false [mk_piece Digit (Times n) true] s g =
  if n <=? span is_digit s then Some (firstn n s) else None.
Proof. reflexivity. Qed.

(** [(\d+)] at the start of the text takes the whole run of digits. *)
Lemma here_plus s g :
  match_here true [mk_piece Digit Plus true] s g =
  if 1 <=? span is_digit s then Some (firstn (span is_digit s) s) else None.
Proof.
  simpl. change (cls_match true Digit) with is_digit.
  destruct (span is_digit s) as [|m]; [reflexivity|].
  apply descend_top. reflexivity.
Qed.

(** [s] starts with [n] digits. *)
Definition window (n : nat) (s : pystr) : bool := n <=? span is_digit s.

(** [re.search] for [(\d{n})]: the first [n] digits at the leftmost position
    where [n] digits stand in a row. *)
Lemma search_digits_some n s c :
  re_search false [mk_piece Digit (Times n) true] s = Some c ->
  exists i, i <= length s /\ window n (skipn i s) = true /\ c = firstn n (skipn i s)
            /\ forall j, j < i -> window n (skipn j s) = false.
Proof.
  induction s as [|x s IH]; intros H.
  - cbn [re_search] in H. rewrite here_digits in H.
    destruct (n <=? span is_digit []) eqn:E; [|discriminate].
    exists 0. repeat split; auto. + inversion H; reflexivity. + intros j Hj; lia.
  - cbn [re_search] in H. rewrite here_digits in H.
    destruct (n <=? span is_digit (x :: s)) eqn:E.
    + exists 0. repeat split; auto. * simpl; lia. * inversion H; reflexivity.
      * intros j Hj; lia.
    + destruct (IH H) as [i [Hi [Hw [Hc Hl]]]].
      exists (S i). repeat split; auto. * simpl; lia.
      * intros [|j] Hj; [exact E|]. apply Hl. lia.
Qed.

Lemma search_digits_none n s :
  re_search false [mk_piece Digit (Times n) true] s = None ->
  forall i, window n (skipn i s) = false.
Proof.
  induction s as [|x s IH]; intros H i.
  - cbn [re_search] in H. rewrite here_digits in H.
    destruct (n <=? span is_digit []) eqn:E; [discriminate|].
    rewrite skipn_nil. exact E.
  - cbn [re_search] in H. rewrite here_digits in H.
    destruct (n <=? span is_digit (x :: s)) eqn:E; [discriminate|].
    destruct i as [|i]; [exact E|]. apply IH. exact H.
Qed.

Lemma search_digits_shape n s c :
  re_search false [mk_piece Digit (Times n) true] s = Some c ->
  length c = n /\ all_digits c = true.
Proof.
  intros H. destruct (search_digits_some _ _ _ H) as [i [_ [Hw [Hc _]]]].
  apply Nat.leb_le in Hw. destruct (span_firstn is_digit (skipn i s) _ Hw) as [H1 H2].
  subst c. split; assumption.
Qed.

Lemma search_suffix icase re s c :
  re_search icase re s = Some c ->
  exists pre tl, s = pre ++ tl /\ match_here icase re tl [] = Some c.
Proof.
  induction s as [|x s IH]; cbn [re_search]; intros H.
  - destruct (match_here icase re [] []) eqn:E; [|discriminate].
    exists [], []. split; [reflexivity|congruence].
  - destruct (match_here icase re (x :: s) []) eqn:E.
    + exists [], (x :: s). split; [reflexivity|congruence].
    + destruct (IH H) as [pre [tl [Hs Hh]]].
      exists (x :: pre), tl. split; [simpl; congruence|exact Hh].
Qed.

Lemma search_found icase re s c :
  match_here icase re s [] = Some c -> re_search icase re s = Some c.
Proof. intros H. destruct s; cbn [re_search]; rewrite H; reflexivity. Qed.

(** The literal characters of a keyword, matched one by one without regard
    to case. *)
Lemma here_lits kw re s g c :
  match_here true (map lit kw ++ re) s g = Some c ->
  exists hd tl, s = hd ++ tl /\ Forall2 (fun p t => ci_match p t = true) kw hd
                /\ match_here true re tl g = Some c.
Proof.
  revert s. induction kw as [|p kw IH]; intros s H.
  - exists [], s. repeat split; auto.
  - simpl in H. destruct s as [|x s]; simpl in H; [discriminate|].
    destruct (ci_match p x) eqn:Hp; simpl in H; [|discriminate].
    destruct (IH _ H) as [hd [tl [Hs [Hf Hh]]]].
    exists (x :: hd), tl. repeat split; auto. simpl. congruence.
Qed.

Lemma here_star icase k re s g :
  match_here icase (mk_piece k Star false :: re) s g =
  descend (fun n => match_here icase re (skipn n s) g)
          (span (cls_match icase k) s) 0.
Proof. reflexivity. Qed.

(** [\D*(\d+)]: a gap without digits, then the whole run of digits. *)
Lemma here_gap_digits s g c :
  match_here true [mk_piece NonDigit Star false; mk_piece Digit Plus true] s g = Some c ->
  exists gap rest, s = gap ++ c ++ rest
    /\ forallb (fun x => negb (is_digit x)) gap = true
    /\ 1 <= length c /\ all_digits c = true
    /\ match rest with [] => True | x :: _ => is_digit x = false end.
Proof.
  intros H. rewrite here_star in H.
  apply descend_some in H. destruct H as [k [Hk H]].
  rewrite here_plus in H.
  destruct (1 <=? span is_digit (skipn k s)) eqn:E; [|discriminate].
  apply Nat.leb_le in E. inversion H; subst c; clear H.
  destruct (span_firstn _ s _ Hk) as [Hgap _].
  destruct (span_firstn is_digit (skipn k s) _ (Nat.le_refl _)) as [Hd Hlen].
  exists (firstn k s), (skipn (span is_digit (skipn k s)) (skipn k s)).
  repeat split.
  - rewrite (firstn_skipn (span is_digit (skipn k s)) (skipn k s)).
    symmetry. apply firstn_skipn.
  - exact Hgap.
  - rewrite Hlen. exact E.
  - exact Hd.
  - apply span_stop.
Qed.

(** What group 1 of [r'<kw>\D*(\d+)'] holds after a successful search of
    [body]: the keyword in any case, a gap without digits, and then [c], the
    whole run of digits that follows. *)
Definition keyword_capture (kw body c : pystr) : Prop :=
  exists pre hd gap rest,
    body = pre ++ hd ++ gap ++ c ++ rest
    /\ Forall2 (fun p t => ci_match p t = true) kw hd
    /\ forallb (fun x => negb (is_digit x)) gap = true
    /\ 1 <= length c /\ all_digits c = true
    /\ match rest with [] => True | x :: _ => is_digit x = false end.

Lemma search_keyword_some kw body c :
  re_search true (re_keyword kw) body = Some c -> keyword_capture kw body c.
Proof.
  intros H. apply search_suffix in H. destruct H as [pre [tl [Hb H]]].
  unfold re_keyword in H. apply here_lits in H.
  destruct H as [hd [tl' [Htl [Hkw H]]]].
  apply here_gap_digits in H.
  destruct H as [gap [rest [Hs [Hgap [Hlen [Hd Hrest]]]]]].
  exists pre, hd, gap, rest. subst. repeat split; auto.
Qed.

Lemma here_lits_ok kw hd : Forall2 (fun p t => ci_match p t = true) kw hd ->
  forall re tl g, match_here true (map lit kw ++ re) (hd ++ tl) g = match_here true re tl g.
Proof.
  induction 1 as [|p x kw hd Hp _ IH]; intros re tl g; [reflexivity|].
  cbn. rewrite Hp. cbn. apply IH.
Qed.

Lemma span_head_false f x s : f x = false -> span f (x :: s) = 0.
Proof. intros H. simpl. rewrite H. reflexivity. Qed.

Lemma here_gap_digits_ok gap c rest g :
  forallb (fun x => negb (is_digit x)) gap = true ->
  1 <= length c -> all_digits c = true ->
  match rest with [] => True | x :: _ => is_digit x = false end ->
  match_here true [mk_piece NonDigit Star false; mk_piece Digit Plus true]
             (gap ++ c ++ rest) g = Some c.
Proof.
  intros Hgap Hlen Hd Hrest. rewrite here_star.
  change (cls_match true NonDigit) with (fun x => negb (is_digit x)).
  rewrite span_app_run by exact Hgap.
  assert (Hc : span is_digit (c ++ rest) = length c).
  { rewrite span_app_run by exact Hd.
    destruct rest as [|x rest]; [simpl; lia|]. rewrite span_head_false by exact Hrest. lia. }
  assert (H0 : span (fun x => negb (is_digit x)) (c ++ rest) = 0).
  { destruct c as [|d c]; [simpl in Hlen; lia|]. simpl in Hd.
    apply andb_true_iff in Hd. destruct Hd as [Hd _].
    apply span_head_false. rewrite Hd. reflexivity. }
  rewrite H0, Nat.add_0_r. apply descend_top.
  rewrite skipn_app, skipn_all, Nat.sub_diag. cbn [app skipn].
  rewrite here_plus, Hc.
  replace (1 <=? length c) with true by (symmetry; apply Nat.leb_le; exact Hlen).
  rewrite firstn_app, firstn_all, Nat.sub_diag. cbn [firstn]. rewrite app_nil_r. reflexivity.
Qed.

Lemma search_app_some icase re pre : forall tl c,
  match_here icase re tl [] = Some c ->
  exists c', re_search icase re (pre ++ tl) = Some c'.
Proof.
  induction pre as [|x pre IH]; intros tl c H.
  - exists c. apply search_found. exact H.
  - cbn [app re_search]. destruct (match_here icase re (x :: pre ++ tl) []) as [c'|].
    + exists c'. reflexivity.
    + apply (IH tl c H).
Qed.

(** The keyword followed, after any text without digits, by a number is
    always found. *)
Lemma search_keyword_complete kw body c :
  keyword_capture kw body c -> exists c', re_search true (re_keyword kw) body = Some c'.
Proof.
  intros [pre [hd [gap [rest [Hb [Hkw [Hgap [Hlen [Hd Hrest]]]]]]]]]. subst body.
  apply (search_app_some true (re_keyword kw) pre (hd ++ gap ++ c ++ rest) c).
  unfold re_keyword. rewrite here_lits_ok by exact Hkw.
  apply here_gap_digits_ok; assumption.
Qed.

Lemma span_repeat_digit (d : char) n :
  is_digit d = true -> span is_digit (repeat d n) = n.
Proof. intros H. induction n; simpl; [reflexivity|]. rewrite H, IHn. reflexivity. Qed.

(** The keyword patterns put no bound on the length of the run they capture. *)
Lemma search_code_any_length n :
  re_search true (re_keyword code) (code ++ repeat 55%N (S n)) = Some (repeat 55%N (S n)).
Proof.
  apply search_found.
  change (match_here true [mk_piece NonDigit Star false; mk_piece Digit Plus true]
            (repeat 55%N (S n)) [] = Some (repeat 55%N (S n))).
  rewrite here_star.
  change (span (cls_match true NonDigit) (repeat 55%N (S n))) with 0.
  cbn [descend skipn]. rewrite here_plus.
  rewrite span_repeat_digit by reflexivity.
  cbn [Nat.leb]. rewrite firstn_all2; [reflexivity|]. rewrite repeat_length. lia.
Qed.

End EngineFacts.

(* ------------------------------------------------------------------ *)
(** ** Facts about the extractor *)

(** The log of a computation does not depend on what was logged before it. *)
Definition shift (pre : list imap_event) (s : imap_state) : imap_state :=
  mk_imap (pre ++ imap_log s) (closes s) (logouts s).

Definition framed {A} (m : IM A) : Prop :=
  forall pre s, m (shift pre s) = (fst (m s), shift pre (snd (m s))).

Lemma framed_ret {A} (a : A) : framed (ret a).
Proof. intros pre s. reflexivity. Qed.

Lemma framed_return {A} r : framed (@py_return _ _ A r).
Proof. intros pre s. reflexivity. Qed.

Lemma framed_raise {A} : framed (@py_raise _ (option pystr) A).
Proof. intros pre s. reflexivity. Qed.

Lemma framed_bind {A B} (m : IM A) (k : A -> IM B) :
  framed m -> (forall a, framed (k a)) -> framed (bind m k).
Proof.
  intros Hm Hk pre s. unfold bind. rewrite Hm.
  destruct (m s) as [[a|r|] s']; simpl; [apply Hk | reflexivity | reflexivity].
Qed.

Lemma framed_try {A} (m h : IM A) : framed m -> framed h -> framed (try_except m h).
Proof.
  intros Hm Hh pre s. unfold try_except. rewrite Hm.
  destruct (m s) as [[a|r|] s']; simpl; [reflexivity | reflexivity | apply Hh].
Qed.

Lemma framed_guard b : framed (@guard imap_state (option pystr) b).
Proof. destruct b; [apply framed_ret | apply framed_raise]. Qed.

Lemma framed_value {A} (v : option A) : framed (@value imap_state (option pystr) A v).
Proof. destruct v; [apply framed_ret | apply framed_raise]. Qed.

Lemma framed_when b (m : IM unit) : framed m -> framed (when b m).
Proof. intros H. destruct b; [exact H | apply framed_ret]. Qed.

Lemma framed_emit e : framed (imap_emit e).
Proof. intros pre s. unfold imap_emit, shift. simpl. rewrite app_assoc. reflexivity. Qed.

Lemma framed_new : framed imap_new.
Proof. intros pre s. reflexivity. Qed.

Lemma framed_close a : framed (imap_close a).
Proof.
  intros pre s. unfold imap_close, shift. simpl. rewrite app_assoc. reflexivity.
Qed.

Lemma framed_logout a : framed (imap_logout a).
Proof.
  intros pre s. unfold imap_logout, shift. simpl. rewrite app_assoc. reflexivity.
Qed.

Create HintDb framed.
#[export] Hint Resolve framed_ret framed_return framed_raise framed_guard framed_value
  framed_emit framed_new framed_close framed_logout : framed.

Ltac framed_step :=
  match goal with
  | |- framed (bind _ _) => apply framed_bind; [|intros ?]
  | |- framed (try_except _ _) => apply framed_try
  | |- framed (when _ _) => apply framed_when
  | |- framed (if ?b then _ else _) => destruct b
  | |- framed (match ?x with _ => _ end) => destruct x
  | |- framed _ => solve [auto with framed]
  end.

Section ExtractorFacts.

Context {U : Unicode}.

(** The code the four patterns find in one body: the first of the four that
    matches decides. *)
Definition body_code (body : pystr) : option pystr :=
  match re_search false re_six body with
  | Some otp => Some otp
  | None =>
  match re_search false re_four body with
  | Some otp => Some otp
  | None =>
  match re_search true (re_keyword kod) body with
  | Some otp => Some otp
  | None => re_search true (re_keyword code) body
  end end end.

Lemma scan_body_code a body :
  scan_body a body =
  match body_code body with Some otp => finish a otp | None => ret tt end.
Proof.
  unfold scan_body, body_code.
  destruct (re_search false re_six body); [reflexivity|].
  destruct (re_search false re_four body); [reflexivity|].
  destruct (re_search true (re_keyword kod) body); reflexivity.
Qed.

Lemma framed_finish a otp : framed (finish a otp).
Proof. unfold finish. repeat framed_step. Qed.

Lemma framed_scan_part a p : framed (scan_part a p).
Proof.
  unfold scan_part. repeat framed_step.
  rewrite scan_body_code. destruct (body_code a0); [apply framed_finish | apply framed_ret].
Qed.

Lemma framed_walk a parts : framed (walk a parts).
Proof.
  induction parts as [|p parts IH]; simpl.
  - apply framed_ret.
  - apply framed_bind; [apply framed_scan_part | intros _; exact IH].
Qed.

Lemma framed_attempt_body a : framed (attempt_body a).
Proof.
  unfold attempt_body, imap_connect, imap_login, imap_select, imap_search,
    imap_fetch.
  repeat first [apply framed_walk | framed_step].
Qed.

(** One attempt on a fresh log. *)
Definition attempt (a : attempt_env) : flow (option pystr) unit * imap_state :=
  attempt_body a imap_start.

Definition attempt_events (a : attempt_env) : list imap_event := imap_log (snd (attempt a)).

Lemma attempt_body_any a s :
  attempt_body a s =
  (fst (attempt a),
   mk_imap (imap_log s ++ attempt_events a) (closes (snd (attempt a))) (logouts (snd (attempt a)))).
Proof.
  assert (H : attempt_body a s = attempt_body a (shift (imap_log s) imap_start)).
  { unfold shift. simpl. rewrite app_nil_r. reflexivity. }
  rewrite H. rewrite framed_attempt_body. reflexivity.
Qed.

Definition sleep_if (b : bool) (seconds : nat) : list imap_event :=
  if b then [ImapSleep seconds] else [].

(** The attempts [k], [k + 1], ... ([remaining] of them) as a trace: each
    attempt on a fresh log, a sleep after every attempt that did not return
    and is not the last of the budget. *)
Fixpoint attempts_from (mb : mailbox) (max_retries retry_interval k remaining : nat)
  : flow (option pystr) unit * list imap_event :=
  match remaining with
  | 0 => (Normal tt, [])
  | S remaining' =>
      match fst (attempt (mb k)) with
      | Return r => (Return r, attempt_events (mb k))
      | _ =>
          let rest := attempts_from mb max_retries retry_interval (S k) remaining' in
          (fst rest,
           attempt_events (mb k) ++ sleep_if (k <? max_retries - 1) retry_interval ++ snd rest)
      end
  end.

Lemma when_sleep b n s :
  when b (imap_sleep n) s =
  (Normal tt, mk_imap (imap_log s ++ sleep_if b n) (closes s) (logouts s)).
Proof.
  destruct b; simpl; [reflexivity|]. unfold ret. rewrite app_nil_r. destruct s; reflexivity.
Qed.

Lemma retry_loop_trace mb M I remaining : forall k s,
  exists c l,
    retry_loop mb M I k remaining s =
    (fst (attempts_from mb M I k remaining),
     mk_imap (imap_log s ++ snd (attempts_from mb M I k remaining)) c l).
Proof.
  induction remaining as [|rem IH]; intros k s.
  - exists (closes s), (logouts s). simpl. unfold ret. rewrite app_nil_r.
    destruct s; reflexivity.
  - cbn [retry_loop attempts_from].
    unfold bind at 1. unfold try_except. unfold bind at 1.
    rewrite attempt_body_any.
    destruct (fst (attempt (mb k))) as [[]|r|] eqn:E; cbn [fst snd].
    + rewrite when_sleep. cbn [imap_log closes logouts].
      destruct (IH (S k) (mk_imap ((imap_log s ++ attempt_events (mb k)) ++
                                  sleep_if (k <? M - 1) I)
                                 (closes (snd (attempt (mb k))))
                                 (logouts (snd (attempt (mb k)))))) as [c [l H]].
      exists c, l. rewrite H. cbn [imap_log]. rewrite <- !app_assoc. reflexivity.
    + eexists _, _. reflexivity.
    + rewrite when_sleep. cbn [imap_log closes logouts].
      destruct (IH (S k) (mk_imap ((imap_log s ++ attempt_events (mb k)) ++
                                  sleep_if (k <? M - 1) I)
                                 (closes (snd (attempt (mb k))))
                                 (logouts (snd (attempt (mb k)))))) as [c [l H]].
      exists c, l. rewrite H. cbn [imap_log]. rewrite <- !app_assoc. reflexivity.
Qed.

(** The function as the trace of its attempts. *)
Lemma extract_trace mb M I :
  extract_otp_from_email mb M I =
  match attempts_from mb M I 0 M with
  | (Return r, evs) => (r, evs)
  | (_, evs) => (None, evs)
  end.
Proof.
  unfold extract_otp_from_email, extract_body, bind.
  destruct (retry_loop_trace mb M I M 0 imap_start) as [c [l H]].
  rewrite H. simpl.
  destruct (attempts_from mb M I 0 M) as [[[]|r|] evs]; reflexivity.
Qed.

(** The loop itself never raises: an exception of an attempt ends in the
    handler of that attempt. *)
Lemma attempts_from_no_raise mb M I remaining : forall k,
  fst (attempts_from mb M I k remaining) <> Raise.
Proof.
  induction remaining as [|rem IH]; intros k; simpl; [discriminate|].
  destruct (fst (attempt (mb k))); simpl; try apply IH. discriminate.
Qed.

(** A code: a non-empty string of decimal digits. *)
Definition is_code (c : pystr) : Prop := 1 <= length c /\ all_digits c = true.

Lemma body_code_is_code body c : body_code body = Some c -> is_code c.
Proof.
  unfold body_code.
  destruct (re_search false re_six body) eqn:E6.
  { intros H; inversion H; subst. apply search_digits_shape in E6.
    destruct E6 as [Hlen Hdig]. split; [lia|exact Hdig]. }
  destruct (re_search false re_four body) eqn:E4.
  { intros H; inversion H; subst. apply search_digits_shape in E4.
    destruct E4 as [Hlen Hdig]. split; [lia|exact Hdig]. }
  destruct (re_search true (re_keyword kod) body) eqn:Ek.
  { intros H; inversion H; subst. apply search_keyword_some in Ek.
    destruct Ek as [? [? [? [? [_ [_ [_ [Hlen [Hdig _]]]]]]]]]. split; assumption. }
  intros Ec. apply search_keyword_some in Ec.
  destruct Ec as [? [? [? [? [_ [_ [_ [Hlen [Hdig _]]]]]]]]]. split; assumption.
Qed.

(** The code one part offers: it must be a text part whose payload decodes. *)
Definition part_code (p : part) : option pystr :=
  if is_text p then
    match payload p with
    | Some body => body_code body
    | None => None
    end
  else None.

(** The code of the first part, in [walk()] order, that offers one. *)
Fixpoint first_code (parts : list part) : option pystr :=
  match parts with
  | [] => None
  | p :: rest =>
      match part_code p with
      | Some c => Some c
      | None => first_code rest
      end
  end.

Lemma scan_part_code a p s :
  scan_part a p s =
  match part_code p with
  | Some c => try_except (finish a c) (ret tt) s
  | None => (Normal tt, s)
  end.
Proof.
  unfold scan_part, part_code. destruct (is_text p); [|reflexivity].
  destruct (payload p) as [body|]; [|reflexivity].
  unfold try_except, bind, value, ret. fold (scan_body a body).
  rewrite scan_body_code. destruct (body_code body); reflexivity.
Qed.

(** [close] and [logout] before the [return], under the inner handler. *)
Lemma finish_guarded a c s :
  try_except (finish a c) (ret tt) s =
  let ok1 := close_ok a (closes s) in
  let ok2 := logout_ok a (logouts s) in
  if ok1 then
    (if ok2 then Return (Some c) else Normal tt,
     mk_imap (imap_log s ++ [ImapClose true; ImapLogout ok2]) (S (closes s)) (S (logouts s)))
  else (Normal tt, mk_imap (imap_log s ++ [ImapClose false]) (S (closes s)) (logouts s)).
Proof.
  unfold try_except, finish, bind, imap_close, imap_logout, py_return, ret. simpl.
  destruct (close_ok a (closes s)); simpl; [|reflexivity].
  destruct (logout_ok a (logouts s)); simpl; rewrite <- app_assoc; reflexivity.
Qed.

Lemma walk_none a parts s : first_code parts = None -> walk a parts s = (Normal tt, s).
Proof.
  induction parts as [|p parts IH]; simpl; intros H; [reflexivity|].
  unfold bind. rewrite scan_part_code.
  destruct (part_code p); [discriminate|]. apply IH. exact H.
Qed.

Lemma walk_first a parts c s :
  first_code parts = Some c ->
  closes s = 0 -> logouts s = 0 ->
  close_ok a 0 = true -> logout_ok a 0 = true ->
  walk a parts s =
  (Return (Some c), mk_imap (imap_log s ++ [ImapClose true; ImapLogout true]) 1 1).
Proof.
  intros H Hc Hl Hco Hlo. induction parts as [|p parts IH]; simpl in *; [discriminate|].
  unfold bind. rewrite scan_part_code.
  destruct (part_code p) as [c'|].
  - inversion H; subst c'. rewrite finish_guarded. rewrite Hc, Hl, Hco, Hlo. reflexivity.
  - apply IH. exact H.
Qed.

(** Events of the loop over the parts: only [close] and [logout]. *)
Definition closing (e : imap_event) : Prop :=
  match e with ImapClose _ | ImapLogout _ => True | _ => False end.

(** The log ends with a successful [close] and a successful [logout]. *)
Definition closed_end (evs : list imap_event) : Prop :=
  exists pre, evs = pre ++ [ImapClose true; ImapLogout true].

Lemma walk_cases a parts : forall s,
  exists evs s',
    imap_log s' = imap_log s ++ evs /\ Forall closing evs /\
    (walk a parts s = (Normal tt, s') \/
     exists c, walk a parts s = (Return (Some c), s') /\ is_code c /\ closed_end evs
               /\ first_code parts <> None).
Proof.
  induction parts as [|p parts IH]; intros s.
  - exists [], s. rewrite app_nil_r. split; [reflexivity|]. split; [constructor|].
    left. reflexivity.
  - cbn [walk first_code]. unfold bind. rewrite scan_part_code.
    destruct (part_code p) as [c|] eqn:Ep.
    + rewrite finish_guarded. cbv zeta.
      assert (Hcode : is_code c).
      { unfold part_code in Ep. destruct (is_text p); [|discriminate].
        destruct (payload p); [|discriminate]. eapply body_code_is_code; eauto. }
      destruct (close_ok a (closes s)).
      * destruct (logout_ok a (logouts s)).
        -- exists [ImapClose true; ImapLogout true],
             (mk_imap (imap_log s ++ [ImapClose true; ImapLogout true])
                      (S (closes s)) (S (logouts s))).
           split; [reflexivity|]. split; [repeat constructor|].
           right. exists c. split; [reflexivity|]. split; [exact Hcode|].
           split; [exists []; reflexivity | discriminate].
        -- match goal with |- context [walk a parts ?s1] =>
             destruct (IH s1) as [evs [s' [Hlog [Hev Hres]]]] end.
           exists ([ImapClose true; ImapLogout false] ++ evs), s'.
           split; [rewrite Hlog; simpl; rewrite <- app_assoc; reflexivity|].
           split; [repeat constructor; exact Hev|].
           destruct Hres as [Hres | [c' [Hres [Hc' [[pre Hpre] _]]]]]; [left; exact Hres|].
           right. exists c'. split; [exact Hres|]. split; [exact Hc'|].
           split; [|discriminate].
           exists ([ImapClose true; ImapLogout false] ++ pre). rewrite Hpre.
           rewrite <- app_assoc. reflexivity.
      * match goal with |- context [walk a parts ?s1] =>
          destruct (IH s1) as [evs [s' [Hlog [Hev Hres]]]] end.
        exists ([ImapClose false] ++ evs), s'.
        split; [rewrite Hlog; simpl; rewrite <- app_assoc; reflexivity|].
        split; [repeat constructor; exact Hev|].
        destruct Hres as [Hres | [c' [Hres [Hc' [[pre Hpre] _]]]]]; [left; exact Hres|].
        right. exists c'. split; [exact Hres|]. split; [exact Hc'|].
        split; [|discriminate].
        exists ([ImapClose false] ++ pre). rewrite Hpre.
        rewrite <- app_assoc. reflexivity.
    + destruct (IH s) as [evs [s' [Hlog [Hev Hres]]]].
      exists evs, s'. split; [exact Hlog|]. split; [exact Hev|]. exact Hres.
Qed.

(** The message ids the three searches leave: the first non-empty answer,
    [None] when a search raises. *)
Definition candidates (a : attempt_env) : option (list nat) :=
  match search_ids a FromUnseen with
  | None => None
  | Some ids =>
      if is_empty ids then
        match search_ids a FromSender with
        | None => None
        | Some ids => if is_empty ids then search_ids a BySubject else Some ids
        end
      else Some ids
  end.

(** The parts of the message the attempt looks at: those of the last
    candidate, none when there is no candidate, [None] when a call on the
    way raises. *)
Definition fetched (a : attempt_env) : option (list part) :=
  if connect_ok a && login_ok a && select_ok a then
    match candidates a with
    | Some ids => if is_empty ids then Some [] else fetch_parts a (last ids 0)
    | None => None
    end
  else None.

(** The code the mailbox offers on this attempt, if any: the code of the
    first part of the fetched message that one of the patterns matches. *)
Definition offered (a : attempt_env) : option pystr :=
  match fetched a with
  | Some parts => first_code parts
  | None => None
  end.

(** Lines 87-110 alone. *)
Definition prelude (a : attempt_env) : IM (list part) :=
  imap_connect a ;;
  imap_login a ;;
  imap_select a ;;
  ids <- imap_search a FromUnseen ;;
  ids <- (if is_empty ids then
            ids <- imap_search a FromSender ;;
            if is_empty ids then imap_search a BySubject else ret ids
          else ret ids) ;;
  if is_empty ids then ret [] else imap_fetch a (last ids 0).

Ltac unfold_imap :=
  unfold imap_connect, imap_login, imap_select, imap_search, imap_fetch,
    bind, imap_new, imap_emit, guard, value, when, ret, py_raise.

Lemma attempt_body_prelude a s :
  attempt_body a s =
  (parts <- prelude a ;; walk a parts ;; imap_close a ;; imap_logout a) s.
Proof.
  unfold attempt_body, prelude. destruct a as [co lo se sr fe cl lg].
  unfold_imap. cbn.
  destruct co; cbn; [|reflexivity]. destruct lo; cbn; [|reflexivity].
  destruct se; cbn; [|reflexivity].
  destruct (sr FromUnseen) as [[|i1 l1]|]; cbn; [| |reflexivity].
  - destruct (sr FromSender) as [[|i2 l2]|]; cbn; [| |reflexivity].
    + destruct (sr BySubject) as [[|i3 l3]|]; cbn; [reflexivity| |reflexivity].
      match goal with |- context [fe ?x] => destruct (fe x) end; reflexivity.
    + match goal with |- context [fe ?x] => destruct (fe x) end; reflexivity.
  - match goal with |- context [fe ?x] => destruct (fe x) end; reflexivity.
Qed.

(** Events inside one attempt: anything but a new connection or a sleep. *)
Definition inner (e : imap_event) : Prop :=
  match e with ImapConnect _ | ImapSleep _ => False | _ => True end.

Lemma closing_inner evs : Forall closing evs -> Forall inner evs.
Proof.
  apply Forall_impl. intros [] H; simpl in *; auto.
Qed.

(** Events of the calls before the parts are walked. *)
Definition opening (e : imap_event) : Prop :=
  match e with
  | ImapLogin _ | ImapSelect _ | ImapSearch _ _ | ImapFetch _ _ => True
  | _ => False
  end.

Lemma opening_inner evs : Forall opening evs -> Forall inner evs.
Proof.
  apply Forall_impl. intros [] H; simpl in *; auto.
Qed.

Lemma prelude_run a :
  exists evs,
    Forall opening evs /\
    prelude a imap_start =
    (match fetched a with Some parts => Normal parts | None => Raise end,
     mk_imap (ImapConnect (connect_ok a) :: evs) 0 0).
Proof.
  unfold prelude, fetched, candidates. destruct a as [co lo se sr fe cl lg].
  unfold_imap. cbn.
  destruct co; cbn; [|exists []; split; [constructor|reflexivity]].
  destruct lo; cbn; [|eexists; split; [|reflexivity]; repeat constructor].
  destruct se; cbn; [|eexists; split; [|reflexivity]; repeat constructor].
  destruct (sr FromUnseen) as [[|i1 l1]|]; cbn;
    [| |eexists; split; [|reflexivity]; repeat constructor].
  - destruct (sr FromSender) as [[|i2 l2]|]; cbn;
      [| |eexists; split; [|reflexivity]; repeat constructor].
    + destruct (sr BySubject) as [[|i3 l3]|]; cbn;
        [eexists; split; [|reflexivity]; repeat constructor|
        |eexists; split; [|reflexivity]; repeat constructor].
      match goal with |- context [fe ?x] => destruct (fe x) end; cbn; eexists; (split; [|reflexivity]); repeat constructor.
    + match goal with |- context [fe ?x] => destruct (fe x) end; cbn; eexists; (split; [|reflexivity]); repeat constructor.
  - match goal with |- context [fe ?x] => destruct (fe x) end; cbn; eexists; (split; [|reflexivity]); repeat constructor.
Qed.

Lemma closed_end_app pre evs : closed_end evs -> closed_end (pre ++ evs).
Proof. intros [p H]. exists (pre ++ p). rewrite H. apply app_assoc. Qed.

Lemma closed_end_last evs e : closed_end (evs ++ [e]) -> e = ImapLogout true.
Proof.
  intros [pre H].
  change (pre ++ [ImapClose true; ImapLogout true])
    with (pre ++ [ImapClose true] ++ [ImapLogout true]) in H.
  rewrite app_assoc in H. apply app_inj_tail in H. destruct H as [_ H]. exact H.
Qed.

Lemma closed_end_in evs : closed_end evs -> In (ImapLogout true) evs.
Proof.
  intros [pre H]. rewrite H. apply in_or_app. right. right. left. reflexivity.
Qed.

(** The three ways one attempt can end. *)
Lemma attempt_run a :
  exists f s evs,
    attempt a = (f, s) /\
    imap_log s = ImapConnect (connect_ok a) :: evs /\ Forall inner evs /\
    ((f = Raise /\ ~ closed_end (imap_log s))
     \/ (f = Normal tt /\ closed_end (imap_log s))
     \/ (exists c, f = Return (Some c) /\ is_code c
                   /\ closed_end (imap_log s) /\ offered a <> None)).
Proof.
  unfold attempt, offered. rewrite attempt_body_prelude.
  unfold bind at 1. destruct (prelude_run a) as [evs [Hopen Hp]]. rewrite Hp.
  pose proof (opening_inner evs Hopen) as Hin.
  destruct (fetched a) as [parts|].
  - destruct (walk_cases a parts (mk_imap (ImapConnect (connect_ok a) :: evs) 0 0))
      as [evs2 [s' [Hlog [Hcl Hres]]]].
    cbn [imap_log] in Hlog.
    destruct Hres as [Hres | [c [Hres [Hc [Hend Hoff]]]]].
    + unfold bind at 1. rewrite Hres. unfold bind, imap_close, imap_logout.
      destruct (close_ok a (closes s')); cbn.
      * destruct (logout_ok a (logouts s')); cbn; rewrite Hlog.
        -- eexists _, _, (evs ++ evs2 ++ [ImapClose true; ImapLogout true]).
           split; [reflexivity|]. cbn [imap_log]. split; [|split].
           ++ cbn. rewrite <- !app_assoc. reflexivity.
           ++ apply Forall_app; split; [exact Hin|].
              apply Forall_app; split; [apply closing_inner; exact Hcl|].
              repeat constructor.
           ++ right; left. split; [reflexivity|].
              exists (ImapConnect (connect_ok a) :: evs ++ evs2).
              cbn. rewrite <- !app_assoc. reflexivity.
        -- eexists _, _, (evs ++ evs2 ++ [ImapClose true; ImapLogout false]).
           split; [reflexivity|]. cbn [imap_log]. split; [|split].
           ++ cbn. rewrite <- !app_assoc. reflexivity.
           ++ apply Forall_app; split; [exact Hin|].
              apply Forall_app; split; [apply closing_inner; exact Hcl|].
              repeat constructor.
           ++ left. split; [reflexivity|]. intros Hce.
              apply closed_end_last in Hce. discriminate.
      * rewrite Hlog. eexists _, _, (evs ++ evs2 ++ [ImapClose false]).
        split; [reflexivity|]. cbn [imap_log]. split; [|split].
        -- cbn. rewrite <- !app_assoc. reflexivity.
        -- apply Forall_app; split; [exact Hin|].
           apply Forall_app; split; [apply closing_inner; exact Hcl|].
           repeat constructor.
        -- left. split; [reflexivity|]. intros Hce.
           apply closed_end_last in Hce. discriminate.
    + unfold bind at 1. rewrite Hres.
      eexists _, _, (evs ++ evs2). split; [reflexivity|]. split; [exact Hlog|]. split.
      * apply Forall_app; split; [exact Hin | apply closing_inner; exact Hcl].
      * right; right. exists c. split; [reflexivity|]. split; [exact Hc|].
        split; [|exact Hoff]. rewrite Hlog.
        apply closed_end_app. exact Hend.
  - eexists _, _, evs. split; [reflexivity|]. split; [reflexivity|].
    split; [exact Hin|]. left. split; [reflexivity|]. cbn [imap_log]. intros Hce.
    apply closed_end_in in Hce. destruct Hce as [Hce|Hce]; [discriminate|].
    rewrite Forall_forall in Hopen. exact (Hopen _ Hce).
Qed.

(** An attempt returns only what the mailbox offers. *)
Lemma attempt_not_offered a r : offered a = None -> fst (attempt a) <> Return r.
Proof.
  intros Hoff Hret.
  destruct (attempt_run a) as [f [s [evs [E [_ [_ [[H _] | [[H _] | [c [_ [_ [_ H]]]]]]]]]]]];
    rewrite E in Hret; cbn in Hret.
  - congruence.
  - congruence.
  - apply H. exact Hoff.
Qed.

(** When [close] and [logout] succeed on their first call, the attempt
    returns the offered code. *)
Lemma attempt_offered a c :
  offered a = Some c -> close_ok a 0 = true -> logout_ok a 0 = true ->
  fst (attempt a) = Return (Some c).
Proof.
  unfold attempt, offered. intros Hoff Hc Hl. rewrite attempt_body_prelude.
  unfold bind at 1. destruct (prelude_run a) as [evs [Hin Hp]]. rewrite Hp.
  destruct (fetched a) as [parts|]; [|discriminate].
  unfold bind at 1.
  rewrite (walk_first a parts c (mk_imap (ImapConnect (connect_ok a) :: evs) 0 0)
             Hoff eq_refl eq_refl Hc Hl).
  reflexivity.
Qed.

(** Inside the loop a returned value is never Python's [None]. *)
Lemma attempt_returns a r : fst (attempt a) = Return r -> exists c, r = Some c /\ is_code c.
Proof.
  intros Hret.
  destruct (attempt_run a) as [f [s [evs [E [_ [_ [[H _] | [[H _] | [c [H [Hc _]]]]]]]]]]];
    rewrite E in Hret; cbn in Hret.
  - congruence.
  - congruence.
  - exists c. split; [congruence | exact Hc].
Qed.

(** Attempts with a sleep between every two of them. *)
Fixpoint between (seconds : nat) (atts : list (list imap_event)) : list imap_event :=
  match atts with
  | [] => []
  | a :: rest =>
      match rest with
      | [] => a
      | _ :: _ => a ++ [ImapSleep seconds] ++ between seconds rest
      end
  end.

(** The trace of the attempts [k], ..., [k + n - 1], each on the mailbox as
    it is at that attempt, with a sleep of [seconds] between consecutive ones. *)
Definition attempts_trace (mb : mailbox) (seconds k n : nat) : list imap_event :=
  between seconds (map (fun j => attempt_events (mb j)) (seq k n)).

Definition no_return (mb : mailbox) (j : nat) : Prop :=
  forall r, fst (attempt (mb j)) <> Return r.

Lemma trace_snoc mb I n : forall k,
  flat_map (fun j => attempt_events (mb j) ++ [ImapSleep I]) (seq k n)
    ++ attempt_events (mb (k + n))
  = attempts_trace mb I k (S n).
Proof.
  unfold attempts_trace. induction n as [|n IH]; intros k.
  - cbn. rewrite Nat.add_0_r. reflexivity.
  - change (seq k (S (S n))) with (k :: seq (S k) (S n)).
    cbn [flat_map seq map between]. rewrite <- app_assoc.
    replace (k + S n) with (S k + n) by lia. rewrite IH.
    cbn [seq map]. rewrite <- app_assoc. reflexivity.
Qed.

Lemma attempts_prefix mb M I n : forall k rem,
  (forall j, k <= j < k + n -> no_return mb j) ->
  attempts_from mb M I k (n + rem) =
  (fst (attempts_from mb M I (k + n) rem),
   flat_map (fun j => attempt_events (mb j) ++ sleep_if (j <? M - 1) I) (seq k n)
     ++ snd (attempts_from mb M I (k + n) rem)).
Proof.
  induction n as [|n IH]; intros k rem H.
  - cbn. rewrite Nat.add_0_r. destruct (attempts_from mb M I k rem); reflexivity.
  - cbn [Nat.add attempts_from seq flat_map].
    assert (Hk : no_return mb k) by (apply H; lia).
    destruct (fst (attempt (mb k))) as [[]|r|] eqn:E; [| exfalso; exact (Hk r E) |].
    + rewrite IH by (intros j Hj; apply H; lia).
      replace (S k + n) with (k + S n) by lia. cbn [fst snd].
      rewrite <- !app_assoc. reflexivity.
    + rewrite IH by (intros j Hj; apply H; lia).
      replace (S k + n) with (k + S n) by lia. cbn [fst snd].
      rewrite <- !app_assoc. reflexivity.
Qed.

Lemma sleeps_before mb M I n : forall k,
  k + n <= M - 1 ->
  flat_map (fun j => attempt_events (mb j) ++ sleep_if (j <? M - 1) I) (seq k n) =
  flat_map (fun j => attempt_events (mb j) ++ [ImapSleep I]) (seq k n).
Proof.
  induction n as [|n IH]; intros k H; [reflexivity|].
  cbn [seq flat_map]. rewrite IH by lia.
  replace (k <? M - 1) with true; [reflexivity|].
  symmetry. apply Nat.ltb_lt. lia.
Qed.

(** The first [n + 1] attempts when none of the first [n] returns. *)
Lemma attempts_through mb M I n :
  n < M ->
  (forall j, j < n -> no_return mb j) ->
  exists rest,
    attempts_from mb M I n (M - n) = rest /\
    attempts_from mb M I 0 M =
    (fst rest,
     flat_map (fun j => attempt_events (mb j) ++ [ImapSleep I]) (seq 0 n) ++ snd rest).
Proof.
  intros Hn H. eexists. split; [reflexivity|].
  replace M with (n + (M - n)) at 2 by lia.
  rewrite attempts_prefix by (intros j Hj; apply H; lia).
  rewrite sleeps_before by lia. reflexivity.
Qed.

Lemma attempts_found mb M I n c :
  n < M ->
  (forall j, j < n -> no_return mb j) ->
  fst (attempt (mb n)) = Return (Some c) ->
  attempts_from mb M I 0 M = (Return (Some c), attempts_trace mb I 0 (S n)).
Proof.
  intros Hn H Hret. destruct (attempts_through mb M I n Hn H) as [rest [Hrest Hall]].
  rewrite Hall. subst rest. destruct (M - n) as [|m] eqn:Em; [lia|].
  cbn [attempts_from]. rewrite Hret. cbn [fst snd].
  rewrite <- (trace_snoc mb I n 0). reflexivity.
Qed.

Lemma attempts_exhausted mb M I :
  (forall j, j < M -> no_return mb j) ->
  attempts_from mb M I 0 M = (Normal tt, attempts_trace mb I 0 M).
Proof.
  intros H. destruct M as [|n]; [reflexivity|].
  assert (Hn : n < S n) by lia.
  destruct (attempts_through mb (S n) I n Hn) as [rest [Hrest Hall]].
  { intros j Hj. apply H. lia. }
  rewrite Hall. subst rest. replace (S n - n) with 1 by lia.
  cbn [attempts_from].
  assert (Hk : no_return mb n) by (apply H; lia).
  replace (n <? S n - 1) with false by (symmetry; apply Nat.ltb_ge; lia).
  rewrite <- (trace_snoc mb I n 0). cbn [Nat.add sleep_if].
  destruct (fst (attempt (mb n))) as [[]|r|] eqn:E; [| exfalso; exact (Hk r E) |];
    cbn [fst snd]; rewrite !app_nil_r; reflexivity.
Qed.

Lemma attempts_normal mb M I remaining : forall k,
  fst (attempts_from mb M I k remaining) = Normal tt ->
  forall j, k <= j < k + remaining -> no_return mb j.
Proof.
  induction remaining as [|rem IH]; intros k H j Hj; [lia|].
  cbn [attempts_from] in H.
  destruct (fst (attempt (mb k))) as [[]|r|] eqn:E; cbn [fst] in H; try discriminate.
  - destruct (Nat.eq_dec j k) as [->|Hne]; [intros r; congruence|].
    apply (IH (S k) H). lia.
  - destruct (Nat.eq_dec j k) as [->|Hne]; [intros r; congruence|].
    apply (IH (S k) H). lia.
Qed.

Lemma attempts_return mb M I remaining : forall k r,
  fst (attempts_from mb M I k remaining) = Return r -> exists c, r = Some c /\ is_code c.
Proof.
  induction remaining as [|rem IH]; intros k r H; [discriminate|].
  cbn [attempts_from] in H.
  destruct (fst (attempt (mb k))) as [[]|r'|] eqn:E; cbn [fst] in H.
  - eapply IH; eauto.
  - inversion H; subst. eapply attempt_returns; eauto.
  - eapply IH; eauto.
Qed.

(** Number of attempts in a trace: every attempt opens with one connection. *)
Definition connects (evs : list imap_event) : nat :=
  length (filter (fun e => match e with ImapConnect _ => true | _ => false end) evs).

(** The sleeps in a trace, in order. *)
Definition sleeps (evs : list imap_event) : list nat :=
  flat_map (fun e => match e with ImapSleep n => [n] | _ => [] end) evs.

Lemma inner_counts evs : Forall inner evs -> connects evs = 0 /\ sleeps evs = [].
Proof.
  unfold connects. induction 1 as [|e evs He _ [IH1 IH2]]; [split; reflexivity|].
  destruct e; simpl in *; try contradiction; auto.
Qed.

Lemma attempt_counts a :
  connects (attempt_events a) = 1 /\ sleeps (attempt_events a) = [].
Proof.
  destruct (attempt_run a) as [f [s [evs [E [Hlog [Hin _]]]]]].
  unfold attempt_events. rewrite E. cbn [snd]. rewrite Hlog.
  destruct (inner_counts evs Hin) as [H1 H2].
  split; [|exact H2].
  unfold connects in *. cbn [filter length]. rewrite H1. reflexivity.
Qed.

Lemma connects_app a b : connects (a ++ b) = connects a + connects b.
Proof. unfold connects. rewrite filter_app, length_app. reflexivity. Qed.

Lemma sleeps_app a b : sleeps (a ++ b) = sleeps a ++ sleeps b.
Proof. unfold sleeps. apply flat_map_app. Qed.

(** [n] attempts, and [n - 1] sleeps of the configured length. *)
Lemma attempts_trace_counts mb I n : forall k,
  connects (attempts_trace mb I k n) = n /\
  sleeps (attempts_trace mb I k n) = repeat I (n - 1).
Proof.
  unfold attempts_trace. induction n as [|n IH]; intros k; [split; reflexivity|].
  destruct (attempt_counts (mb k)) as [Hc Hs].
  destruct n as [|n].
  - cbn. split; assumption.
  - destruct (IH (S k)) as [IHc IHs].
    change (seq k (S (S n))) with (k :: seq (S k) (S n)).
    cbn [map between]. change (map (fun j => attempt_events (mb j)) (seq (S k) (S n)))
      with (attempt_events (mb (S k)) :: map (fun j => attempt_events (mb j)) (seq (S (S k)) n)).
    cbv iota. rewrite !connects_app, !sleeps_app, Hc, Hs.
    change (attempt_events (mb (S k)) :: map (fun j => attempt_events (mb j)) (seq (S (S k)) n))
      with (map (fun j => attempt_events (mb j)) (seq (S k) (S n))).
    rewrite IHc, IHs. cbn. rewrite Nat.sub_0_r. split; reflexivity.
Qed.

Lemma attempts_return_from mb M I rem : forall k r,
  fst (attempts_from mb M I k rem) = Return r ->
  exists j, k <= j < k + rem /\ fst (attempt (mb j)) = Return r.
Proof.
  induction rem as [|rem IH]; intros k r H; [discriminate|].
  cbn [attempts_from] in H.
  destruct (fst (attempt (mb k))) as [[]|r'|] eqn:E; cbn [fst] in H.
  - destruct (IH (S k) r H) as [j [Hj Hr]]. exists j. split; [lia | exact Hr].
  - exists k. split; [lia | congruence].
  - destruct (IH (S k) r H) as [j [Hj Hr]]. exists j. split; [lia | exact Hr].
Qed.

(** The length of a code the four patterns find. *)
Lemma body_code_length body c :
  body_code body = Some c -> length c = 6 \/ length c = 4 \/ 1 <= length c <= 3.
Proof.
  unfold body_code.
  destruct (re_search false re_six body) as [c6|] eqn:E6.
  { intros H; inversion H; subst. left. apply (search_digits_shape _ _ _ E6). }
  destruct (re_search false re_four body) as [c4|] eqn:E4.
  { intros H; inversion H; subst. right; left. apply (search_digits_shape _ _ _ E4). }
  intros Hc. right; right.
  assert (Hk : exists kw, keyword_capture kw body c).
  { destruct (re_search true (re_keyword kod) body) as [c'|] eqn:Ek.
    - inversion Hc; subst. exists kod. apply search_keyword_some. exact Ek.
    - exists code. apply search_keyword_some. exact Hc. }
  destruct Hk as [kw [pre [hd [gap [rest [Hb [_ [_ [Hlen [Hd _]]]]]]]]]].
  split; [exact Hlen|].
  destruct (Nat.le_gt_cases (length c) 3) as [Hle|Hgt]; [exact Hle|exfalso].
  pose proof (search_digits_none _ _ E4 (length (pre ++ hd ++ gap))) as Hw.
  subst body.
  replace (pre ++ hd ++ gap ++ c ++ rest) with ((pre ++ hd ++ gap) ++ c ++ rest) in Hw
    by (rewrite <- !app_assoc; reflexivity).
  rewrite skipn_app, skipn_all, Nat.sub_diag in Hw. cbn [app skipn] in Hw.
  unfold window in Hw. rewrite span_app_run in Hw by exact Hd.
  apply Nat.leb_gt in Hw. lia.
Qed.

(** A code that [walk] returns is the code of one of the parts. *)
Lemma walk_return a parts : forall s c s',
  walk a parts s = (Return (Some c), s') -> exists p, In p parts /\ part_code p = Some c.
Proof.
  induction parts as [|p parts IH]; intros s c s' H; [discriminate|].
  cbn [walk] in H. unfold bind in H. rewrite scan_part_code in H.
  destruct (part_code p) as [c'|] eqn:Ep.
  - rewrite finish_guarded in H. cbv zeta in H.
    destruct (close_ok a (closes s)).
    + destruct (logout_ok a (logouts s)).
      * inversion H; subst. exists p. split; [left; reflexivity | exact Ep].
      * destruct (IH _ _ _ H) as [q [Hq Hc]]. exists q. split; [right; exact Hq | exact Hc].
    + destruct (IH _ _ _ H) as [q [Hq Hc]]. exists q. split; [right; exact Hq | exact Hc].
  - destruct (IH _ _ _ H) as [q [Hq Hc]]. exists q. split; [right; exact Hq | exact Hc].
Qed.

(** A code an attempt returns stands in a part of the message it fetched. *)
Lemma attempt_return_source a c :
  fst (attempt a) = Return (Some c) ->
  exists parts p, fetched a = Some parts /\ In p parts /\ part_code p = Some c.
Proof.
  unfold attempt. rewrite attempt_body_prelude. unfold bind at 1.
  destruct (prelude_run a) as [evs [_ Hp]]. rewrite Hp.
  destruct (fetched a) as [parts|]; [|discriminate].
  unfold bind at 1.
  destruct (walk a parts (mk_imap (ImapConnect (connect_ok a) :: evs) 0 0))
    as [[[]|r|] s'] eqn:Ew.
  - unfold bind, imap_close, imap_logout.
    destruct (close_ok a (closes s')); cbn; [|discriminate].
    destruct (logout_ok a (logouts s')); cbn; discriminate.
  - cbn. intros H. inversion H; subst r.
    destruct (walk_return a parts _ c s' Ew) as [p [Hin Hc]]. exists parts, p. auto.
  - discriminate.
Qed.

End ExtractorFacts.

(* ------------------------------------------------------------------ *)
(** ** The OTP extractor: retry budget, pattern order, session handling *)

Section ExtractorClaims.

Context {U : Unicode}.

(** [n] digits stand in a row somewhere in [body]. *)
Definition has_run (n : nat) (body : pystr) : Prop :=
  exists i, window n (skipn i body) = true.

(** [w] is the first [n] digits at the leftmost place of [body] where [n]
    digits stand in a row. *)
Definition leftmost_run (n : nat) (body w : pystr) : Prop :=
  exists i, window n (skipn i body) = true /\ w = firstn n (skipn i body)
            /\ forall j, j < i -> window n (skipn j body) = false.

(** Some occurrence of the keyword is followed by a number. *)
Definition keyword_number (kw body : pystr) : Prop :=
  exists c, keyword_capture kw body c.

Lemma search_run n body :
  has_run n body ->
  exists w, leftmost_run n body w /\
            re_search false [mk_piece Digit (Times n) true] body = Some w.
Proof.
  intros [i Hi].
  destruct (re_search false [mk_piece Digit (Times n) true] body) as [w|] eqn:E.
  - exists w. split; [|reflexivity].
    destruct (search_digits_some _ _ _ E) as [k [_ [Hw [Hc Hl]]]].
    exists k. auto.
  - rewrite (search_digits_none _ _ E i) in Hi. discriminate.
Qed.

Lemma search_no_run n body :
  ~ has_run n body -> re_search false [mk_piece Digit (Times n) true] body = None.
Proof.
  intros H. destruct (re_search false [mk_piece Digit (Times n) true] body) as [w|] eqn:E;
    [|reflexivity].
  exfalso. apply H. destruct (search_digits_some _ _ _ E) as [k [_ [Hw _]]].
  exists k. exact Hw.
Qed.

Lemma no_four_no_six body : ~ has_run 4 body -> ~ has_run 6 body.
Proof.
  intros H [i Hi]. apply H. exists i. unfold window in *.
  apply Nat.leb_le in Hi. apply Nat.leb_le. lia.
Qed.

Lemma search_keyword_absent kw body :
  ~ keyword_number kw body -> re_search true (re_keyword kw) body = None.
Proof.
  intros H. destruct (re_search true (re_keyword kw) body) as [c|] eqn:E; [|reflexivity].
  exfalso. apply H. exists c. apply search_keyword_some. exact E.
Qed.

Lemma search_keyword_present kw body :
  keyword_number kw body ->
  exists c, keyword_capture kw body c /\ re_search true (re_keyword kw) body = Some c.
Proof.
  intros [c0 H0]. destruct (search_keyword_complete _ _ _ H0) as [c Hc].
  exists c. split; [apply search_keyword_some; exact Hc | exact Hc].
Qed.

Lemma first_code_app l1 l2 :
  first_code l1 = None -> first_code (l1 ++ l2) = first_code l2.
Proof.
  induction l1 as [|p l1 IH]; cbn [first_code app]; intros H; [reflexivity|].
  destruct (part_code p); [discriminate | apply IH; exact H].
Qed.

(** The first attempt decides when the mailbox offers a code on it and
    [close] and [logout] succeed. *)
Lemma first_attempt_decides mb M I c :
  1 <= M -> offered (mb 0) = Some c ->
  close_ok (mb 0) 0 = true -> logout_ok (mb 0) 0 = true ->
  extract_otp_from_email mb M I = (Some c, attempt_events (mb 0)).
Proof.
  intros HM Hoff Hc Hl. rewrite extract_trace.
  rewrite (attempts_found mb M I 0 c).
  - unfold attempts_trace. cbn. reflexivity.
  - lia.
  - intros j Hj. lia.
  - apply attempt_offered; assumption.
Qed.

(** The code of the first part that has one is the code the mailbox offers. *)
Lemma offered_at mb before p after body :
  fetched (mb 0) = Some (before ++ p :: after) ->
  first_code before = None ->
  is_text p = true -> payload p = Some body ->
  forall c, body_code body = Some c -> offered (mb 0) = Some c.
Proof.
  intros Hf Hb Ht Hp c Hc. unfold offered. rewrite Hf, first_code_app by exact Hb.
  cbn [first_code]. unfold part_code. rewrite Ht, Hp, Hc. reflexivity.
Qed.


(** C3. The first attempt fetches a message in which [p] is the first part
    that can hold a code: a text part with the text [body], after parts that
    offer none.  With [close] and [logout] succeeding, what the function
    returns is decided by the four patterns in the order six digits, four
    digits, the Cyrillic keyword, the English keyword: six digits in a row
    anywhere in [body] win over every run of four, wherever it stands; four
    in a row are returned only when there are no six; the number after a
    keyword only when there are no four in a row.  The call ends with that
    attempt.  When no pattern matches, the scan of [p] does nothing and the
    loop goes on with the next part. *)
Theorem C3_pattern_tiers_in_order (mb : mailbox) (max_retries retry_interval : nat)
    (before after : list part) (p : part) (body : pystr) :
  1 <= max_retries ->
  fetched (mb 0) = Some (before ++ p :: after) ->
  first_code before = None ->
  is_text p = true -> payload p = Some body ->
  close_ok (mb 0) 0 = true -> logout_ok (mb 0) 0 = true ->
  (has_run 6 body ->
   exists w, leftmost_run 6 body w
             /\ extract_otp_from_email mb max_retries retry_interval
                = (Some w, attempt_events (mb 0)))
  /\ (~ has_run 6 body -> has_run 4 body ->
      exists w, leftmost_run 4 body w
                /\ extract_otp_from_email mb max_retries retry_interval
                   = (Some w, attempt_events (mb 0)))
  /\ (~ has_run 4 body -> keyword_number kod body ->
      exists c, keyword_capture kod body c
                /\ extract_otp_from_email mb max_retries retry_interval
                   = (Some c, attempt_events (mb 0)))
  /\ (~ has_run 4 body -> ~ keyword_number kod body -> keyword_number code body ->
      exists c, keyword_capture code body c
                /\ extract_otp_from_email mb max_retries retry_interval
                   = (Some c, attempt_events (mb 0)))
  /\ (~ has_run 4 body -> ~ keyword_number kod body -> ~ keyword_number code body ->
      forall s, scan_part (mb 0) p s = (Normal tt, s)
                /\ walk (mb 0) (p :: after) s = walk (mb 0) after s).
Proof.
  intros HM Hf Hb Ht Hp Hc Hl.
  assert (Hret : forall c, body_code body = Some c ->
            extract_otp_from_email mb max_retries retry_interval
            = (Some c, attempt_events (mb 0))).
  { intros c Hbc. apply first_attempt_decides; try assumption.
    apply (offered_at mb before p after body); assumption. }
  unfold body_code, re_six, re_four in Hret.
  split; [|split; [|split; [|split]]].
  - intros H6. destruct (search_run 6 body H6) as [w [Hw Hs]].
    exists w. split; [exact Hw|]. apply Hret. rewrite Hs. reflexivity.
  - intros H6 H4. destruct (search_run 4 body H4) as [w [Hw Hs]].
    exists w. split; [exact Hw|]. apply Hret.
    rewrite (search_no_run 6 body H6), Hs. reflexivity.
  - intros H4 Hk. destruct (search_keyword_present kod body Hk) as [c [Hcap Hs]].
    exists c. split; [exact Hcap|]. apply Hret.
    rewrite (search_no_run 6 body (no_four_no_six body H4)).
    rewrite (search_no_run 4 body H4), Hs. reflexivity.
  - intros H4 Hk Hcode. destruct (search_keyword_present code body Hcode) as [c [Hcap Hs]].
    exists c. split; [exact Hcap|]. apply Hret.
    rewrite (search_no_run 6 body (no_four_no_six body H4)).
    rewrite (search_no_run 4 body H4), (search_keyword_absent kod body Hk), Hs. reflexivity.
  - intros H4 Hk Hcode s.
    assert (Hs : scan_part (mb 0) p s = (Normal tt, s)).
    { unfold scan_part. rewrite Ht. unfold try_except, bind, value. rewrite Hp.
      unfold ret at 1. unfold scan_body, re_six, re_four.
      rewrite (search_no_run 6 body (no_four_no_six body H4)).
      rewrite (search_no_run 4 body H4), (search_keyword_absent kod body Hk).
      rewrite (search_keyword_absent code body Hcode). reflexivity. }
    split; [exact Hs|]. cbn [walk]. unfold bind. rewrite Hs. reflexivity.
Qed.

(** C6, as the code has it. An attempt that is not ended by an exception
    has, as its last two calls, a successful [close] and a successful
    [logout]; an attempt that is ended by an exception does not.  An attempt
    on which every call up to the walk over the parts succeeds, no part holds
    a code, and [close] and [logout] succeed, is not ended by an exception. *)
Theorem C6_session_closed_unless_raised (a : attempt_env) :
  (fst (attempt a) <> Raise <-> closed_end (attempt_events a))
  /\ (forall parts, fetched a = Some parts -> first_code parts = None ->
        close_ok a 0 = true -> logout_ok a 0 = true ->
        fst (attempt a) = Normal tt /\ closed_end (attempt_events a)).
Proof.
  assert (Hiff : fst (attempt a) <> Raise <-> closed_end (attempt_events a)).
  { destruct (attempt_run a) as [f [s [evs [E [_ [_ H]]]]]].
    unfold attempt_events. rewrite E. cbn [fst snd].
    destruct H as [[Hf Hopen] | [[Hf Hend] | [c [Hf [_ [Hend _]]]]]]; subst f; split.
    - intros H. contradiction.
    - intros H. contradiction.
    - intros _. exact Hend.
    - intros _. discriminate.
    - intros _. exact Hend.
    - intros _. discriminate. }
  split; [exact Hiff|].
  intros parts Hf Hnone Hc Hl.
  assert (Hn : fst (attempt a) = Normal tt).
  { unfold attempt. rewrite attempt_body_prelude. unfold bind at 1.
    destruct (prelude_run a) as [evs [_ Hp]]. rewrite Hp, Hf.
    unfold bind at 1. rewrite (walk_none a parts _ Hnone).
    unfold bind, imap_close, imap_logout. cbn [closes logouts].
    rewrite Hc. cbn. rewrite Hl. reflexivity. }
  split; [exact Hn|]. apply Hiff. rewrite Hn. discriminate.
Qed.

(** C7. An exception that leaves attempt [k] is caught by the handler of
    that attempt.  The trace of the whole call is then: the attempts up to
    and including [k] with a sleep between consecutive ones, one more sleep
    when an attempt is left in the budget, and the remaining attempts, whose
    result is the result of the call; the remaining attempts start with a new
    connection.  The call returns [None] only with a trace of all
    [max_retries] attempts. *)
Theorem C7_protocol_error_is_a_failed_attempt (mb : mailbox) (max_retries retry_interval k : nat) :
  k < max_retries ->
  (forall j, j < k -> no_return mb j) ->
  fst (attempt (mb k)) = Raise ->
  let rest := attempts_from mb max_retries retry_interval (S k) (max_retries - S k) in
  extract_otp_from_email mb max_retries retry_interval =
    (match fst rest with Return r => r | _ => None end,
     attempts_trace mb retry_interval 0 (S k)
       ++ sleep_if (S k <? max_retries) retry_interval ++ snd rest)
  /\ (S k < max_retries -> exists tl, snd rest = ImapConnect (connect_ok (mb (S k))) :: tl)
  /\ (fst (extract_otp_from_email mb max_retries retry_interval) = None ->
      snd (extract_otp_from_email mb max_retries retry_interval)
      = attempts_trace mb retry_interval 0 max_retries).
Proof.
  intros Hk Hbefore Hraise rest. split; [|split].
  - rewrite extract_trace.
    destruct (attempts_through mb max_retries retry_interval k Hk Hbefore) as [r [Hr Hall]].
    rewrite Hall. subst r.
    destruct (max_retries - k) as [|m] eqn:Em; [lia|].
    cbn [attempts_from]. rewrite Hraise. cbn [fst snd].
    replace m with (max_retries - S k) by lia. fold rest.
    replace (k <? max_retries - 1) with (S k <? max_retries).
    2:{ destruct (Nat.ltb_spec (S k) max_retries), (Nat.ltb_spec k (max_retries - 1));
        try reflexivity; lia. }
    rewrite <- (trace_snoc mb retry_interval k 0). cbn [Nat.add].
    rewrite <- !app_assoc.
    destruct (fst rest) as [[]|r|]; reflexivity.
  - intros Hmore. subst rest. destruct (max_retries - S k) as [|m] eqn:Em; [lia|].
    cbn [attempts_from].
    destruct (attempt_run (mb (S k))) as [f [s [evs [E [Hlog _]]]]].
    unfold attempt_events. rewrite E. cbn [fst snd]. rewrite Hlog.
    destruct f as [[]|r|]; cbn [snd app]; eexists; reflexivity.
  - rewrite extract_trace.
    destruct (attempts_from mb max_retries retry_interval 0 max_retries) as [[[]|r|] evs] eqn:E;
      cbn [fst snd].
    + intros _.
      assert (Hn : forall j, j < max_retries -> no_return mb j).
      { intros j Hj. apply (attempts_normal mb max_retries retry_interval max_retries 0).
        - rewrite E. reflexivity.
        - lia. }
      rewrite (attempts_exhausted mb max_retries retry_interval Hn) in E.
      inversion E. reflexivity.
    + intros Hr. subst r.
      destruct (attempts_return mb max_retries retry_interval max_retries 0 None) as [c [Hc _]].
      * rewrite E. reflexivity.
      * discriminate.
    + exfalso. apply (attempts_from_no_raise mb max_retries retry_interval max_retries 0).
      rewrite E. reflexivity.
Qed.

(** A message with one plain-text part. *)
Definition plain_message (body : pystr) : list part :=
  [mk_part (u "text/plain") (Some body)].

(** A server on which every call succeeds and the unseen mail from the
    sender is one message with the given parts. *)
Definition serving (parts : list part) : attempt_env :=
  mk_attempt true true true
    (fun q => match q with FromUnseen => Some [1] | _ => Some [] end)
    (fun _ => Some parts) (fun _ => true) (fun _ => true).


(** Reached through the cascade, the keyword patterns return at most three
    digits: four digits in a row would have matched the second pattern. *)
Theorem keyword_code_is_short (body c : pystr) :
  re_search false re_six body = None ->
  re_search false re_four body = None ->
  body_code body = Some c ->
  1 <= length c <= 3.
Proof.
  intros H6 H4 Hc. unfold body_code in Hc. rewrite H6, H4 in Hc.
  assert (Hk : exists kw, keyword_capture kw body c).
  { destruct (re_search true (re_keyword kod) body) as [c'|] eqn:Ek.
    - inversion Hc; subst. exists kod. apply search_keyword_some. exact Ek.
    - exists code. apply search_keyword_some. exact Hc. }
  destruct Hk as [kw [pre [hd [gap [rest [Hb [_ [_ [Hlen [Hd _]]]]]]]]]].
  split; [exact Hlen|].
  destruct (Nat.le_gt_cases (length c) 3) as [Hle|Hgt]; [exact Hle|exfalso].
  pose proof (search_digits_none _ _ H4 (length (pre ++ hd ++ gap))) as Hw.
  subst body. rewrite !app_assoc in Hw. rewrite <- !app_assoc in Hw.
  replace (pre ++ hd ++ gap ++ c ++ rest) with ((pre ++ hd ++ gap) ++ c ++ rest) in Hw
    by (rewrite <- !app_assoc; reflexivity).
  rewrite skipn_app, skipn_all, Nat.sub_diag in Hw. cbn [app skipn] in Hw.
  unfold window in Hw. rewrite span_app_run in Hw by exact Hd.
  apply Nat.leb_gt in Hw. lia.
Qed.

(** With a mailbox that offers nothing on the attempts before attempt [n]
    and a code on attempt [n], and whose [close] and [logout] succeed on that
    attempt, the function returns the code after exactly [n + 1] attempts,
    sleeping between consecutive ones. *)
Theorem retry_budget_found (mb : mailbox) (max_retries retry_interval n : nat) (c : pystr) :
  n < max_retries ->
  (forall j, j < n -> offered (mb j) = None) ->
  offered (mb n) = Some c ->
  close_ok (mb n) 0 = true -> logout_ok (mb n) 0 = true ->
  extract_otp_from_email mb max_retries retry_interval
  = (Some c, attempts_trace mb retry_interval 0 (S n))
  /\ connects (attempts_trace mb retry_interval 0 (S n)) = S n
  /\ sleeps (attempts_trace mb retry_interval 0 (S n)) = repeat retry_interval n.
Proof.
  intros Hn Hnone Hoff Hc Hl. split.
  - rewrite extract_trace.
    rewrite (attempts_found mb max_retries retry_interval n c Hn).
    + reflexivity.
    + intros j Hj r. apply attempt_not_offered. apply Hnone. exact Hj.
    + apply attempt_offered; assumption.
  - destruct (attempts_trace_counts mb retry_interval (S n) 0) as [H1 H2].
    rewrite H1, H2. cbn [Nat.sub]. rewrite Nat.sub_0_r. split; reflexivity.
Qed.

(** With a mailbox that never offers a code the function makes exactly
    [max_retries] attempts and returns [None]. *)
Theorem retry_budget_exhausted (mb : mailbox) (max_retries retry_interval : nat) :
  (forall j, j < max_retries -> offered (mb j) = None) ->
  extract_otp_from_email mb max_retries retry_interval
  = (None, attempts_trace mb retry_interval 0 max_retries)
  /\ connects (attempts_trace mb retry_interval 0 max_retries) = max_retries
  /\ sleeps (attempts_trace mb retry_interval 0 max_retries)
     = repeat retry_interval (max_retries - 1).
Proof.
  intros Hnone. split.
  - rewrite extract_trace. rewrite attempts_exhausted; [reflexivity|].
    intros j Hj r. apply attempt_not_offered. apply Hnone. exact Hj.
  - apply attempts_trace_counts.
Qed.

End ExtractorClaims.

(* ------------------------------------------------------------------ *)
(** ** Invariants of a computation *)

(** [m] keeps [P]: from a state with [P] it ends, however it ends, in a
    state with [P]. *)
Definition preserves {S R A} (P : S -> Prop) (m : M S R A) : Prop :=
  forall s, P s -> P (snd (m s)).

Lemma preserves_ret {S R A} (P : S -> Prop) (a : A) : preserves P (@ret S R A a).
Proof. intros s H. exact H. Qed.

Lemma preserves_return {S R A} (P : S -> Prop) (r : R) : preserves P (@py_return S R A r).
Proof. intros s H. exact H. Qed.

Lemma preserves_raise {S R A} (P : S -> Prop) : preserves P (@py_raise S R A).
Proof. intros s H. exact H. Qed.

Lemma preserves_guard {S R} (P : S -> Prop) b : preserves P (@guard S R b).
Proof. destruct b; intros s H; exact H. Qed.

Lemma preserves_value {S R A} (P : S -> Prop) (v : option A) : preserves P (@value S R A v).
Proof. destruct v; intros s H; exact H. Qed.

Lemma preserves_bind {S R A B} (P : S -> Prop) (m : M S R A) (k : A -> M S R B) :
  preserves P m -> (forall a, preserves P (k a)) -> preserves P (bind m k).
Proof.
  intros Hm Hk s H. unfold bind. pose proof (Hm s H) as H'.
  destruct (m s) as [[a|r|] s']; cbn [snd] in *; [apply Hk; exact H' | exact H' | exact H'].
Qed.

Lemma preserves_try {S R A} (P : S -> Prop) (m h : M S R A) :
  preserves P m -> preserves P h -> preserves P (try_except m h).
Proof.
  intros Hm Hh s H. unfold try_except. pose proof (Hm s H) as H'.
  destruct (m s) as [[a|r|] s']; cbn [snd] in *; [exact H' | exact H' | apply Hh; exact H'].
Qed.

Lemma preserves_when {S R} (P : S -> Prop) b (m : M S R unit) :
  preserves P m -> preserves P (when b m).
Proof. intros H. destruct b; [exact H | apply preserves_ret]. Qed.

Lemma preserves_invoke {S R R' A} (P : S -> Prop) (m : M S R' A) (d : R') :
  preserves P m -> preserves P (@invoke S R R' A m d).
Proof.
  intros Hm s H. unfold invoke. pose proof (Hm s H) as H'.
  destruct (m s) as [[a|r|] s']; exact H'.
Qed.

Ltac preserves_step :=
  match goal with
  | |- preserves _ (bind _ _) => apply preserves_bind; [|intros ?]
  | |- preserves _ (try_except _ _) => apply preserves_try
  | |- preserves _ (when _ _) => apply preserves_when
  | |- preserves _ (invoke _ _) => apply preserves_invoke
  | |- preserves _ (ret _) => apply preserves_ret
  | |- preserves _ (py_return _) => apply preserves_return
  | |- preserves _ py_raise => apply preserves_raise
  | |- preserves _ (guard _) => apply preserves_guard
  | |- preserves _ (value _) => apply preserves_value
  | |- preserves _ (if ?b then _ else _) => destruct b
  | |- preserves _ (match ?x with _ => _ end) => destruct x
  end.

(* ------------------------------------------------------------------ *)
(** ** Facts about the login flow *)

(** The state after more events were logged. *)
Definition logged (s : login_state) (evs : list ui_event) : login_state :=
  mk_login_state (l_df s) (l_file s) (l_log s ++ evs).

Lemma logged_logged s a b : logged (logged s a) b = logged s (a ++ b).
Proof. unfold logged. cbn. rewrite app_assoc. reflexivity. Qed.

Section LoginFacts.

Context {U : Unicode} {XL : Excel}.

(** The events one login can log. *)
Definition may_emit (e : login_env) (phone_number : pystr) (ev : ui_event) : Prop :=
  match ev with
  | UiTypePhone t b => t = format_phone phone_number /\ b = phone_type_ok e
  | UiWaitOtp b => b = otp_found e
  | UiScreenshot n o => o = shot e n
  | UiSetCookies _ _ => False
  | _ => True
  end.

Section LoginInvariant.

Variable P : login_state -> Prop.
Variable e : login_env.
Variable phone_number : pystr.
Variable index : nat.

Hypothesis Hemit : forall ev, may_emit e phone_number ev -> preserves P (ui_emit ev).
Hypothesis Hassign : forall text, preserves P (assign_cookies index text).
Hypothesis Hstore : preserves P store_file.

Lemma inv_do ev b : may_emit e phone_number (ev b) -> preserves P (ui_do ev b).
Proof.
  intros Hev. unfold ui_do. apply preserves_bind; [apply Hemit; exact Hev|].
  intros _. apply preserves_guard.
Qed.

Lemma inv_shot name : preserves P (save_screenshot e name).
Proof.
  unfold save_screenshot. apply preserves_bind; [apply Hemit; reflexivity|].
  intros _. destruct (shot e name); first [apply preserves_ret | apply preserves_raise].
Qed.

Lemma inv_probes l : preserves P (probes e l).
Proof.
  induction l as [|i l IH]; cbn [probes]; [apply preserves_ret|].
  apply preserves_bind; [apply Hemit; exact I|].
  intros _. destruct (probe e i); [apply preserves_ret | exact IH].
Qed.

Lemma inv_append evs : forall s,
  (forall ev, In ev evs -> may_emit e phone_number ev) ->
  P s -> P (mk_login_state (l_df s) (l_file s) (l_log s ++ evs)).
Proof.
  induction evs as [|ev evs IH]; intros s Hall H.
  - rewrite app_nil_r. destruct s; exact H.
  - pose proof (Hemit ev (Hall ev (or_introl eq_refl)) s H) as H1. cbn in H1.
    apply (IH _ (fun x Hx => Hall x (or_intror Hx))) in H1. cbn in H1.
    rewrite <- app_assoc in H1. exact H1.
Qed.

Lemma inv_retrieve : preserves P (retrieve_otp e).
Proof.
  intros s H. unfold retrieve_otp. cbn [snd]. apply inv_append; [|exact H].
  intros ev Hev. apply in_map_iff in Hev. destruct Hev as [x [<- _]]. exact I.
Qed.

Lemma inv_save : preserves P (save_cookies e index).
Proof.
  unfold save_cookies, write_excel.
  repeat first [ apply Hemit; exact I | apply Hassign | apply Hstore | preserves_step ].
Qed.

(** An invariant that every step of the login keeps is kept by the login. *)
Lemma login_invariant : preserves P (login_to_ozon e phone_number index).
Proof.
  unfold login_to_ozon, phone_and_otp, navigate, ui_sleep.
  repeat first
    [ apply Hemit; exact I
    | apply inv_do; first [exact I | reflexivity | split; reflexivity]
    | apply inv_shot
    | apply inv_probes
    | apply inv_retrieve
    | apply inv_save
    | preserves_step ].
Qed.

End LoginInvariant.

(** Every logged event satisfies [ok]. *)
Definition log_all (ok : ui_event -> Prop) (s : login_state) : Prop :=
  Forall ok (l_log s).

Lemma log_all_emit ok ev : ok ev -> preserves (log_all ok) (ui_emit ev).
Proof.
  intros Hev s H. unfold log_all in *. cbn. apply Forall_app. split; [exact H|].
  constructor; [exact Hev | constructor].
Qed.

Lemma login_log_all ok e phone_number index :
  (forall ev, may_emit e phone_number ev -> ok ev) ->
  (forall text, ok (UiSetCookies index text)) ->
  preserves (log_all ok) (login_to_ozon e phone_number index).
Proof.
  intros Hok Hset. apply login_invariant.
  - intros ev Hev. apply log_all_emit. apply Hok. exact Hev.
  - intros text s H. unfold log_all in *. cbn. apply Forall_app. split; [exact H|].
    constructor; [apply Hset | constructor].
  - intros s H. exact H.
Qed.

(** An event is fine when it is not a [send_keys] of a phone number, or when
    the number it sends is [text]. *)
Definition types_phone (text : pystr) (ev : ui_event) : Prop :=
  match ev with
  | UiTypePhone t _ => t = text
  | _ => True
  end.

Lemma login_types_phone e phone_number index :
  preserves (log_all (types_phone (format_phone phone_number)))
            (login_to_ozon e phone_number index).
Proof.
  apply login_log_all; [|intros; exact I].
  intros [] H; cbn in *; try exact I. destruct H as [H _]. exact H.
Qed.


Definition general_shot (index : nat) : pystr := shot_name "error_general" index.



(** Lines 330-412: what follows the typing of the phone number. *)
Definition after_typing (e : login_env) (index : nat) : LM unit :=
  ui_sleep 2 ;;
  try_except (ui_do UiSubmitPhone (submit_click_ok e))
             (ui_do UiEnterPhone (phone_enter_ok e)) ;;
  ui_sleep 5 ;;
  ui_do UiWaitOtp (otp_found e) ;;
  otp_code <- retrieve_otp e ;;
  when (falsy otp_code)
       (save_screenshot e (shot_name "error_otp_retrieval" index) ;; py_return false) ;;
  let otp := match otp_code with Some c => c | None => [] end in
  ui_do UiClearOtp (otp_clear_ok e) ;;
  ui_do (UiTypeOtp otp) (otp_type_ok e) ;;
  ui_sleep 2 ;;
  try_except (ui_do UiConfirm (confirm_click_ok e))
             (ui_do UiEnterOtp (otp_enter_ok e)) ;;
  ui_sleep 15 ;;
  login_successful <- probes e [0; 1; 2] ;;
  ok <- (if login_successful then ret true else value (final_url e)) ;;
  if ok then save_cookies e index
  else save_screenshot e (shot_name "login_failed" index) ;; py_return false.

Lemma phone_and_otp_split e phone_number index :
  phone_and_otp e phone_number index =
  (ui_do UiWaitPhone (phone_found e) ;;
   ui_do UiClearPhone (phone_clear_ok e) ;;
   ui_do (UiTypePhone (format_phone phone_number)) (phone_type_ok e) ;;
   after_typing e index).
Proof. reflexivity. Qed.

(** The log begins with [pre]. *)
Definition begins (pre : list ui_event) (s : login_state) : Prop :=
  exists post, l_log s = pre ++ post.

Lemma begins_more pre evs s df file :
  begins pre s -> begins pre (mk_login_state df file (l_log s ++ evs)).
Proof. intros [post H]. exists (post ++ evs). cbn. rewrite H, app_assoc. reflexivity. Qed.

Lemma after_typing_begins pre e index :
  preserves (begins pre) (after_typing e index).
Proof.
  pose (phone_number := @nil char).
  assert (Hemit : forall ev, may_emit e phone_number ev -> preserves (begins pre) (ui_emit ev)).
  { intros ev _ s H. apply begins_more. exact H. }
  assert (Hassign : forall text, preserves (begins pre) (assign_cookies index text)).
  { intros text s H. apply begins_more. exact H. }
  assert (Hstore : preserves (begins pre) store_file).
  { intros s [post H]. exists post. exact H. }
  unfold after_typing, ui_sleep.
  repeat first
    [ apply Hemit; exact I
    | apply (inv_do _ e phone_number Hemit); first [exact I | reflexivity]
    | apply (inv_shot _ e phone_number Hemit)
    | apply (inv_probes _ e phone_number Hemit)
    | apply (inv_retrieve _ e phone_number Hemit)
    | apply (inv_save _ e phone_number index Hemit Hassign Hstore)
    | preserves_step ].
Qed.

Lemma bind_do {A} ev b (k : unit -> LM A) s :
  bind (ui_do ev b) k s
  = if b then k tt (logged s [ev b]) else (Raise, logged s [ev b]).
Proof. unfold ui_do, bind, ui_emit, guard, ret, py_raise, logged. destruct b; reflexivity. Qed.

(** Once the phone field is found and cleared, the number is typed. *)
Lemma phone_and_otp_types e phone_number index s :
  phone_found e = true -> phone_clear_ok e = true ->
  begins (l_log s ++ [UiWaitPhone true; UiClearPhone true;
                      UiTypePhone (format_phone phone_number) (phone_type_ok e)])
         (snd (phone_and_otp e phone_number index s)).
Proof.
  intros Hf Hc. rewrite phone_and_otp_split, Hf, Hc.
  rewrite !bind_do. cbv iota. rewrite !logged_logged. cbn [app].
  destruct (phone_type_ok e).
  - apply (after_typing_begins _ e index). exists []. cbn. rewrite app_nil_r. reflexivity.
  - exists []. cbn. rewrite app_nil_r. reflexivity.
Qed.

(** Lines 283-311: the way to the login form, before [k]. *)
Definition approach {A} (e : login_env) (index : nat) (k : LM A) : LM A :=
  reached <- navigate (nav1 e) ;;
  when (negb reached)
       (reached <- navigate (nav2 e) ;;
        when (negb reached)
             (save_screenshot e (shot_name "error_navigation" index) ;; py_return false)) ;;
  try_except (ui_do UiClickLogin (login_click_ok e) ;; ui_sleep 5) (ret tt) ;;
  k.

Lemma login_approach e phone_number index :
  login_to_ozon e phone_number index =
  try_except
    (approach e index
       (try_except (phone_and_otp e phone_number index)
          (save_screenshot e (shot_name "error_login_process" index) ;; py_return false)))
    (save_screenshot e (shot_name "error_general" index) ;; py_return false).
Proof. reflexivity. Qed.

(** When Ozon is reached, the login gets to the login form. *)
Lemma approach_reached {A} e index (k : LM A) df file :
  nav1 e = Some true \/ (nav1 e = Some false /\ nav2 e = Some true) ->
  exists pre, approach e index k (mk_login_state df file [])
              = k (mk_login_state df file pre).
Proof.
  intros Hnav. unfold approach, navigate, ui_sleep, ui_do.
  unfold try_except, bind, ui_emit, guard, value, when, ret, py_raise.
  destruct Hnav as [H1 | [H1 H2]]; rewrite H1; cbn; [|rewrite H2; cbn];
    destruct (login_click_ok e); cbn; eexists; reflexivity.
Qed.

(** Reaching Ozon, finding the phone field and clearing it is followed by
    the typing of the formatted number. *)
Lemma login_types_number e phone_number index df file :
  nav1 e = Some true \/ (nav1 e = Some false /\ nav2 e = Some true) ->
  phone_found e = true -> phone_clear_ok e = true ->
  exists pre post,
    l_log (snd (login_to_ozon e phone_number index (mk_login_state df file [])))
    = pre ++ [UiWaitPhone true; UiClearPhone true;
              UiTypePhone (format_phone phone_number) (phone_type_ok e)] ++ post.
Proof.
  intros Hnav Hf Hc. rewrite login_approach.
  destruct (approach_reached e index
              (try_except (phone_and_otp e phone_number index)
                 (save_screenshot e (shot_name "error_login_process" index) ;;
                  py_return false)) df file Hnav) as [pre Hpre].
  unfold try_except at 1. rewrite Hpre.
  pose proof (phone_and_otp_types e phone_number index (mk_login_state df file pre) Hf Hc)
    as [post Hp].
  cbn [l_log] in Hp. exists pre.
  unfold try_except.
  destruct (phone_and_otp e phone_number index (mk_login_state df file pre))
    as [[[]|b|] s2]; cbn [snd] in Hp.
  - exists post. cbn [snd]. rewrite Hp, <- app_assoc. reflexivity.
  - exists post. cbn [snd]. rewrite Hp, <- app_assoc. reflexivity.
  - unfold save_screenshot, bind, ui_emit, py_return, py_raise, ret.
    destruct (shot e (shot_name "error_login_process" index)); cbn -[shot_name];
      try (eexists; rewrite Hp, <- !app_assoc; reflexivity).
    destruct (shot e (shot_name "error_general" index)); cbn -[shot_name];
      eexists; rewrite Hp, <- !app_assoc; reflexivity.
Qed.

End LoginFacts.

(* ------------------------------------------------------------------ *)
(** ** The login flow: phone entry and the OTP wait *)

Section LoginClaims.

Context {U : Unicode} {XL : Excel}.

(** C4. The number typed into the phone field is the normalized one:
    [89991234567] becomes [+79991234567], a number that starts with [+] is
    left as it is, a number that starts with 8 or 9 becomes [+7] followed by
    its last ten characters, and every [send_keys] of a number in a login
    sends [format_phone phone_number].  The number is typed: a login that
    reaches Ozon, finds the phone field and clears it calls [send_keys] with
    [format_phone phone_number] next. *)
Theorem C4_phone_is_normalized (e : login_env) (phone_number : pystr) (index : nat)
    (df : frame) (file : option frame) :
  format_phone (u "89991234567") = u "+79991234567"
  /\ format_phone (u "+79991234567") = u "+79991234567"
  /\ (startswith (u "+") phone_number = true -> format_phone phone_number = phone_number)
  /\ (startswith (u "+") phone_number = false ->
      startswith (u "9") phone_number || startswith (u "8") phone_number = true ->
      format_phone phone_number = u "+7" ++ last_chars 10 phone_number)
  /\ Forall (types_phone (format_phone phone_number))
            (l_log (snd (login_to_ozon e phone_number index (mk_login_state df file []))))
  /\ (nav1 e = Some true \/ (nav1 e = Some false /\ nav2 e = Some true) ->
      phone_found e = true -> phone_clear_ok e = true ->
      exists pre post,
        l_log (snd (login_to_ozon e phone_number index (mk_login_state df file [])))
        = pre ++ [UiWaitPhone true; UiClearPhone true;
                  UiTypePhone (format_phone phone_number) (phone_type_ok e)] ++ post).
Proof.
  split; [reflexivity|]. split; [reflexivity|]. split; [|split; [|split]].
  - intros H. unfold format_phone. rewrite H. reflexivity.
  - intros H1 H2. unfold format_phone. rewrite H1, H2. reflexivity.
  - pose proof (login_types_phone e phone_number index (mk_login_state df file [])) as H.
    unfold log_all in H. apply H. constructor.
  - apply login_types_number.
Qed.


End LoginClaims.

(* ------------------------------------------------------------------ *)
(** ** Facts about sessions and artifacts *)

Lemma resources_snoc log en :
  resources (log ++ [en]) = resources_step (resources log) en.
Proof. unfold resources. rewrite fold_left_app. reflexivity. Qed.

Lemma resources_app log evs :
  resources (log ++ evs) = fold_left resources_step evs (resources log).
Proof. unfold resources. apply fold_left_app. Qed.

(** An event that neither makes nor ends a session or an artifact. *)
Definition neutral (ev : run_event) : Prop :=
  match ev with
  | RunCreate _ | RunLaunch _ | RunRemove _ true | RunQuit _ true => False
  | _ => True
  end.

Lemma neutral_step st en : neutral (snd en) -> resources_step st en = st.
Proof.
  destruct en as [tag ev]. unfold resources_step. cbn [snd].
  destruct ev as [|b [|]|p [|]|p|b|b ok|ev|b ok|]; cbn; intros H;
    try contradiction; reflexivity.
Qed.

Lemma neutral_steps evs : forall st,
  Forall (fun en => neutral (snd en)) evs -> fold_left resources_step evs st = st.
Proof.
  induction evs as [|en evs IH]; intros st H; [reflexivity|].
  inversion H; subst. cbn [fold_left]. rewrite neutral_step by assumption.
  apply IH. assumption.
Qed.

(** At most one artifact on disk and at most one live session. *)
Definition at_most_one (st : list path * list session) : Prop :=
  length (fst st) <= 1 /\ length (snd st) <= 1.

(** ... after every prefix of the log. *)
Definition bounded (log : list entry) : Prop :=
  forall n, at_most_one (resources (firstn n log)).

Lemma bounded_nil : bounded [].
Proof. intros n. rewrite firstn_nil. split; cbn; lia. Qed.

Lemma bounded_now log : bounded log -> at_most_one (resources log).
Proof. intros H. specialize (H (length log)). rewrite firstn_all in H. exact H. Qed.

Lemma bounded_snoc log en :
  bounded log -> at_most_one (resources (log ++ [en])) -> bounded (log ++ [en]).
Proof.
  intros Hb Hnew n. rewrite firstn_app.
  destruct (Nat.le_gt_cases n (length log)) as [Hle|Hgt].
  - replace (n - length log) with 0 by lia. cbn [firstn]. rewrite app_nil_r. apply Hb.
  - rewrite firstn_all2 by lia.
    destruct (n - length log) as [|k] eqn:E; [lia|].
    cbn [firstn]. rewrite firstn_nil. exact Hnew.
Qed.

Lemma bounded_neutral log evs :
  bounded log -> Forall (fun en => neutral (snd en)) evs -> bounded (log ++ evs).
Proof.
  intros Hb Hn n. rewrite firstn_app.
  destruct (Nat.le_gt_cases n (length log)) as [Hle|Hgt].
  - replace (n - length log) with 0 by lia. cbn [firstn]. rewrite app_nil_r. apply Hb.
  - rewrite firstn_all2 by lia. rewrite resources_app.
    rewrite neutral_steps.
    + apply bounded_now. exact Hb.
    + rewrite <- (firstn_skipn (n - length log) evs) in Hn.
      apply Forall_app in Hn. destruct Hn as [Hn _]. exact Hn.
Qed.

Lemma remove_nat_self x : remove_nat x [x] = [].
Proof. cbn. rewrite Nat.eqb_refl. reflexivity. Qed.

Lemma exists_add_nat x l : existsb (Nat.eqb x) (add_nat x l) = true.
Proof.
  unfold add_nat. destruct (existsb (Nat.eqb x) l) eqn:E; [exact E|].
  rewrite existsb_app. cbn. rewrite Nat.eqb_refl. apply orb_true_r.
Qed.

(** The variable [o] of [main] knows everything in [l]: [l] is empty, or its
    one element is the value of [o]. *)
Definition held (l : list nat) (o : option nat) : Prop :=
  l = [] \/ exists x, o = Some x /\ l = [x].

Lemma held_length l o : held l o -> length l <= 1.
Proof. intros [-> | [x [_ ->]]]; cbn; lia. Qed.

Lemma held_remove l x : held l (Some x) -> remove_nat x l = [].
Proof.
  intros [-> | [y [Hy ->]]]; [reflexivity|]. inversion Hy; subst. apply remove_nat_self.
Qed.

(** The state of the batch is tidy: the log was bounded all along, and the
    two variables of [main] know what is still there. *)
Definition tidy (browser : option session) (plugin_path : option path) (s : run_state)
  : Prop :=
  bounded (r_log s)
  /\ held (artifacts (r_log s)) plugin_path
  /\ held (live_sessions (r_log s)) browser.

Lemma resources_quit log tag b :
  resources (log ++ [(tag, RunQuit b true)])
  = (artifacts log, remove_nat b (live_sessions log)).
Proof. rewrite resources_snoc. reflexivity. Qed.

Lemma resources_remove log tag p :
  resources (log ++ [(tag, RunRemove p true)])
  = (remove_nat p (artifacts log), live_sessions log).
Proof. rewrite resources_snoc. reflexivity. Qed.

Lemma resources_create log tag p :
  resources (log ++ [(tag, RunCreate p)]) = (add_nat p (artifacts log), live_sessions log).
Proof. rewrite resources_snoc. reflexivity. Qed.

Lemma resources_launch log tag b :
  resources (log ++ [(tag, RunLaunch b)]) = (artifacts log, add_nat b (live_sessions log)).
Proof. rewrite resources_snoc. reflexivity. Qed.

Lemma resources_neutral log tag ev :
  neutral ev -> resources (log ++ [(tag, ev)]) = resources log.
Proof. intros H. rewrite resources_snoc. apply neutral_step. exact H. Qed.

Lemma resources_pair log : resources log = (artifacts log, live_sessions log).
Proof. unfold artifacts, live_sessions. destruct (resources log); reflexivity. Qed.

(** The session is quit if there is one: lines 473-477 and 522-526 when
    [quit] succeeds. *)
Lemma quit_step {R} tag browser s :
  bounded (r_log s) -> held (live_sessions (r_log s)) browser ->
  exists evs,
    @quit_if_open R tag browser true s
    = (Normal tt, mk_run_state (r_df s) (r_file s) (r_log s ++ evs))
    /\ bounded (r_log s ++ evs)
    /\ artifacts (r_log s ++ evs) = artifacts (r_log s)
    /\ live_sessions (r_log s ++ evs) = [].
Proof.
  intros Hb Hl. unfold quit_if_open. destruct browser as [b|].
  - exists [(tag, RunQuit b true)].
    assert (Hr : resources (r_log s ++ [(tag, RunQuit b true)]) = (artifacts (r_log s), [])).
    { rewrite resources_quit, (held_remove _ _ Hl). reflexivity. }
    split; [reflexivity|]. split; [|split].
    + apply bounded_snoc; [exact Hb|]. rewrite Hr. split; cbn; [|lia].
      apply (proj1 (bounded_now _ Hb)).
    + unfold artifacts at 1. rewrite Hr. reflexivity.
    + unfold live_sessions. rewrite Hr. reflexivity.
  - exists []. rewrite app_nil_r. split; [destruct s; reflexivity|].
    split; [exact Hb|]. split; [reflexivity|].
    destruct Hl as [H | [x [H _]]]; [exact H | discriminate].
Qed.

(** The artifact is removed if the variable names one that is on disk:
    lines 479-483 and 528-532 when [os.remove] succeeds. *)
Lemma remove_step {R} tag plugin_path s :
  bounded (r_log s) -> held (artifacts (r_log s)) plugin_path ->
  exists evs,
    @remove_if_there R tag plugin_path true s
    = (Normal tt, mk_run_state (r_df s) (r_file s) (r_log s ++ evs))
    /\ bounded (r_log s ++ evs)
    /\ artifacts (r_log s ++ evs) = []
    /\ live_sessions (r_log s ++ evs) = live_sessions (r_log s).
Proof.
  intros Hb Ha. unfold remove_if_there. destruct plugin_path as [p|].
  - unfold bind, path_exists. destruct Ha as [Ha | [x [Hx Ha]]].
    + exists []. rewrite Ha, app_nil_r. cbn. split; [destruct s; reflexivity|].
      split; [exact Hb|]. split; [exact Ha | reflexivity].
    + inversion Hx; subst x. rewrite Ha. cbn [existsb]. rewrite Nat.eqb_refl. cbn [orb when].
      exists [(tag, RunRemove p true)].
      assert (Hr : resources (r_log s ++ [(tag, RunRemove p true)])
                   = ([], live_sessions (r_log s))).
      { rewrite resources_remove, Ha, remove_nat_self. reflexivity. }
      split; [reflexivity|]. split; [|split].
      * apply bounded_snoc; [exact Hb|]. rewrite Hr. split; cbn; [lia|].
        apply (proj2 (bounded_now _ Hb)).
      * unfold artifacts. rewrite Hr. reflexivity.
      * unfold live_sessions at 1. rewrite Hr. reflexivity.
  - exists []. rewrite app_nil_r. split; [destruct s; reflexivity|].
    split; [exact Hb|]. split; [|reflexivity].
    destruct Ha as [H | [x [H _]]]; [exact H | discriminate].
Qed.

(** When both cleanup calls succeed, [teardown] leaves nothing behind. *)
Lemma teardown_tidy {R} tag browser plugin_path s :
  tidy browser plugin_path s ->
  exists evs,
    @teardown R tag browser plugin_path true true s
    = (Normal tt, mk_run_state (r_df s) (r_file s) (r_log s ++ evs))
    /\ bounded (r_log s ++ evs)
    /\ resources (r_log s ++ evs) = ([], []).
Proof.
  intros [Hb [Ha Hl]]. unfold teardown. unfold bind at 1.
  destruct (@quit_step R tag browser s Hb Hl) as [evs1 [E1 [Hb1 [Ha1 Hl1]]]].
  rewrite E1.
  set (s1 := mk_run_state (r_df s) (r_file s) (r_log s ++ evs1)).
  assert (Ha' : held (artifacts (r_log s1)) plugin_path) by (cbn; rewrite Ha1; exact Ha).
  destruct (@remove_step R tag plugin_path s1 Hb1 Ha') as [evs2 [E2 [Hb2 [Ha2 Hl2]]]].
  rewrite E2. cbn [r_df r_file r_log s1] in *.
  exists (evs1 ++ evs2). rewrite app_assoc. split; [reflexivity|].
  split; [exact Hb2|]. rewrite resources_pair, Ha2, Hl2, Hl1. reflexivity.
Qed.

(** What [setup_browser_with_proxy] returns and logs, case by case, when the
    next session to be launched is [b]. *)
Definition setup_outcome (tag : option nat) (e : setup_env) (b : session)
  : setup_result * list entry :=
  let p := stamp e in
  if zip_open_ok e then
    if zip_write_ok e then
      if add_extension_ok e && driver_ok e && launch_ok e then
        if cdp_ok e then
          ((Some b, Some p), [(tag, RunCreate p); (tag, RunLaunch b)])
        else
          ((None, Some p),
           [(tag, RunCreate p); (tag, RunLaunch b); (tag, RunRemove p (cleanup_ok e))])
      else ((None, Some p), [(tag, RunCreate p); (tag, RunRemove p (cleanup_ok e))])
    else ((None, None), [(tag, RunCreate p)])
  else ((None, None), []).

Lemma exists_after_create log tag p :
  existsb (Nat.eqb p) (artifacts (log ++ [(tag, RunCreate p)])) = true.
Proof.
  unfold artifacts. rewrite resources_create. cbn [fst]. apply exists_add_nat.
Qed.

Lemma exists_after_launch log tag p b :
  existsb (Nat.eqb p) (artifacts ((log ++ [(tag, RunCreate p)]) ++ [(tag, RunLaunch b)])) = true.
Proof.
  unfold artifacts. rewrite resources_launch. cbn [fst]. apply exists_after_create.
Qed.

Lemma launches_create log tag p : launches (log ++ [(tag, RunCreate p)]) = launches log.
Proof. unfold launches. rewrite filter_app. cbn. rewrite app_nil_r. reflexivity. Qed.

(** The factory always returns: no exception leaves it. *)
Lemma setup_run tag e s :
  setup_browser_with_proxy tag e s =
  (Return (fst (setup_outcome tag e (launches (r_log s)))),
   mk_run_state (r_df s) (r_file s)
                (r_log s ++ snd (setup_outcome tag e (launches (r_log s))))).
Proof.
  unfold setup_browser_with_proxy, setup_outcome, create_proxy_auth_extension,
    setup_handler, remove_if_there, remove_path, path_exists.
  unfold try_except, bind, run_emit, guard, when, ret, py_return, py_raise.
  destruct (zip_open_ok e); cbn -[launches artifacts].
  2:{ rewrite app_nil_r. destruct s; reflexivity. }
  destruct (zip_write_ok e); cbn -[launches artifacts]; [|reflexivity].
  destruct (add_extension_ok e); cbn -[launches artifacts].
  2:{ rewrite exists_after_create. cbn -[launches artifacts].
      destruct (cleanup_ok e); cbn -[launches artifacts]; rewrite <- app_assoc; reflexivity. }
  destruct (driver_ok e); cbn -[launches artifacts].
  2:{ rewrite exists_after_create. cbn -[launches artifacts].
      destruct (cleanup_ok e); cbn -[launches artifacts]; rewrite <- app_assoc; reflexivity. }
  destruct (launch_ok e); cbn -[launches artifacts].
  2:{ rewrite exists_after_create. cbn -[launches artifacts].
      destruct (cleanup_ok e); cbn -[launches artifacts]; rewrite <- app_assoc; reflexivity. }
  rewrite launches_create.
  destruct (cdp_ok e); cbn -[launches artifacts].
  - rewrite <- app_assoc. reflexivity.
  - rewrite exists_after_launch. cbn -[launches artifacts].
    destruct (cleanup_ok e); cbn -[launches artifacts]; rewrite <- !app_assoc; reflexivity.
Qed.

(* ------------------------------------------------------------------ *)
(** ** Facts about the batch *)

Section BatchFacts.

Context {U : Unicode} {XL : Excel}.

(** The iteration's cleanup calls succeed, and the construction of its
    session does not fail between the creation of the artifact file and the
    return of its path, nor after the launch of the browser. *)
Definition clean (e : account_env) : bool :=
  quit_previous_ok e && remove_previous_ok e
  && implb (zip_open_ok (setup e)) (zip_write_ok (setup e))
  && implb (add_extension_ok (setup e) && driver_ok (setup e) && launch_ok (setup e))
           (cdp_ok (setup e)).

Lemma run_login_run index e phone_number s :
  exists evs,
    r_log (snd (run_login index e phone_number s))
    = r_log s ++ map (fun ev => (Some index, RunUi ev)) evs
    /\ (fst (run_login index e phone_number s) = Raise
        \/ exists v, fst (run_login index e phone_number s) = Normal v).
Proof.
  unfold run_login.
  destruct (login_to_ozon e phone_number index (mk_login_state (r_df s) (r_file s) []))
    as [[[]|b|] ls]; cbn; eexists; (split; [reflexivity|]); eauto.
Qed.

Lemma neutral_ui index evs :
  Forall (fun en : entry => neutral (snd en)) (map (fun ev => (Some index, RunUi ev)) evs).
Proof. apply Forall_forall. intros x Hx. apply in_map_iff in Hx. destruct Hx as [ev [<- _]]. exact I. Qed.

Lemma tidy_neutral browser plugin_path df file df' file' log evs :
  tidy browser plugin_path (mk_run_state df file log) ->
  Forall (fun en : entry => neutral (snd en)) evs ->
  tidy browser plugin_path (mk_run_state df' file' (log ++ evs)).
Proof.
  intros [Hb [Ha Hl]] Hn. unfold tidy. cbn [r_log] in *. split; [|split].
  - apply bounded_neutral; assumption.
  - unfold artifacts in *. rewrite resources_app, neutral_steps by exact Hn. exact Ha.
  - unfold live_sessions in *. rewrite resources_app, neutral_steps by exact Hn. exact Hl.
Qed.

Lemma tidy_emit browser plugin_path tag ev :
  neutral ev -> preserves (tidy browser plugin_path) (@run_emit unit tag ev).
Proof.
  intros Hn s H. destruct s as [df file log]. cbn.
  apply (tidy_neutral browser plugin_path df file df file log [(tag, ev)] H).
  constructor; [exact Hn | constructor].
Qed.

Lemma tidy_quit b plugin_path tag ok :
  preserves (tidy (Some b) plugin_path) (@quit_browser unit tag b ok).
Proof.
  unfold quit_browser. apply preserves_bind; [|intros _; apply preserves_guard].
  destruct ok; [|apply tidy_emit; exact I].
  intros s [Hb [Ha Hl]]. unfold tidy, run_emit. cbn [snd r_log].
  assert (Hr : resources (r_log s ++ [(tag, RunQuit b true)]) = (artifacts (r_log s), [])).
  { rewrite resources_quit, (held_remove _ _ Hl). reflexivity. }
  split; [|split].
  - apply bounded_snoc; [exact Hb|]. rewrite Hr. split; cbn; [|lia].
    apply (proj1 (bounded_now _ Hb)).
  - unfold artifacts at 1. rewrite Hr. exact Ha.
  - unfold live_sessions. rewrite Hr. left. reflexivity.
Qed.

Lemma tidy_login browser plugin_path index e phone_number :
  preserves (tidy browser plugin_path) (run_login index e phone_number).
Proof.
  intros s H. destruct (run_login_run index e phone_number s) as [evs [Hlog _]].
  destruct (snd (run_login index e phone_number s)) as [df' file' log'] eqn:E.
  cbn [r_log] in Hlog. subst log'. destruct s as [df file log].
  apply (tidy_neutral browser plugin_path df file df' file' log _ H). apply neutral_ui.
Qed.

Lemma use_session_tidy env index row has_identity b plugin_path :
  preserves (tidy (Some b) plugin_path) (use_session env index row has_identity b).
Proof.
  unfold use_session.
  repeat first
    [ apply tidy_emit; exact I
    | apply tidy_quit
    | apply tidy_login
    | preserves_step ].
Qed.

(** [use_session] ends normally or by an exception; it has no [return]. *)
Lemma use_session_flow env index row has_identity b s :
  fst (use_session env index row has_identity b s) = Normal tt
  \/ fst (use_session env index row has_identity b s) = Raise.
Proof.
  unfold use_session, quit_browser, try_except, bind, run_emit, guard, ret, py_raise.
  cbn. destruct (verify_ok env); cbn.
  - destruct has_identity; cbn; [|left; reflexivity].
    destruct (run_login_run index (login env) (strip (phone row))
                (mk_run_state (r_df s) (r_file s)
                   (r_log s ++ [(Some index, RunVerify b true)]))) as [evs [_ Hf]].
    destruct (run_login index (login env) (strip (phone row)) _) as [[v|r|] s'];
      cbn in *.
    + destruct (delete_cookies_ok env); cbn; left; reflexivity.
    + destruct Hf as [Hf | [v Hf]]; discriminate.
    + left. reflexivity.
  - destruct (quit_unverified_ok env); cbn; [left | right]; reflexivity.
Qed.

(** From an empty disk and no live session, a construction that stays
    within [clean] leaves a tidy state: what it made is what it returns. *)
Lemma setup_tidy tag (e : account_env) df file log :
  clean e = true ->
  bounded log -> resources log = ([], []) ->
  let out := setup_outcome tag (setup e) (launches log) in
  tidy (fst (fst out)) (snd (fst out)) (mk_run_state df file (log ++ snd out)).
Proof.
  intros Hclean Hb Hr. unfold clean in Hclean.
  apply andb_true_iff in Hclean. destruct Hclean as [Hclean Hcdp].
  apply andb_true_iff in Hclean. destruct Hclean as [_ Hzip].
  unfold setup_outcome. unfold tidy. cbn [r_log].
  destruct (zip_open_ok (setup e)); cbn [implb] in Hzip.
  2:{ cbn [fst snd]. rewrite app_nil_r. unfold artifacts, live_sessions. rewrite Hr.
      split; [exact Hb|]. split; left; reflexivity. }
  rewrite Hzip.
  assert (Hc : resources (log ++ [(tag, RunCreate (stamp (setup e)))])
               = ([stamp (setup e)], [])).
  { rewrite resources_create. unfold artifacts, live_sessions. rewrite Hr. reflexivity. }
  assert (Hbc : bounded (log ++ [(tag, RunCreate (stamp (setup e)))])).
  { apply bounded_snoc; [exact Hb|]. rewrite Hc. split; cbn; lia. }
  destruct (add_extension_ok (setup e) && driver_ok (setup e) && launch_ok (setup e));
    cbn [implb] in Hcdp.
  - rewrite Hcdp. cbn [fst snd].
    change (log ++ [(tag, RunCreate (stamp (setup e))); (tag, RunLaunch (launches log))])
      with (log ++ [(tag, RunCreate (stamp (setup e)))] ++ [(tag, RunLaunch (launches log))]).
    rewrite app_assoc.
    assert (Hl : resources ((log ++ [(tag, RunCreate (stamp (setup e)))])
                            ++ [(tag, RunLaunch (launches log))])
                 = ([stamp (setup e)], [launches log])).
    { rewrite resources_launch. unfold artifacts, live_sessions. rewrite Hc. reflexivity. }
    split; [|split].
    + apply bounded_snoc; [exact Hbc|]. rewrite Hl. split; cbn; lia.
    + unfold artifacts. rewrite Hl. right. eexists. split; reflexivity.
    + unfold live_sessions. rewrite Hl. right. eexists. split; reflexivity.
  - cbn [fst snd].
    change (log ++ [(tag, RunCreate (stamp (setup e)));
                    (tag, RunRemove (stamp (setup e)) (cleanup_ok (setup e)))])
      with (log ++ [(tag, RunCreate (stamp (setup e)))]
                ++ [(tag, RunRemove (stamp (setup e)) (cleanup_ok (setup e)))]).
    rewrite app_assoc.
    destruct (cleanup_ok (setup e)).
    + assert (Hl : resources ((log ++ [(tag, RunCreate (stamp (setup e)))])
                              ++ [(tag, RunRemove (stamp (setup e)) true)])
                   = ([], [])).
      { rewrite resources_remove. unfold artifacts, live_sessions. rewrite Hc.
        cbn [fst snd]. rewrite remove_nat_self. reflexivity. }
      split; [|split].
      * apply bounded_snoc; [exact Hbc|]. rewrite Hl. split; cbn; lia.
      * unfold artifacts. rewrite Hl. left. reflexivity.
      * unfold live_sessions. rewrite Hl. left. reflexivity.
    + assert (Hl : resources ((log ++ [(tag, RunCreate (stamp (setup e)))])
                              ++ [(tag, RunRemove (stamp (setup e)) false)])
                   = ([stamp (setup e)], [])).
      { rewrite resources_neutral by exact I. exact Hc. }
      split; [|split].
      * apply bounded_snoc; [exact Hbc|]. rewrite Hl. split; cbn; lia.
      * unfold artifacts. rewrite Hl. right. eexists. split; reflexivity.
      * unfold live_sessions. rewrite Hl. left. reflexivity.
Qed.

(** One iteration keeps the state tidy; if it raises, the log was bounded
    up to there. *)
Lemma iteration_tidy env index row has_identity browser plugin_path s :
  clean env = true ->
  tidy browser plugin_path s ->
  match iteration env index row has_identity browser plugin_path s with
  | (Normal made, s') => tidy (fst made) (snd made) s'
  | (Return _, _) => False
  | (Raise, s') => bounded (r_log s')
  end.
Proof.
  intros Hclean Htidy. unfold iteration.
  destruct (done (cookies row)).
  - pose proof (tidy_emit browser plugin_path (Some index) RunSkip I s Htidy) as H.
    unfold bind, run_emit, ret in *. cbn in *. exact H.
  - assert (Hq : quit_previous_ok env = true /\ remove_previous_ok env = true).
    { unfold clean in Hclean. apply andb_true_iff in Hclean. destruct Hclean as [Hc _].
      apply andb_true_iff in Hc. destruct Hc as [Hc _].
      apply andb_true_iff in Hc. exact Hc. }
    destruct Hq as [-> ->].
    unfold bind at 1.
    destruct (@teardown_tidy unit (Some index) browser plugin_path s Htidy)
      as [evs [E [Hb Hr]]].
    rewrite E. unfold bind at 1. unfold invoke. rewrite setup_run. cbn [r_df r_file r_log].
    pose proof (setup_tidy (Some index) env (r_df s) (r_file s) (r_log s ++ evs)
                  Hclean Hb Hr) as Hs.
    cbv zeta in Hs.
    set (out := setup_outcome (Some index) (setup env) (launches (r_log s ++ evs))) in *.
    destruct (fst (fst out)) as [b|] eqn:Eb; [|unfold ret; rewrite Eb; exact Hs].
    unfold bind.
    pose proof (use_session_tidy env index row has_identity b (snd (fst out)) _ Hs) as Hu.
    destruct (use_session_flow env index row has_identity b
                (mk_run_state (r_df s) (r_file s) ((r_log s ++ evs) ++ snd out))) as [Hf|Hf];
      destruct (use_session env index row has_identity b _) as [[[]|r|] s'];
      cbn [fst snd] in *; try discriminate.
    + unfold ret. rewrite Eb. exact Hu.
    + exact (proj1 Hu).
Qed.

Lemma main_loop_tidy env has_identity items : forall browser plugin_path s,
  (forall i, clean (per_account env i) = true) ->
  tidy browser plugin_path s ->
  match main_loop env has_identity items browser plugin_path s with
  | (Normal last, s') => tidy (fst last) (snd last) s'
  | (Return _, _) => False
  | (Raise, s') => bounded (r_log s')
  end.
Proof.
  induction items as [|[index row] items IH]; intros browser plugin_path s Hclean Htidy.
  - exact Htidy.
  - cbn [main_loop]. unfold bind at 1.
    pose proof (iteration_tidy (per_account env index) index row has_identity
                  browser plugin_path s (Hclean index) Htidy) as Hi.
    destruct (iteration (per_account env index) index row has_identity browser plugin_path s)
      as [[made|r|] s1]; [|exact Hi|exact Hi].
    apply IH; assumption.
Qed.

(** Nothing on disk, no live session, and it was so all along. *)
Definition empty_handed (s : run_state) : Prop :=
  bounded (r_log s) /\ resources (r_log s) = ([], []).

Lemma load_empty_handed env source :
  preserves empty_handed (load_store env source).
Proof.
  assert (Hw : forall ok df, preserves empty_handed (write_target ok df)).
  { intros ok df. unfold write_target. apply preserves_bind; [apply preserves_guard|].
    intros _ s [Hb Hr]. unfold empty_handed. cbn [snd r_log]. split.
    - apply bounded_neutral; [exact Hb|]. constructor; [exact I | constructor].
    - rewrite resources_neutral by exact I. exact Hr. }
  unfold load_store.
  repeat first [ apply Hw | preserves_step | (intros s H; exact H) ].
Qed.

(** A whole run within [clean] whose final cleanup calls succeed. *)
Lemma main_tidy env source s :
  (forall i, clean (per_account env i) = true) ->
  final_quit_ok env = true -> final_remove_ok env = true ->
  empty_handed s ->
  exists f s',
    main env source s = (f, s')
    /\ bounded (r_log s')
    /\ (f <> Raise -> resources (r_log s') = ([], [])).
Proof.
  intros Hclean Hq Hr H0. unfold main. unfold bind at 1. unfold try_except.
  pose proof (load_empty_handed env source s H0) as H1.
  destruct (load_store env source s) as [[[]|r|] s1]; cbn [snd] in H1.
  - unfold bind at 1. unfold bind at 1.
    assert (Ht : tidy None None s1).
    { destruct H1 as [Hb Hres]. split; [exact Hb|].
      unfold artifacts, live_sessions. rewrite Hres. split; left; reflexivity. }
    pose proof (main_loop_tidy env (identity_columns (r_df s1)) (iterrows (r_df s1))
                  None None s1 Hclean Ht) as Hl.
    destruct (main_loop env (identity_columns (r_df s1)) (iterrows (r_df s1)) None None s1)
      as [[last|r|] s2]; [|contradiction|].
    + rewrite Hq, Hr.
      destruct (@teardown_tidy unit None (fst last) (snd last) s2 Hl) as [evs [E [Hb Hres]]].
      rewrite E. eexists _, _. split; [reflexivity|].
      split; [exact Hb | intros _; exact Hres].
    + eexists _, _. split; [reflexivity|]. split; [exact Hl | intros H; contradiction].
  - eexists _, _. split; [reflexivity|]. destruct H1 as [Hb Hres].
    split; [exact Hb | intros _; exact Hres].
  - unfold py_return. eexists _, _. split; [reflexivity|]. destruct H1 as [Hb Hres].
    split; [exact Hb | intros _; exact Hres].
Qed.

(** Row [i] of the frame is [row], and the frame has a [Cookies] column. *)
Definition kept_frame (i : nat) (row : account) (f : frame) : Prop :=
  cookies_column f = true /\ nth_error (rows f) i = Some row.

(** Row [i] is [row] in memory and in the file. *)
Definition kept_login (i : nat) (row : account) (ls : login_state) : Prop :=
  kept_frame i row (l_df ls) /\ exists f, l_file ls = Some f /\ kept_frame i row f.

(** Row [i] is [row] in memory and in the file, and the only thing the
    iteration for index [i] has logged is that it skipped the account. *)
Definition kept (i : nat) (row : account) (s : run_state) : Prop :=
  kept_frame i row (r_df s)
  /\ (exists f, r_file s = Some f /\ kept_frame i row f)
  /\ Forall (fun en : entry => fst en = Some i -> snd en = RunSkip) (r_log s).

Lemma update_row_other j g l : forall i, i <> j -> nth_error (update_row j g l) i = nth_error l i.
Proof.
  revert j. induction l as [|r l IH]; intros j i Hne; [destruct j; reflexivity|].
  destruct j as [|j]; destruct i as [|i]; cbn; try reflexivity; try lia.
  apply IH. lia.
Qed.

Lemma excel_as_read row : as_read (cookies row) -> with_cookies (excel_cell (cookies row)) row = row.
Proof.
  unfold as_read. intros H. rewrite H. destruct row; reflexivity.
Qed.

Lemma kept_frame_set i row j text f :
  j <> i -> kept_frame i row f -> kept_frame i row (set_cookies j text f).
Proof.
  intros Hne [Hc Hr]. split; [exact Hc|]. cbn. rewrite update_row_other by auto. exact Hr.
Qed.

Lemma kept_frame_excel i row f :
  as_read (cookies row) -> kept_frame i row f -> kept_frame i row (excel_view f).
Proof.
  intros Hd [Hc Hr]. split; [exact Hc|]. cbn. rewrite nth_error_map, Hr. cbn.
  rewrite excel_as_read by exact Hd. reflexivity.
Qed.

Lemma login_keeps i row e phone_number j :
  j <> i -> as_read (cookies row) ->
  preserves (kept_login i row) (login_to_ozon e phone_number j).
Proof.
  intros Hne Hd. apply login_invariant.
  - intros ev _ s H. exact H.
  - intros text s [Hdf Hf]. split; [|exact Hf]. cbn. apply kept_frame_set; assumption.
  - intros s [Hdf Hf]. split; [exact Hdf|]. cbn. eexists. split; [reflexivity|].
    apply kept_frame_excel; assumption.
Qed.

Lemma kept_append i row df file log df' file' evs :
  kept i row (mk_run_state df file log) ->
  kept_frame i row df' -> (exists f, file' = Some f /\ kept_frame i row f) ->
  Forall (fun en : entry => fst en = Some i -> snd en = RunSkip) evs ->
  kept i row (mk_run_state df' file' (log ++ evs)).
Proof.
  intros [_ [_ Hl]] Hdf Hf Hev. split; [exact Hdf|]. split; [exact Hf|].
  cbn [r_log] in *. apply Forall_app. split; assumption.
Qed.

Lemma kept_emit i row tag ev :
  (tag = Some i -> ev = RunSkip) -> preserves (kept i row) (@run_emit unit tag ev).
Proof.
  intros Hev s H. destruct s as [df file log]. cbn.
  destruct H as [Hdf [Hf Hl]].
  apply (kept_append i row df file log df file [(tag, ev)]); try assumption.
  - split; [exact Hdf|]. split; assumption.
  - constructor; [exact Hev | constructor].
Qed.

Lemma kept_login_run i row j e phone_number :
  j <> i -> as_read (cookies row) ->
  preserves (kept i row) (run_login j e phone_number).
Proof.
  intros Hne Hd s H. destruct s as [df file log]. destruct H as [Hdf [Hf Hl]].
  pose proof (login_keeps i row e phone_number j Hne Hd (mk_login_state df file [])
                (conj Hdf Hf)) as Hk.
  unfold run_login. cbn [r_df r_file r_log].
  destruct (login_to_ozon e phone_number j (mk_login_state df file [])) as [fl ls].
  cbn [fst snd] in *. destruct Hk as [Hdf' Hf'].
  assert (Hres : kept i row
            (mk_run_state (l_df ls) (l_file ls)
               (log ++ map (fun ev => (Some j, RunUi ev)) (l_log ls)))).
  { apply (kept_append i row df file log); try assumption.
    - split; [exact Hdf|]. split; assumption.
    - apply Forall_forall. intros x Hx. apply in_map_iff in Hx.
      destruct Hx as [ev [<- _]]. cbn. intros Heq. inversion Heq. contradiction. }
  destruct fl; exact Hres.
Qed.

Lemma setup_outcome_tags tag e b :
  Forall (fun en : entry => fst en = tag) (snd (setup_outcome tag e b)).
Proof.
  unfold setup_outcome.
  destruct (zip_open_ok e), (zip_write_ok e),
    (add_extension_ok e && driver_ok e && launch_ok e), (cdp_ok e);
    cbn; repeat constructor.
Qed.

Lemma kept_setup i row j e :
  j <> i -> preserves (kept i row) (setup_browser_with_proxy (Some j) e).
Proof.
  intros Hne s H. rewrite setup_run. cbn [snd]. destruct s as [df file log].
  destruct H as [Hdf [Hf Hl]]. cbn [r_df r_file r_log].
  apply (kept_append i row df file log); try assumption.
  - split; [exact Hdf|]. split; assumption.
  - eapply Forall_impl; [|apply setup_outcome_tags].
    intros en Hen Heq. cbn in Hen. rewrite Hen in Heq. inversion Heq. contradiction.
Qed.

Lemma kept_teardown i row tag browser plugin_path q r :
  tag <> Some i -> preserves (kept i row) (@teardown unit tag browser plugin_path q r).
Proof.
  intros Hne. unfold teardown, quit_if_open, remove_if_there, quit_browser, remove_path,
    path_exists.
  repeat first
    [ apply kept_emit; intros; contradiction
    | preserves_step
    | (intros s H; exact H) ].
Qed.

Lemma kept_use_session i row env j r has_identity b :
  j <> i -> as_read (cookies row) ->
  preserves (kept i row) (use_session env j r has_identity b).
Proof.
  intros Hne Hd. unfold use_session, quit_browser.
  assert (Htag : Some j <> Some i) by (intros H; inversion H; contradiction).
  repeat first
    [ apply kept_emit; intros; contradiction
    | apply kept_login_run; assumption
    | preserves_step ].
Qed.

Lemma kept_iteration i row env j r has_identity browser plugin_path :
  as_read (cookies row) ->
  (j = i -> done (cookies r) = true) ->
  preserves (kept i row) (iteration env j r has_identity browser plugin_path).
Proof.
  intros Hd Hj. unfold iteration.
  destruct (done (cookies r)) eqn:Er.
  - apply preserves_bind; [|intros _; apply preserves_ret].
    apply kept_emit. reflexivity.
  - assert (Hne : j <> i) by (intros H; specialize (Hj H); discriminate).
    assert (Htag : Some j <> Some i) by (intros H; inversion H; contradiction).
    repeat first
      [ apply kept_teardown; assumption
      | apply kept_setup; assumption
      | apply kept_use_session; assumption
      | preserves_step ].
Qed.

Lemma kept_main_loop i row env has_identity items : forall browser plugin_path,
  as_read (cookies row) ->
  (forall j r, In (j, r) items -> j = i -> done (cookies r) = true) ->
  preserves (kept i row) (main_loop env has_identity items browser plugin_path).
Proof.
  induction items as [|[j r] items IH]; intros browser plugin_path Hd Hitems.
  - apply preserves_ret.
  - cbn [main_loop]. apply preserves_bind.
    + apply kept_iteration; [exact Hd|]. intros Hj. apply (Hitems j r); [left; reflexivity|exact Hj].
    + intros now. apply IH; [exact Hd|]. intros j' r' Hin. apply Hitems. right. exact Hin.
Qed.

Lemma in_combine_seq (l : list account) : forall k j r,
  In (j, r) (combine (seq k (length l)) l) -> k <= j /\ nth_error l (j - k) = Some r.
Proof.
  induction l as [|x l IH]; intros k j r Hin; [contradiction|].
  cbn in Hin. destruct Hin as [Heq | Hin].
  - inversion Heq; subst. rewrite Nat.sub_diag. split; [lia | reflexivity].
  - apply IH in Hin. destruct Hin as [Hle Hn]. split; [lia|].
    replace (j - k) with (S (j - S k)) by lia. exact Hn.
Qed.

Lemma iterrows_row f i row j r :
  nth_error (rows f) i = Some row -> In (j, r) (iterrows f) -> j = i -> r = row.
Proof.
  intros Hrow Hin ->. unfold iterrows in Hin. apply in_combine_seq in Hin.
  destruct Hin as [_ Hn]. rewrite Nat.sub_0_r in Hn. congruence.
Qed.

(** Loading a target file that has its [Cookies] column reads it and writes
    nothing. *)
Lemma load_present env source f s :
  r_file s = Some f -> cookies_column f = true ->
  load_store env source s = (Normal tt, mk_run_state f (r_file s) (r_log s)).
Proof.
  intros Hf Hc. destruct s as [df file log]. cbn in Hf. subst file.
  unfold load_store, bind, ret. cbn. rewrite Hc. reflexivity.
Qed.

(** The record at index [i] comes out of a run of [main] as it went in, and
    the run did nothing for it but skip it. *)
Definition untouched (i : nat) (row : account) (r : bool * option frame * list entry)
  : Prop :=
  (forall en, In en (snd r) -> fst en = Some i -> snd en = RunSkip)
  /\ exists f, snd (fst r) = Some f /\ cookies_column f = true
               /\ nth_error (rows f) i = Some row.

Lemma main_untouched env source f i row :
  cookies_column f = true -> nth_error (rows f) i = Some row ->
  done (cookies row) = true -> as_read (cookies row) ->
  untouched i row (run_main env source (Some f)).
Proof.
  intros Hc Hrow Hd Hs. unfold run_main.
  set (s0 := mk_run_state (mk_frame false false []) (Some f) []).
  assert (Hk : kept i row (snd (main env source s0))).
  { unfold main. unfold bind at 1. unfold try_except.
    rewrite (load_present env source f s0 eq_refl Hc). cbn [r_file r_log s0].
    unfold bind at 1. cbn [r_df].
    apply preserves_bind.
    - apply kept_main_loop; [exact Hs|]. intros j r Hin Hj.
      rewrite (iterrows_row f i row j r Hrow Hin Hj). exact Hd.
    - intros last. apply kept_teardown. discriminate.
    - split; [split; assumption|]. split; [|constructor].
      exists f. split; [reflexivity|]. split; assumption. }
  destruct Hk as [_ [[f' [Hf' [Hc' Hr']]] Hlog]]. unfold untouched. cbn [fst snd]. split.
  - rewrite Forall_forall in Hlog. exact Hlog.
  - exists f'. auto.
Qed.

End BatchFacts.

(* ------------------------------------------------------------------ *)
(** ** The batch: skipping, the session factory, cleanup *)

Section BatchClaims.

Context {U : Unicode} {XL : Excel}.

(** C1. An iteration whose row already has cookies logs that it skips the
    account and does nothing else: the frame, the file, the session and the
    artifact are what they were, and the loop goes on with the next row.  In
    a run of [main] on a target file, and in a second run on the file the
    first one leaves, a record that has cookies in the file is not touched:
    its iteration only logs the skip, and the file still holds the record.
    The file is given as [read_excel] returns it, so the cookies of the
    record are a cell that is read as it was written. *)
Theorem C1_done_accounts_are_skipped :
  (forall (env : account_env) (index : nat) (row : account) (has_identity : bool)
          (browser : option session) (plugin_path : option path) (s : run_state),
      done (cookies row) = true ->
      iteration env index row has_identity browser plugin_path s
      = (Normal (browser, plugin_path),
         mk_run_state (r_df s) (r_file s) (r_log s ++ [(Some index, RunSkip)])))
  /\ (forall (env : batch_env) (source : option frame) (f : frame) (i : nat) (row : account),
      cookies_column f = true -> nth_error (rows f) i = Some row ->
      done (cookies row) = true -> as_read (cookies row) ->
      untouched i row (run_main env source (Some f)))
  /\ (forall (env1 env2 : batch_env) (source : option frame) (f : frame) (i : nat)
             (row : account),
      cookies_column f = true -> nth_error (rows f) i = Some row ->
      done (cookies row) = true -> as_read (cookies row) ->
      untouched i row (run_main env2 source (snd (fst (run_main env1 source (Some f)))))).
Proof.
  split; [|split].
  - intros env index row has_identity browser plugin_path s Hd.
    unfold iteration. rewrite Hd. reflexivity.
  - intros env source f i row Hc Hrow Hd Hs. apply main_untouched; assumption.
  - intros env1 env2 source f i row Hc Hrow Hd Hs.
    destruct (main_untouched env1 source f i row Hc Hrow Hd Hs) as [_ [f1 [Hf1 [Hc1 Hr1]]]].
    rewrite Hf1. apply main_untouched; assumption.
Qed.

(** C9, as the code has it. Before it builds the session of the next
    account the loop quits the session it has and removes the artifact it
    has, and after the loop it does so once more.  When these calls succeed
    and no construction fails between the creation of the artifact file and
    the return of its path, or after the launch of the browser, there is at
    every point of the run at most one artifact on disk and at most one live
    session, and a run that does not end by an exception leaves none. *)
Theorem C9_one_session_one_artifact (env : batch_env) (source target : option frame) :
  (forall i, clean (per_account env i) = true) ->
  final_quit_ok env = true ->
  final_remove_ok env = true ->
  bounded (snd (run_main env source target))
  /\ (fst (fst (run_main env source target)) = false ->
      artifacts (snd (run_main env source target)) = []
      /\ live_sessions (snd (run_main env source target)) = []).
Proof.
  intros Hclean Hq Hr. unfold run_main.
  destruct (main_tidy env source (mk_run_state (mk_frame false false []) target [])
              Hclean Hq Hr) as [f [s' [E [Hb Hres]]]].
  { split; [apply bounded_nil | reflexivity]. }
  rewrite E. cbn [fst snd]. split; [exact Hb|].
  intros Hf. unfold artifacts, live_sessions. rewrite Hres; [split; reflexivity|].
  intros ->. discriminate.
Qed.

(** The session factory never raises and never touches the store; when any
    step of the construction fails it returns no session. *)
Theorem setup_returns_no_session_on_error (tag : option nat) (e : setup_env) (s : run_state) :
  exists made s',
    setup_browser_with_proxy tag e s = (Return made, s')
    /\ r_df s' = r_df s /\ r_file s' = r_file s
    /\ (zip_open_ok e && zip_write_ok e && add_extension_ok e && driver_ok e
        && launch_ok e && cdp_ok e = false -> fst made = None).
Proof.
  rewrite setup_run. eexists _, _. split; [reflexivity|].
  split; [reflexivity|]. split; [reflexivity|].
  unfold setup_outcome.
  destruct (zip_open_ok e), (zip_write_ok e), (add_extension_ok e), (driver_ok e),
    (launch_ok e), (cdp_ok e); cbn; intros H; try reflexivity; discriminate.
Qed.

Lemma not_in_remove_nat x l : ~ In x (remove_nat x l).
Proof.
  induction l as [|y l IH]; cbn; [tauto|].
  destruct (Nat.eqb_spec x y); [exact IH|].
  cbn. intros [H|H]; [congruence | exact (IH H)].
Qed.

(** When the construction fails after [create_proxy_auth_extension] has
    returned the path, and [os.remove] succeeds, the artifact is gone when the
    factory returns. *)
Theorem setup_failure_removes_artifact (tag : option nat) (e : setup_env) (s : run_state) :
  zip_open_ok e = true -> zip_write_ok e = true ->
  add_extension_ok e && driver_ok e && launch_ok e && cdp_ok e = false ->
  cleanup_ok e = true ->
  fst (setup_browser_with_proxy tag e s) = Return (None, Some (stamp e))
  /\ ~ In (stamp e) (artifacts (r_log (snd (setup_browser_with_proxy tag e s)))).
Proof.
  intros Ho Hw Hfail Hc. rewrite setup_run. cbn [fst snd r_log].
  unfold setup_outcome. rewrite Ho, Hw, Hc.
  destruct (add_extension_ok e && driver_ok e && launch_ok e) eqn:E.
  - cbn [andb] in Hfail. rewrite Hfail. cbn [fst snd]. split; [reflexivity|].
    change (r_log s ++ [(tag, RunCreate (stamp e)); (tag, RunLaunch (launches (r_log s)));
                        (tag, RunRemove (stamp e) true)])
      with (r_log s ++ [(tag, RunCreate (stamp e)); (tag, RunLaunch (launches (r_log s)))]
                  ++ [(tag, RunRemove (stamp e) true)]).
    rewrite app_assoc. unfold artifacts at 1. rewrite resources_remove. cbn [fst].
    apply not_in_remove_nat.
  - cbn [fst snd]. split; [reflexivity|].
    change (r_log s ++ [(tag, RunCreate (stamp e)); (tag, RunRemove (stamp e) true)])
      with (r_log s ++ [(tag, RunCreate (stamp e))] ++ [(tag, RunRemove (stamp e) true)]).
    rewrite app_assoc. unfold artifacts at 1. rewrite resources_remove. cbn [fst].
    apply not_in_remove_nat.
Qed.

End BatchClaims.

(* ------------------------------------------------------------------ *)
(** ** A logic for the three ways a block ends *)

(** From a state with [P], the block [m] ends normally with a value [a] in a
    state with [N a], leaves the function with [return r] in a state with
    [X r], or raises in a state with [E]. *)
Definition triple {S R A} (P : S -> Prop) (m : M S R A)
    (N : A -> S -> Prop) (X : R -> S -> Prop) (E : S -> Prop) : Prop :=
  forall s, P s ->
    match m s with
    | (Normal a, s') => N a s'
    | (Return r, s') => X r s'
    | (Raise, s') => E s'
    end.

Lemma triple_ret {S R A} (P : S -> Prop) (a : A) N (X : R -> S -> Prop) E :
  (forall s, P s -> N a s) -> triple P (ret a) N X E.
Proof. intros H s Hs. apply H. exact Hs. Qed.

Lemma triple_return {S R A} (P : S -> Prop) (r : R) (N : A -> S -> Prop) X E :
  (forall s, P s -> X r s) -> triple P (py_return r) N X E.
Proof. intros H s Hs. apply H. exact Hs. Qed.

Lemma triple_raise {S R A} (P : S -> Prop) (N : A -> S -> Prop) (X : R -> S -> Prop) E :
  (forall s, P s -> E s) -> triple P py_raise N X E.
Proof. intros H s Hs. apply H. exact Hs. Qed.

Lemma triple_bind {S R A B} (P : S -> Prop) (m : M S R A) (k : A -> M S R B) N1 N X E :
  triple P m N1 X E -> (forall a, triple (N1 a) (k a) N X E) -> triple P (bind m k) N X E.
Proof.
  intros Hm Hk s Hs. unfold bind. specialize (Hm s Hs).
  destruct (m s) as [[a|r|] s']; [apply Hk; exact Hm | exact Hm | exact Hm].
Qed.

Lemma triple_try {S R A} (P : S -> Prop) (m h : M S R A) N X E1 E :
  triple P m N X E1 -> triple E1 h N X E -> triple P (try_except m h) N X E.
Proof.
  intros Hm Hh s Hs. unfold try_except. specialize (Hm s Hs).
  destruct (m s) as [[a|r|] s']; [exact Hm | exact Hm | apply Hh; exact Hm].
Qed.

Lemma triple_weaken {S R A} (P P' : S -> Prop) (m : M S R A) (N N' : A -> S -> Prop)
    (X X' : R -> S -> Prop) (E E' : S -> Prop) :
  triple P' m N' X' E' ->
  (forall s, P s -> P' s) -> (forall a s, N' a s -> N a s) ->
  (forall r s, X' r s -> X r s) -> (forall s, E' s -> E s) ->
  triple P m N X E.
Proof.
  intros H HP HN HX HE s Hs. specialize (H s (HP s Hs)).
  destruct (m s) as [[a|r|] s']; auto.
Qed.

Lemma triple_guard {S R} (P : S -> Prop) (b : bool) (N : unit -> S -> Prop) (X : R -> S -> Prop) E :
  (forall s, P s -> if b then N tt s else E s) -> triple P (guard b) N X E.
Proof. intros H s Hs. specialize (H s Hs). destruct b; exact H. Qed.

Lemma triple_value {S R A} (P : S -> Prop) (v : option A) N (X : R -> S -> Prop) E :
  (forall s, P s -> match v with Some a => N a s | None => E s end) ->
  triple P (value v) N X E.
Proof. intros H s Hs. specialize (H s Hs). destruct v; exact H. Qed.

Lemma triple_when {S R} (P : S -> Prop) (b : bool) (m : M S R unit) (N : unit -> S -> Prop) X E :
  triple P m N X E -> (forall s, P s -> N tt s) -> triple P (when b m) N X E.
Proof. intros Hm H. destruct b; [exact Hm | apply triple_ret; exact H]. Qed.

(** A block entered in no state at all. *)
Lemma triple_never {S R A} (m : M S R A) N X E : triple (fun _ => False) m N X E.
Proof. intros s []. Qed.

(** A fact that does not depend on the state. *)
Lemma triple_pure {S R A} (phi : Prop) (P : S -> Prop) (m : M S R A) N X E :
  (phi -> triple P m N X E) -> triple (fun s => phi /\ P s) m N X E.
Proof. intros H s [Hphi Hs]. apply H; assumption. Qed.

Lemma triple_invoke {S R R' A} (P : S -> Prop) (m : M S R' A) (d : R')
    (N : R' -> S -> Prop) (X : R -> S -> Prop) E :
  triple P m (fun _ => N d) N E -> triple P (invoke m d) N X E.
Proof.
  intros H s Hs. unfold invoke. specialize (H s Hs).
  destruct (m s) as [[a|r|] s']; exact H.
Qed.

(* ------------------------------------------------------------------ *)
(** ** The login flow, stage by stage *)

Section LoginLogic.

Context {U : Unicode} {XL : Excel}.

Variable e : login_env.
Variable phone_number : pystr.
Variable index : nat.

(** The answer of the mailbox to the one call of line 351. *)
Definition mail_answer : option pystr * list imap_event :=
  extract_otp_from_email (mail e) 8 5.

(** The calls up to the wait for the OTP field. *)
Definition entering (ev : ui_event) : Prop :=
  match ev with
  | UiNavigate _ | UiSleep _ | UiClickLogin _ | UiWaitPhone _ | UiClearPhone _
  | UiSubmitPhone _ | UiEnterPhone _ => True
  | UiTypePhone t _ => t = format_phone phone_number
  | _ => False
  end.

(** The calls between the answer of the mailbox and the reading of the
    cookies. *)
Definition finishing (ev : ui_event) : Prop :=
  match ev with
  | UiSleep _ | UiClearOtp _ | UiConfirm _ | UiEnterOtp _ | UiProbe _ _ => True
  | UiTypeOtp t _ => fst mail_answer = Some t
  | _ => False
  end.

(** [I0] holds up to the wait for the OTP field, [I1] between the wait and
    the call of the mailbox, [I2] from there on; [E] holds where an
    exception is under way, [X r] where the login returns [r]. *)
Variables I0 I1 I2 E : login_state -> Prop.
Variable X : bool -> login_state -> Prop.

Hypothesis HE0 : forall s, I0 s -> E s.
Hypothesis HE2 : forall s, I2 s -> E s.
Hypothesis Henter : forall ev, entering ev -> forall s, I0 s -> I0 (logged s [ev]).
Hypothesis Hwait : forall s, I0 s ->
  if otp_found e then I1 (logged s [UiWaitOtp true]) else E (logged s [UiWaitOtp false]).
Hypothesis Hmail : forall s, I1 s -> I2 (logged s (map UiMail (snd mail_answer))).
Hypothesis Hfinish : forall ev, finishing ev -> forall s, I2 s -> I2 (logged s [ev]).
Hypothesis Hshot : forall name s, E s ->
  match shot e name with
  | ShotRaises => E (logged s [UiScreenshot name ShotRaises])
  | o => X false (logged s [UiScreenshot name o])
  end.
Hypothesis Hsave : triple I2 (save_cookies e index) (fun _ _ => False) X E.

(** A screenshot and [return False]. *)
Lemma fail_chunk {A} name (N : A -> login_state -> Prop) :
  triple E (save_screenshot e name ;; py_return false) N X E.
Proof.
  intros s Hs. pose proof (Hshot name s Hs) as H.
  unfold save_screenshot, bind, ui_emit, py_return, py_raise, ret.
  fold (logged s [UiScreenshot name (shot e name)]).
  destruct (shot e name); exact H.
Qed.

Lemma fail_chunk0 {A} name (N : A -> login_state -> Prop) :
  triple I0 (save_screenshot e name ;; py_return false) N X E.
Proof. eapply triple_weaken; [apply (fail_chunk name N) | exact HE0 | auto | auto | auto]. Qed.

Lemma fail_chunk2 {A} name (N : A -> login_state -> Prop) :
  triple I2 (save_screenshot e name ;; py_return false) N X E.
Proof. eapply triple_weaken; [apply (fail_chunk name N) | exact HE2 | auto | auto | auto]. Qed.

(** A call of the first stage: it is logged, and succeeds or raises. *)
Lemma enter_emit ev Er : entering ev -> triple I0 (ui_emit ev) (fun _ => I0) X Er.
Proof. intros Hev s Hs. apply (Henter ev Hev s Hs). Qed.

Lemma enter_do ev b : entering (ev b) -> triple I0 (ui_do ev b) (fun _ => I0) X I0.
Proof.
  intros Hev s Hs. pose proof (Henter _ Hev s Hs) as H.
  unfold ui_do, bind, ui_emit, guard, ret, py_raise. destruct b; exact H.
Qed.

Lemma enter_do_E ev b : entering (ev b) -> triple I0 (ui_do ev b) (fun _ => I0) X E.
Proof.
  intros Hev. eapply triple_weaken; [apply (enter_do ev b Hev) | auto | auto | auto | exact HE0].
Qed.

Lemma finish_emit ev Er : finishing ev -> triple I2 (ui_emit ev) (fun _ => I2) X Er.
Proof. intros Hev s Hs. apply (Hfinish ev Hev s Hs). Qed.

Lemma finish_do ev b : finishing (ev b) -> triple I2 (ui_do ev b) (fun _ => I2) X I2.
Proof.
  intros Hev s Hs. pose proof (Hfinish _ Hev s Hs) as H.
  unfold ui_do, bind, ui_emit, guard, ret, py_raise. destruct b; exact H.
Qed.

Lemma finish_do_E ev b : finishing (ev b) -> triple I2 (ui_do ev b) (fun _ => I2) X E.
Proof.
  intros Hev. eapply triple_weaken; [apply (finish_do ev b Hev) | auto | auto | auto | exact HE2].
Qed.

Lemma navigate_triple v : triple I0 (navigate v) (fun _ => I0) X E.
Proof.
  unfold navigate, ui_sleep.
  eapply triple_bind; [apply enter_emit; exact I | intros ?; cbv beta].
  eapply triple_bind with (N1 := fun _ => I0).
  { apply triple_value. intros s Hs. destruct v; [exact Hs | apply HE0; exact Hs]. }
  intros reached.
  eapply triple_bind; [apply enter_emit; exact I | intros ?; cbv beta].
  apply triple_ret. auto.
Qed.

Lemma probes_triple l : triple I2 (probes e l) (fun _ => I2) X E.
Proof.
  induction l as [|i l IH]; cbn [probes]; [apply triple_ret; auto|].
  eapply triple_bind; [apply finish_emit; exact I | intros ?; cbv beta].
  destruct (probe e i); [apply triple_ret; auto | exact IH].
Qed.

Lemma retrieve_triple :
  triple I1 (retrieve_otp e) (fun otp s => otp = fst mail_answer /\ I2 s) X E.
Proof.
  intros s Hs. unfold retrieve_otp. fold mail_answer.
  split; [reflexivity | apply (Hmail s Hs)].
Qed.

(** Lines 313-412. *)
Lemma phone_and_otp_triple :
  triple I0 (phone_and_otp e phone_number index) (fun _ _ => False) X E.
Proof.
  unfold phone_and_otp, ui_sleep.
  eapply triple_bind; [apply enter_do_E; exact I | intros ?; cbv beta].
  eapply triple_bind; [apply enter_do_E; exact I | intros ?; cbv beta].
  eapply triple_bind; [apply enter_do_E; reflexivity | intros ?; cbv beta].
  eapply triple_bind; [apply enter_emit; exact I | intros ?; cbv beta].
  eapply triple_bind.
  { eapply triple_try; [apply enter_do; exact I | apply enter_do_E; exact I]. }
  intros ?; cbv beta.
  eapply triple_bind; [apply enter_emit; exact I | intros ?; cbv beta].
  eapply triple_bind with (N1 := fun _ => I1).
  { intros s Hs. pose proof (Hwait s Hs) as H.
    unfold ui_do, bind, ui_emit, guard, ret, py_raise.
    destruct (otp_found e); exact H. }
  intros ?; cbv beta.
  eapply triple_bind; [apply retrieve_triple | intros otp_code].
  apply triple_pure. intros Hotp.
  destruct (falsy otp_code) eqn:Hf; cbn [when].
  { eapply triple_bind; [apply (fail_chunk2 _ (fun _ _ => False)) | intros ?; apply triple_never]. }
  eapply triple_bind with (N1 := fun _ => I2);
    [apply triple_ret; intros s Hs; exact Hs | intros ?; cbv beta].
  assert (Hcode : fst mail_answer
                  = Some (match otp_code with Some c => c | None => [] end)).
  { rewrite <- Hotp. destruct otp_code; [reflexivity | discriminate]. }
  eapply triple_bind; [apply finish_do_E; exact I | intros ?; cbv beta].
  eapply triple_bind; [apply finish_do_E; exact Hcode | intros ?; cbv beta].
  eapply triple_bind; [apply finish_emit; exact I | intros ?; cbv beta].
  eapply triple_bind.
  { eapply triple_try; [apply finish_do; exact I | apply finish_do_E; exact I]. }
  intros ?; cbv beta.
  eapply triple_bind; [apply finish_emit; exact I | intros ?; cbv beta].
  eapply triple_bind; [apply probes_triple | intros login_successful].
  eapply triple_bind with (N1 := fun _ => I2).
  { destruct login_successful; [apply triple_ret; auto|].
    apply triple_value. intros s Hs. destruct (final_url e); [exact Hs | apply HE2; exact Hs]. }
  intros [|]; [exact Hsave | apply fail_chunk2].
Qed.

(** The flow-sensitive counterpart of [login_invariant]. *)
Lemma login_triple :
  triple I0 (login_to_ozon e phone_number index) (fun _ _ => False) X E.
Proof.
  unfold login_to_ozon.
  eapply triple_try; [|apply fail_chunk].
  eapply triple_bind; [apply navigate_triple | intros reached].
  eapply triple_bind with (N1 := fun _ => I0).
  { apply triple_when; [|auto].
    eapply triple_bind; [apply navigate_triple | intros reached2].
    apply triple_when; [apply fail_chunk0 | auto]. }
  intros ?; cbv beta.
  eapply triple_bind with (N1 := fun _ => I0).
  { eapply triple_try.
    - eapply triple_bind; [apply enter_do; exact I | intros ?; cbv beta].
      apply enter_emit. exact I.
    - apply triple_ret. auto. }
  intros ?; cbv beta.
  eapply triple_try; [apply phone_and_otp_triple | apply fail_chunk].
Qed.

End LoginLogic.

(* ------------------------------------------------------------------ *)
(** ** The store, the screenshots and the mailbox in a login *)

(** The screenshots asked for in a log. *)
Definition is_shot (ev : ui_event) : bool :=
  match ev with UiScreenshot _ _ => true | _ => false end.

Definition shots (log : list ui_event) : list ui_event := filter is_shot log.

(** A screenshot call that raised. *)
Definition raised_shot (e : login_env) (ev : ui_event) : Prop :=
  exists name, ev = UiScreenshot name ShotRaises /\ shot e name = ShotRaises.

(** The IMAP calls in a log. *)
Definition mails (log : list ui_event) : list imap_event :=
  flat_map (fun ev => match ev with UiMail m => [m] | _ => [] end) log.

Lemma shots_snoc log ev : is_shot ev = false -> shots (log ++ [ev]) = shots log.
Proof. intros H. unfold shots. rewrite filter_app. cbn. rewrite H. apply app_nil_r. Qed.

Lemma mails_snoc log ev :
  (forall m, ev <> UiMail m) -> mails (log ++ [ev]) = mails log.
Proof.
  intros H. unfold mails. rewrite flat_map_app. cbn.
  destruct ev; try (rewrite !app_nil_r; reflexivity). exfalso. eapply H. reflexivity.
Qed.

Lemma mails_app a b : mails (a ++ b) = mails a ++ mails b.
Proof. unfold mails. apply flat_map_app. Qed.

Lemma mails_map evs : mails (map UiMail evs) = evs.
Proof. induction evs as [|m evs IH]; [reflexivity|]. cbn. f_equal. exact IH. Qed.

Section LoginStore.

Context {U : Unicode} {XL : Excel}.

Variable e : login_env.
Variable phone_number : pystr.
Variable index : nat.
Variable df : frame.
Variable file : option frame.

(** The frame and the file are what they were when the login began. *)
Definition store_as_it_was (s : login_state) : Prop := l_df s = df /\ l_file s = file.

(** The file is what it was, and so is the frame, unless the cookies were
    assigned and [to_excel] raised. *)
Definition store_not_written (s : login_state) : Prop :=
  l_file s = file /\
  (l_df s = df \/
   exists text, session_cookies e = Some text /\ to_excel_ok e = false
                /\ l_df s = set_cookies index text df).

(** The cookies are in the frame and the frame is in the file. *)
Definition store_written (s : login_state) : Prop :=
  exists text, session_cookies e = Some text /\ to_excel_ok e = true
               /\ l_df s = set_cookies index text df
               /\ l_file s = Some (excel_view (set_cookies index text df)).

Lemma save_cookies_store :
  triple store_as_it_was (save_cookies e index) (fun _ _ => False)
         (fun r s => if r then store_written s else store_not_written s)
         store_not_written.
Proof.
  intros s [Hdf Hfile].
  unfold save_cookies, write_excel, assign_cookies, store_file, ui_emit.
  unfold bind, guard, value, ret, py_raise, py_return.
  destruct (session_cookies e) as [text|] eqn:Ec; cbn.
  - destruct (to_excel_ok e) eqn:Ex; cbn.
    + exists text. rewrite Hdf. auto.
    + split; [exact Hfile|]. right. exists text. rewrite Hdf. auto.
  - split; [exact Hfile | left; exact Hdf].
Qed.

Lemma login_store :
  triple store_as_it_was (login_to_ozon e phone_number index) (fun _ _ => False)
         (fun r s => if r then store_written s else store_not_written s)
         store_not_written.
Proof.
  assert (Hweak : forall s, store_as_it_was s -> store_not_written s).
  { intros s [Hdf Hfile]. split; [exact Hfile | left; exact Hdf]. }
  apply (login_triple e phone_number index store_as_it_was store_as_it_was store_as_it_was).
  - exact Hweak.
  - exact Hweak.
  - intros ev _ s H. exact H.
  - intros s H. destruct (otp_found e); [exact H | apply Hweak; exact H].
  - intros s H. exact H.
  - intros ev _ s H. exact H.
  - intros name s H. destruct (shot e name); exact H.
  - exact save_cookies_store.
Qed.

End LoginStore.

Section LoginShots.

Context {U : Unicode} {XL : Excel}.

Variable e : login_env.
Variable phone_number : pystr.
Variable index : nat.

Definition no_shot (s : login_state) : Prop := shots (l_log s) = [].

Definition shots_raised (s : login_state) : Prop := Forall (raised_shot e) (shots (l_log s)).

(** The last call was a screenshot that did not raise, and every screenshot
    before it raised. *)
Definition one_shot_taken (s : login_state) : Prop :=
  exists pre name,
    l_log s = pre ++ [UiScreenshot name (shot e name)]
    /\ shot e name <> ShotRaises /\ Forall (raised_shot e) (shots pre).

Lemma no_shot_snoc ev s : is_shot ev = false -> no_shot s -> no_shot (logged s [ev]).
Proof. intros Hev H. unfold no_shot in *. cbn. rewrite shots_snoc by exact Hev. exact H. Qed.

Lemma no_shot_raised s : no_shot s -> shots_raised s.
Proof. unfold no_shot, shots_raised. intros ->. constructor. Qed.

Lemma login_shots :
  triple no_shot (login_to_ozon e phone_number index) (fun _ _ => False)
         (fun r s => if r then no_shot s else one_shot_taken s)
         shots_raised.
Proof.
  apply (login_triple e phone_number index no_shot no_shot no_shot).
  - exact no_shot_raised.
  - exact no_shot_raised.
  - intros ev Hev s H. apply no_shot_snoc; [|exact H].
    destruct ev; try reflexivity; contradiction.
  - intros s H. destruct (otp_found e).
    + apply no_shot_snoc; [reflexivity | exact H].
    + apply no_shot_raised. apply no_shot_snoc; [reflexivity | exact H].
  - intros s H. unfold no_shot in *. cbn. unfold shots in *. rewrite filter_app, H.
    cbn. induction (snd (mail_answer e)) as [|m l IH]; [reflexivity | exact IH].
  - intros ev Hev s H. apply no_shot_snoc; [|exact H].
    destruct ev; try reflexivity; contradiction.
  - intros name s H. destruct (shot e name) eqn:Es.
    + exists (l_log s), name. rewrite Es. split; [reflexivity|]. split; [discriminate | exact H].
    + exists (l_log s), name. rewrite Es. split; [reflexivity|]. split; [discriminate | exact H].
    + unfold shots_raised in *. cbn. unfold shots in *. rewrite filter_app. cbn.
      apply Forall_app. split; [exact H|]. constructor; [|constructor]. exists name. auto.
  - intros s H.
    unfold save_cookies, write_excel, assign_cookies, store_file, ui_emit.
    unfold bind, guard, value, ret, py_raise, py_return.
    assert (H1 : forall ev, is_shot ev = false -> shots (l_log s ++ [ev]) = []).
    { intros ev Hev. rewrite shots_snoc by exact Hev. exact H. }
    assert (H2 : forall ev1 ev2, is_shot ev1 = false -> is_shot ev2 = false ->
                                 shots ((l_log s ++ [ev1]) ++ [ev2]) = []).
    { intros ev1 ev2 Hev1 Hev2. rewrite shots_snoc by exact Hev2. apply H1. exact Hev1. }
    destruct (session_cookies e) as [text|]; cbn.
    + destruct (to_excel_ok e); cbn.
      * unfold no_shot. cbn. rewrite shots_snoc by reflexivity. apply H2; reflexivity.
      * unfold shots_raised. cbn. rewrite shots_snoc by reflexivity.
        rewrite H2 by reflexivity. constructor.
    + unfold shots_raised. cbn. rewrite H1 by reflexivity. constructor.
Qed.

End LoginShots.

(** An event appended to a log stands last or after the place cut out. *)
Lemma snoc_split {A} (log : list A) ev pre x post :
  log ++ [ev] = pre ++ x :: post ->
  (post = [] /\ pre = log /\ x = ev)
  \/ (exists post', post = post' ++ [ev] /\ log = pre ++ x :: post').
Proof.
  intros H. induction post as [|z post _] using rev_ind.
  - left. apply app_inj_tail in H. destruct H as [H1 H2]. auto.
  - right. exists post.
    change (pre ++ x :: post ++ [z]) with (pre ++ (x :: post) ++ [z]) in H.
    rewrite app_assoc in H. apply app_inj_tail in H. destruct H as [H1 H2].
    subst. auto.
Qed.

Section LoginOrder.

Context {U : Unicode} {XL : Excel}.

Variable e : login_env.
Variable phone_number : pystr.
Variable index : nat.

(** Every call of the mailbox stands after the call that found the OTP
    field. *)
Definition asked_in_order (log : list ui_event) : Prop :=
  forall pre m post, log = pre ++ UiMail m :: post -> In (UiWaitOtp true) pre.

(** Every code typed stands after all the calls of the mailbox, and is the
    code the mailbox returned. *)
Definition typed_in_order (log : list ui_event) : Prop :=
  forall pre t b post, log = pre ++ UiTypeOtp t b :: post ->
    fst (mail_answer e) = Some t /\ mails pre = snd (mail_answer e).

(** The mailbox was not asked and no code was typed. *)
Definition before_mail (s : login_state) : Prop :=
  mails (l_log s) = [] /\ forall t b, ~ In (UiTypeOtp t b) (l_log s).

(** The OTP field was found, then the mailbox was asked once, and what was
    typed as a code after that is what the mailbox returned. *)
Definition after_mail (s : login_state) : Prop :=
  In (UiWaitOtp true) (l_log s)
  /\ mails (l_log s) = snd (mail_answer e)
  /\ asked_in_order (l_log s)
  /\ typed_in_order (l_log s).

Definition mail_in_order (s : login_state) : Prop := before_mail s \/ after_mail s.

Lemma before_mail_snoc ev s :
  (forall m, ev <> UiMail m) -> (forall t b, ev <> UiTypeOtp t b) ->
  before_mail s -> before_mail (logged s [ev]).
Proof.
  intros Hm Ht [H1 H2]. split; cbn.
  - rewrite mails_snoc by exact Hm. exact H1.
  - intros t b Hin. apply in_app_or in Hin. destruct Hin as [Hin | [Hin | []]].
    + exact (H2 t b Hin).
    + exact (Ht t b Hin).
Qed.

Lemma before_mail_in_order s :
  before_mail s -> asked_in_order (l_log s) /\ typed_in_order (l_log s).
Proof.
  intros [H1 H2]. split.
  - intros pre m post Heq. rewrite Heq, mails_app in H1. cbn in H1.
    destruct (mails pre); discriminate.
  - intros pre t b post Heq. exfalso. apply (H2 t b). rewrite Heq.
    apply in_elt.
Qed.

Lemma after_mail_snoc ev s :
  (forall m, ev <> UiMail m) ->
  (forall t b, ev = UiTypeOtp t b -> fst (mail_answer e) = Some t) ->
  after_mail s -> after_mail (logged s [ev]).
Proof.
  intros Hm Ht [H1 [H2 [H3 H4]]]. split; [|split; [|split]]; cbn.
  - apply in_or_app. left. exact H1.
  - rewrite mails_snoc by exact Hm. exact H2.
  - intros pre m post Heq. apply snoc_split in Heq.
    destruct Heq as [[_ [_ Heq]] | [post' [_ Heq]]].
    + exfalso. apply (Hm m). symmetry. exact Heq.
    + apply (H3 pre m post' Heq).
  - intros pre t b post Heq. apply snoc_split in Heq.
    destruct Heq as [[_ [Hpre Heq]] | [post' [_ Heq]]].
    + subst pre. split; [apply (Ht t b); symmetry; exact Heq | exact H2].
    + apply (H4 pre t b post' Heq).
Qed.

Lemma mail_in_order_snoc ev s :
  (forall m, ev <> UiMail m) -> (forall t b, ev <> UiTypeOtp t b) ->
  mail_in_order s -> mail_in_order (logged s [ev]).
Proof.
  intros Hm Ht [H | H]; [left; apply before_mail_snoc | right; apply after_mail_snoc];
    try assumption.
  intros t b Heq. exfalso. exact (Ht t b Heq).
Qed.

(** The mailbox is asked in a state in which the OTP field was found. *)
Lemma after_mail_asked s :
  before_mail s -> In (UiWaitOtp true) (l_log s) ->
  after_mail (logged s (map UiMail (snd (mail_answer e)))).
Proof.
  intros [H1 H2] H3. split; [|split; [|split]]; cbn.
  - apply in_or_app. left. exact H3.
  - rewrite mails_app, H1, mails_map. reflexivity.
  - intros pre m post Heq. apply app_eq_app in Heq.
    destruct Heq as [l [[Hlog Hl] | [Hpre _]]].
    + destruct l as [|x l].
      * rewrite app_nil_r in Hlog. subst pre. exact H3.
      * exfalso. inversion Hl; subst x. rewrite Hlog, mails_app in H1. cbn in H1.
        destruct (mails pre); discriminate.
    + subst pre. apply in_or_app. left. exact H3.
  - intros pre t b post Heq. exfalso.
    assert (Hin : In (UiTypeOtp t b) (l_log s ++ map UiMail (snd (mail_answer e))))
      by (rewrite Heq; apply in_elt).
    apply in_app_or in Hin. destruct Hin as [Hin | Hin]; [exact (H2 t b Hin)|].
    apply in_map_iff in Hin. destruct Hin as [m [Hm _]]. discriminate.
Qed.

Lemma login_order :
  triple before_mail (login_to_ozon e phone_number index) (fun _ _ => False)
         (fun _ => mail_in_order) mail_in_order.
Proof.
  apply (login_triple e phone_number index before_mail
           (fun s => before_mail s /\ In (UiWaitOtp true) (l_log s)) after_mail).
  - intros s H. left. exact H.
  - intros s H. right. exact H.
  - intros ev Hev s H. apply before_mail_snoc; [| |exact H];
      destruct ev; try contradiction; discriminate.
  - intros s H. destruct (otp_found e).
    + split; [apply before_mail_snoc; [discriminate | discriminate | exact H]|].
      cbn. apply in_or_app. right. left. reflexivity.
    + left. apply before_mail_snoc; [discriminate | discriminate | exact H].
  - intros s [H1 H2]. apply after_mail_asked; assumption.
  - intros ev Hev s H. apply after_mail_snoc; [| |exact H].
    + destruct ev; try contradiction; discriminate.
    + intros t b ->. exact Hev.
  - intros name s H.
    destruct (shot e name); apply mail_in_order_snoc; try discriminate; exact H.
  - intros s H.
    unfold save_cookies, write_excel, assign_cookies, store_file, ui_emit.
    unfold bind, guard, value, ret, py_raise, py_return.
    destruct (session_cookies e) as [text|]; cbn.
    + destruct (to_excel_ok e); cbn; right.
      * change (after_mail (logged (logged (logged s [UiGetCookies true])
                                     [UiSetCookies index text]) [UiToExcel true])).
        repeat (apply after_mail_snoc; [discriminate | discriminate |]). exact H.
      * change (after_mail (logged (logged (logged s [UiGetCookies true])
                                     [UiSetCookies index text]) [UiToExcel false])).
        repeat (apply after_mail_snoc; [discriminate | discriminate |]). exact H.
    + right. apply (after_mail_snoc (UiGetCookies false) s); [discriminate | discriminate | exact H].
Qed.

End LoginOrder.

(* ------------------------------------------------------------------ *)
(** ** More about the extractor *)

Section ExtractorBudget.

Context {U : Unicode}.

Lemma sleeps_sleep_if b I : sleeps (sleep_if b I) = if b then [I] else [].
Proof. destruct b; reflexivity. Qed.

(** Whatever the mailbox does, the attempts [k], [k + 1], ... open at most
    one connection each and sleep only between attempts of the budget. *)
Lemma attempts_from_budget mb M I rem : forall k,
  connects (snd (attempts_from mb M I k rem)) <= rem
  /\ length (sleeps (snd (attempts_from mb M I k rem))) <= M - 1 - k
  /\ Forall (eq I) (sleeps (snd (attempts_from mb M I k rem))).
Proof.
  induction rem as [|rem IH]; intros k.
  - cbn. split; [lia|]. split; [lia | constructor].
  - cbn [attempts_from]. destruct (attempt_counts (mb k)) as [Hc Hs].
    destruct (IH (S k)) as [IH1 [IH2 IH3]].
    assert (Hret : connects (attempt_events (mb k)) <= S rem
                   /\ length (sleeps (attempt_events (mb k))) <= M - 1 - k
                   /\ Forall (eq I) (sleeps (attempt_events (mb k)))).
    { rewrite Hc, Hs. cbn. split; [lia|]. split; [lia | constructor]. }
    assert (Hgo : connects (attempt_events (mb k) ++ sleep_if (k <? M - 1) I
                            ++ snd (attempts_from mb M I (S k) rem)) <= S rem
                  /\ length (sleeps (attempt_events (mb k) ++ sleep_if (k <? M - 1) I
                                     ++ snd (attempts_from mb M I (S k) rem))) <= M - 1 - k
                  /\ Forall (eq I) (sleeps (attempt_events (mb k) ++ sleep_if (k <? M - 1) I
                                            ++ snd (attempts_from mb M I (S k) rem)))).
    { rewrite !connects_app, !sleeps_app, Hc, Hs, sleeps_sleep_if.
      assert (H0 : connects (sleep_if (k <? M - 1) I) = 0)
        by (destruct (k <? M - 1); reflexivity).
      rewrite H0. cbn [app].
      destruct (Nat.ltb_spec k (M - 1)).
      - cbn [length app]. split; [lia|]. split; [lia|]. constructor; [reflexivity | exact IH3].
      - cbn [app]. split; [lia|]. split; [lia | exact IH3]. }
    destruct (fst (attempt (mb k))); cbn [snd]; assumption.
Qed.

(** The calls of an attempt: those of lines 87-110, then only [close] and
    [logout]. *)
Lemma attempt_events_split a :
  exists cl,
    attempt_events a = imap_log (snd (prelude a imap_start)) ++ cl /\ Forall closing cl.
Proof.
  unfold attempt_events, attempt. rewrite attempt_body_prelude. unfold bind at 1.
  destruct (prelude_run a) as [evs [_ Hp]]. rewrite Hp. cbn [snd imap_log].
  destruct (fetched a) as [parts|].
  - destruct (walk_cases a parts (mk_imap (ImapConnect (connect_ok a) :: evs) 0 0))
      as [evs2 [s' [Hlog [Hcl Hres]]]].
    cbn [imap_log] in Hlog.
    destruct Hres as [Hres | [c [Hres _]]].
    + unfold bind at 1. rewrite Hres. unfold bind, imap_close, imap_logout.
      destruct (close_ok a (closes s')); cbn.
      * exists (evs2 ++ [ImapClose true; ImapLogout (logout_ok a (logouts s'))]).
        split.
        -- destruct (logout_ok a (logouts s')); cbn; rewrite Hlog, <- !app_assoc; reflexivity.
        -- apply Forall_app. split; [exact Hcl | repeat constructor].
      * exists (evs2 ++ [ImapClose false]). split.
        -- rewrite Hlog, <- !app_assoc. reflexivity.
        -- apply Forall_app. split; [exact Hcl | repeat constructor].
    + unfold bind at 1. rewrite Hres. cbn [snd]. exists evs2. split; [exact Hlog | exact Hcl].
  - exists []. split; [rewrite app_nil_r; reflexivity | constructor].
Qed.

Definition is_fetch (ev : imap_event) : bool :=
  match ev with ImapFetch _ _ => true | _ => false end.

(** The searches and the fetch of lines 92-108. *)
Definition searched_in_order (a : attempt_env) (evs : list imap_event) : Prop :=
  (forall id ok, In (ImapFetch id ok) evs ->
     exists ids, candidates a = Some ids /\ ids <> [] /\ id = last ids 0)
  /\ length (filter is_fetch evs) <= 1
  /\ (forall ok, In (ImapSearch FromSender ok) evs -> search_ids a FromUnseen = Some [])
  /\ (forall ok, In (ImapSearch BySubject ok) evs ->
        search_ids a FromUnseen = Some [] /\ search_ids a FromSender = Some []).

Ltac in_order_leaf :=
  cbn -[last]; repeat split;
  try (intros;
       repeat match goal with
         | H : _ \/ _ |- _ => destruct H
         | H : False |- _ => destruct H
         end;
       try discriminate);
  try lia;
  try (match goal with H : ImapFetch _ _ = ImapFetch _ _ |- _ => inversion H; subst end;
       eexists; repeat split; try reflexivity; discriminate).

Lemma prelude_in_order a : searched_in_order a (imap_log (snd (prelude a imap_start))).
Proof.
  unfold searched_in_order, prelude, candidates. destruct a as [co lo se sr fe cl lg].
  unfold imap_connect, imap_login, imap_select, imap_search, imap_fetch,
    bind, imap_new, imap_emit, guard, value, when, ret, py_raise.
  assert (Hlast : forall (i : nat) l, i :: l <> []) by discriminate.
  destruct co; cbn -[last]; [|in_order_leaf].
  destruct lo; cbn -[last]; [|in_order_leaf].
  destruct se; cbn -[last]; [|in_order_leaf].
  destruct (sr FromUnseen) as [[|i1 l1]|]; cbn -[last]; [| |in_order_leaf].
  - destruct (sr FromSender) as [[|i2 l2]|]; cbn -[last]; [| |in_order_leaf].
    + destruct (sr BySubject) as [[|i3 l3]|]; cbn -[last]; [in_order_leaf| |in_order_leaf].
      match goal with |- context [fe ?x] => destruct (fe x) end; in_order_leaf.
    + match goal with |- context [fe ?x] => destruct (fe x) end; in_order_leaf.
  - match goal with |- context [fe ?x] => destruct (fe x) end; in_order_leaf.
Qed.

End ExtractorBudget.

Section ExtractorMore.

Context {U : Unicode}.

Lemma closing_not_fetch cl : Forall closing cl -> filter is_fetch cl = [].
Proof.
  induction 1 as [|ev cl Hev _ IH]; [reflexivity|].
  destruct ev; cbn in *; try contradiction; exact IH.
Qed.

Lemma extract_budget mb M I :
  connects (snd (extract_otp_from_email mb M I)) <= M
  /\ length (sleeps (snd (extract_otp_from_email mb M I))) <= M - 1
  /\ Forall (eq I) (sleeps (snd (extract_otp_from_email mb M I))).
Proof.
  rewrite extract_trace.
  destruct (attempts_from_budget mb M I M 0) as [H1 [H2 H3]].
  rewrite Nat.sub_0_r in H2.
  destruct (attempts_from mb M I 0 M) as [[[]|r|] evs]; cbn [snd] in *; auto.
Qed.

(** Whatever the mailbox does, a call opens at most [max_retries]
    connections and sleeps at most [max_retries - 1] times, [retry_interval]
    seconds each; with a budget of no attempt it returns [None] without a
    call to the server. *)
Theorem extraction_stays_within_budget (mb : mailbox) (max_retries retry_interval : nat) :
  connects (snd (extract_otp_from_email mb max_retries retry_interval)) <= max_retries
  /\ length (sleeps (snd (extract_otp_from_email mb max_retries retry_interval)))
     <= max_retries - 1
  /\ Forall (eq retry_interval)
            (sleeps (snd (extract_otp_from_email mb max_retries retry_interval)))
  /\ extract_otp_from_email mb 0 retry_interval = (None, []).
Proof.
  destruct (extract_budget mb max_retries retry_interval) as [H1 [H2 H3]].
  repeat split; try assumption.
Qed.

(** One attempt fetches at most one message: the last id of the first
    search that answers with any.  The search by sender is made only after
    the search for unseen mail came back empty, the search by subject only
    after both did. *)
Theorem attempt_reads_newest_message (a : attempt_env) :
  searched_in_order a (attempt_events a).
Proof.
  destruct (attempt_events_split a) as [cl [-> Hcl]].
  destruct (prelude_in_order a) as [H1 [H2 [H3 H4]]].
  assert (Hno : forall ev, In ev cl -> closing ev) by (apply Forall_forall; exact Hcl).
  split; [|split; [|split]].
  - intros id ok Hin. apply in_app_or in Hin. destruct Hin as [Hin|Hin]; [eauto|].
    destruct (Hno _ Hin).
  - rewrite filter_app, length_app, (closing_not_fetch cl Hcl). cbn. lia.
  - intros ok Hin. apply in_app_or in Hin. destruct Hin as [Hin|Hin]; [eauto|].
    destruct (Hno _ Hin).
  - intros ok Hin. apply in_app_or in Hin. destruct Hin as [Hin|Hin]; [eauto|].
    destruct (Hno _ Hin).
Qed.

(** A code the function returns was found by the patterns in a text part of
    the message fetched in one of the attempts, and it has six digits, four
    digits, or one to three. *)
Theorem returned_code_comes_from_the_mailbox (mb : mailbox) (max_retries retry_interval : nat)
    (c : pystr) :
  fst (extract_otp_from_email mb max_retries retry_interval) = Some c ->
  (exists j parts p body,
      j < max_retries /\ fetched (mb j) = Some parts /\ In p parts
      /\ is_text p = true /\ payload p = Some body /\ body_code body = Some c)
  /\ (length c = 6 \/ length c = 4 \/ 1 <= length c <= 3).
Proof.
  rewrite extract_trace.
  destruct (attempts_from mb max_retries retry_interval 0 max_retries) as [[[]|r|] evs] eqn:E;
    cbn [fst]; try discriminate.
  intros ->.
  destruct (attempts_return_from mb max_retries retry_interval max_retries 0 (Some c))
    as [j [Hj Hr]]; [rewrite E; reflexivity|].
  destruct (attempt_return_source (mb j) c Hr) as [parts [p [Hf [Hin Hc]]]].
  unfold part_code in Hc.
  destruct (is_text p) eqn:Et; [|discriminate].
  destruct (payload p) as [body|] eqn:Ep; [|discriminate].
  split.
  - exists j, parts, p, body. repeat split; try assumption. lia.
  - apply (body_code_length body c Hc).
Qed.

End ExtractorMore.

(* ------------------------------------------------------------------ *)
(** ** More about the login *)

Section LoginMore.

Context {U : Unicode} {XL : Excel}.

(** A login returns [True] or [False], or it is left by an exception of the
    screenshot call in the outermost handler. *)
Theorem login_returns_unless_last_screenshot_raises (e : login_env) (phone_number : pystr)
    (index : nat) (s : login_state) :
  (exists b, fst (login_to_ozon e phone_number index s) = Return b)
  \/ (fst (login_to_ozon e phone_number index s) = Raise
      /\ shot e (general_shot index) = ShotRaises).
Proof.
  pose proof (login_triple e phone_number index
                (fun _ => True) (fun _ => True) (fun _ => True) (fun _ => True)
                (fun _ _ => True)) as H.
  assert (Ht : triple (fun _ : login_state => True) (login_to_ozon e phone_number index)
                      (fun _ _ => False) (fun _ _ => True) (fun _ => True)).
  { apply H; auto.
    - intros s0 _. destruct (otp_found e); exact I.
    - intros name s0 _. destruct (shot e name); exact I.
    - intros s0 _. destruct (save_cookies e index s0) as [[[]|r|] s1] eqn:Es; try exact I.
      unfold save_cookies, write_excel, assign_cookies, store_file, ui_emit in Es.
      unfold bind, guard, value, ret, py_raise, py_return in Es.
      destruct (session_cookies e); cbn in Es; [|discriminate].
      destruct (to_excel_ok e); cbn in Es; discriminate. }
  specialize (Ht s I). unfold general_shot.
  unfold login_to_ozon, try_except in *.
  match goal with
  | |- context [match ?body s with _ => _ end] => destruct (body s) as [[[]|b|] s1]
  end; cbn [fst].
  - destruct Ht.
  - left. exists b. reflexivity.
  - unfold save_screenshot, bind, ui_emit, py_return, py_raise, ret.
    destruct (shot e (shot_name "error_general" index)) eqn:Es; cbn [fst].
    + left. exists false. reflexivity.
    + left. exists false. reflexivity.
    + right. split; reflexivity.
Qed.

(** Only a login that returns [True] writes the store.  It has then put the
    cookies of the session into the row of its account and the frame into
    the file.  After any other login the file is what it was, and so is the
    frame, unless [to_excel] raised after the cookies were assigned. *)
Theorem login_writes_store_only_on_success (e : login_env) (phone_number : pystr)
    (index : nat) (df : frame) (file : option frame) :
  let r := login_to_ozon e phone_number index (mk_login_state df file []) in
  (fst r = Return true -> store_written e index df (snd r))
  /\ (fst r <> Return true -> store_not_written e index df file (snd r)).
Proof.
  intros r.
  pose proof (login_store e phone_number index df file (mk_login_state df file [])
                (conj eq_refl eq_refl)) as H.
  fold r in H. destruct r as [[[]|[|]|] s']; cbn [fst snd] in *.
  - destruct H.
  - split; [intros _; exact H | intros Hne; exfalso; apply Hne; reflexivity].
  - split; [discriminate | intros _; exact H].
  - split; [discriminate | intros _; exact H].
Qed.

(** A login that returns [True] has asked for no screenshot.  One that
    returns [False] has asked for a screenshot as its last call, and every
    screenshot call before that one raised; when no screenshot call raises,
    it has asked for exactly one. *)
Theorem failed_login_takes_a_screenshot (e : login_env) (phone_number : pystr)
    (index : nat) (df : frame) (file : option frame) :
  let r := login_to_ozon e phone_number index (mk_login_state df file []) in
  (fst r = Return true -> shots (l_log (snd r)) = [])
  /\ (fst r = Return false -> one_shot_taken e (snd r))
  /\ (fst r = Return false -> (forall name, shot e name <> ShotRaises) ->
      length (shots (l_log (snd r))) = 1).
Proof.
  intros r.
  pose proof (login_shots e phone_number index (mk_login_state df file []) eq_refl) as H.
  fold r in H. destruct r as [[[]|[|]|] s']; cbn [fst snd] in *.
  - destruct H.
  - split; [intros _; exact H|]. split; discriminate.
  - split; [discriminate|]. split; [intros _; exact H|].
    intros _ Hno. destruct H as [pre [name [Hlog [_ Hpre]]]].
    rewrite Hlog. unfold shots in *. rewrite filter_app. cbn.
    destruct (filter is_shot pre) as [|ev rest]; [reflexivity|].
    inversion Hpre as [|? ? [n [_ Hn]] _]; subst. destruct (Hno n Hn).
  - split; [discriminate|]. split; discriminate.
Qed.

(** The mailbox is asked at most once in a login and with at most eight
    connections.  Every call of the mailbox stands, in the order of the
    calls of the login, after the wait that found the OTP field; every code
    typed into the OTP field stands after all the calls of the mailbox, and
    is the code the mailbox returned. *)
Theorem mailbox_is_asked_after_the_otp_field (e : login_env) (phone_number : pystr)
    (index : nat) (df : frame) (file : option frame) :
  let log := l_log (snd (login_to_ozon e phone_number index (mk_login_state df file []))) in
  (mails log = [] \/ mails log = snd (extract_otp_from_email (mail e) 8 5))
  /\ (forall pre m post, log = pre ++ UiMail m :: post -> In (UiWaitOtp true) pre)
  /\ (forall pre t b post, log = pre ++ UiTypeOtp t b :: post ->
        fst (extract_otp_from_email (mail e) 8 5) = Some t
        /\ mails pre = snd (extract_otp_from_email (mail e) 8 5))
  /\ connects (mails log) <= 8.
Proof.
  intros log. subst log.
  assert (H : mail_in_order e (snd (login_to_ozon e phone_number index
                                      (mk_login_state df file [])))).
  { assert (H0 : before_mail (mk_login_state df file []))
      by (split; [reflexivity | intros t b []]).
    pose proof (login_order e phone_number index (mk_login_state df file []) H0) as H.
    destruct (login_to_ozon e phone_number index (mk_login_state df file []))
      as [[[]|b|] s']; cbn [snd]; [destruct H | exact H | exact H]. }
  revert H. generalize (snd (login_to_ozon e phone_number index (mk_login_state df file []))).
  intros s1 H. destruct H as [Hb | [Hw [Hm [Ha Ht]]]].
  - destruct (before_mail_in_order e s1 Hb) as [Ha Ht]. destruct Hb as [Hm _].
    unfold asked_in_order, typed_in_order, mail_answer in *.
    split; [left; exact Hm|]. split; [exact Ha|]. split; [exact Ht|].
    rewrite Hm. cbn. lia.
  - unfold asked_in_order, typed_in_order, mail_answer in *.
    split; [right; exact Hm|]. split; [exact Ha|]. split; [exact Ht|].
    rewrite Hm. apply (extract_budget (mail e) 8 5).
Qed.

End LoginMore.

Section LoginNavigation.

Context {U : Unicode} {XL : Excel}.

(** When the address of the page does not hold [ozon] after the first and
    after the second [get], the login has slept twenty seconds, looks for
    nothing on the page and asks for the screenshot
    [error_navigation_<index>.png].  If that call does not raise, the login
    returns [False].  If it raises, the outer handler asks for
    [error_general_<index>.png] and the login returns [False], unless that
    call raises too: then the exception leaves the login.  The frame and the
    file are left as they were. *)
Theorem unreachable_ozon_ends_login (e : login_env) (phone_number : pystr) (index : nat)
    (df : frame) (file : option frame) :
  nav1 e = Some false -> nav2 e = Some false ->
  login_to_ozon e phone_number index (mk_login_state df file [])
  = match shot e (shot_name "error_navigation" index) with
    | ShotRaises =>
        (match shot e (shot_name "error_general" index) with
         | ShotRaises => Raise
         | Saved | NotSaved => Return false
         end,
         mk_login_state df file
           [UiNavigate true; UiSleep 10; UiNavigate true; UiSleep 10;
            UiScreenshot (shot_name "error_navigation" index) ShotRaises;
            UiScreenshot (shot_name "error_general" index)
                         (shot e (shot_name "error_general" index))])
    | outcome =>
        (Return false,
         mk_login_state df file
           [UiNavigate true; UiSleep 10; UiNavigate true; UiSleep 10;
            UiScreenshot (shot_name "error_navigation" index) outcome])
    end.
Proof.
  intros H1 H2.
  unfold login_to_ozon, navigate, ui_sleep, save_screenshot.
  unfold try_except, bind, ui_emit, value, when, ret, py_return, py_raise.
  rewrite H1. cbn -[shot_name]. rewrite H2. cbn -[shot_name].
  destruct (shot e (shot_name "error_navigation" index)); cbn -[shot_name];
    [reflexivity | reflexivity |].
  destruct (shot e (shot_name "error_general" index)); reflexivity.
Qed.

End LoginNavigation.

(* ------------------------------------------------------------------ *)
(** ** Facts about the proxy check *)

Section AnchoredFacts.

Context {U : Unicode}.

Lemma descend_found {A} (cont : nat -> option A) n lo k r :
  lo <= k <= n -> cont k = Some r -> exists r', descend cont n lo = Some r'.
Proof.
  induction n as [|n IH]; intros Hk Hc.
  - assert (k = 0) by lia. subst. simpl. rewrite Hc. eauto.
  - simpl. destruct (cont (S n)) as [r0|] eqn:E; [eauto|].
    destruct (Nat.eq_dec k (S n)) as [->|Hne]; [congruence|].
    destruct lo as [|lo]; simpl.
    + apply IH; [lia | exact Hc].
    + destruct (Nat.leb_spec n lo) as [Hle|Hgt]; [lia|]. apply IH; [lia | exact Hc].
Qed.

Lemma descend_bounds {A} (cont : nat -> option A) n lo r :
  lo <= n -> descend cont n lo = Some r -> exists k, lo <= k <= n /\ cont k = Some r.
Proof.
  induction n as [|n IH]; simpl; intros Hlo.
  - destruct (cont 0) eqn:E; [|discriminate]. intros H. exists 0. split; [lia|congruence].
  - destruct (cont (S n)) eqn:E.
    + intros H. exists (S n). split; [lia|congruence].
    + destruct lo as [|lo]; simpl.
      * intros H. destruct (IH ltac:(lia) H) as [k [Hk Hc]]. exists k. split; [lia|exact Hc].
      * destruct (Nat.leb_spec n lo) as [Hle|Hgt]; [discriminate|].
        intros H. destruct (IH ltac:(lia) H) as [k [Hk Hc]]. exists k. split; [lia|exact Hc].
Qed.

(** A bounded repetition takes some number of characters of the class
    between its bounds, and the rest of the pattern matches what is left. *)
Lemma match_rep k lo hi re st s :
  match_from (Rep k lo hi :: re) st s = true <->
  exists n, lo <= n <= hi /\ n <= span (cls_match false k) s
            /\ match_from re (st && (n =? 0)) (skipn n s) = true.
Proof.
  cbn [match_from]. cbv zeta. split.
  - intros H. apply andb_true_iff in H. destruct H as [Hlo H].
    apply Nat.leb_le in Hlo.
    destruct (descend _ _ lo) as [[]|] eqn:E; [|discriminate].
    apply descend_bounds in E; [|exact Hlo]. destruct E as [n [Hn Hc]].
    exists n. split; [lia|]. split; [lia|].
    destruct (match_from re (st && (n =? 0)) (skipn n s)); [reflexivity|discriminate].
  - intros [n [Hn [Hs Hm]]]. apply andb_true_iff. split; [apply Nat.leb_le; lia|].
    destruct (descend_found
                (fun n => if match_from re (st && (n =? 0)) (skipn n s) then Some tt else None)
                (Nat.min hi (span (cls_match false k) s)) lo n tt) as [r' Hr].
    + lia.
    + rewrite Hm. reflexivity.
    + rewrite Hr. reflexivity.
Qed.

End AnchoredFacts.

Lemma pystr_eqb_eq a : forall b, pystr_eqb a b = true <-> a = b.
Proof.
  induction a as [|x a IH]; intros [|y b]; simpl; split; intros H;
    try reflexivity; try discriminate.
  - apply andb_true_iff in H. destruct H as [Hx Ha]. apply N.eqb_eq in Hx.
    apply IH in Ha. congruence.
  - inversion H; subst. apply andb_true_iff. split; [apply N.eqb_refl | apply IH; reflexivity].
Qed.

Lemma lstrip_head s :
  match lstrip s with [] => True | c :: _ => is_space c = false end.
Proof.
  induction s as [|c s IH]; simpl; [exact I|].
  destruct (is_space c) eqn:E; [exact IH | exact E].
Qed.

(** What [strip()] returns does not end in white space. *)
Lemma strip_last s q c : strip s = q ++ [c] -> is_space c = false.
Proof.
  unfold strip. intros H.
  pose proof (lstrip_head (rev (lstrip s))) as Hh.
  destruct (lstrip (rev (lstrip s))) as [|x r]; [destruct q; discriminate|].
  simpl in H. apply app_inj_tail in H. destruct H as [_ ->]. exact Hh.
Qed.

Section IpFacts.

Context {U : Unicode}.

(** One to three decimal digits. *)
Definition digit_group (g : pystr) : Prop := 1 <= length g <= 3 /\ all_digits g = true.

(** Four groups of digits with dots between them. *)
Definition dotted_quad (s : pystr) : Prop :=
  exists a b c d,
    s = a ++ dot :: b ++ dot :: c ++ dot :: d
    /\ digit_group a /\ digit_group b /\ digit_group c /\ digit_group d.

Lemma span_dot_stop a rest :
  all_digits a = true -> span is_digit (a ++ dot :: rest) = length a.
Proof.
  intros H. rewrite span_app_run by exact H.
  rewrite span_head_false by reflexivity. lia.
Qed.

(** [\d{1,3}\.] and then the rest of the pattern. *)
Lemma match_group_dot re st s :
  match_from (Rep Digit 1 3 :: Rep (Lit dot) 1 1 :: re) st s = true <->
  exists a rest, s = a ++ dot :: rest /\ digit_group a /\ match_from re false rest = true.
Proof.
  rewrite match_rep. split.
  - intros [n [Hn [Hs Hm]]]. apply match_rep in Hm.
    destruct Hm as [k [Hk [Hd Hm]]]. assert (k = 1) by lia. subst k.
    rewrite andb_false_r in Hm.
    destruct (skipn n s) as [|x rest] eqn:Es; [simpl in Hd; exfalso; lia|].
    cbn [span cls_match] in Hd. destruct (char_eqb dot x) eqn:Ex; [|exfalso; lia].
    apply N.eqb_eq in Ex. subst x.
    exists (firstn n s), rest. split; [|split].
    + rewrite <- Es. symmetry. apply firstn_skipn.
    + destruct (span_firstn _ s n Hs) as [H1 H2]. split; [rewrite H2; lia | exact H1].
    + exact Hm.
  - intros [a [rest [-> [[Hlen Hd] Hm]]]]. exists (length a).
    split; [lia|]. split.
    + change (cls_match false Digit) with is_digit. rewrite span_dot_stop by exact Hd. lia.
    + rewrite skipn_app, skipn_all, Nat.sub_diag. cbn [app skipn].
      apply match_rep. exists 1. split; [lia|]. split.
      * simpl. lia.
      * rewrite andb_false_r. exact Hm.
Qed.

(** [\d{1,3}$] *)
Lemma match_group_end st s :
  match_from [Rep Digit 1 3; Eol] st s = true <->
  digit_group s \/ exists d, s = d ++ [newline] /\ digit_group d.
Proof.
  rewrite match_rep. split.
  - intros [n [Hn [Hs Hm]]]. cbn [match_from] in Hm. rewrite andb_true_r in Hm.
    destruct (span_firstn _ s n Hs) as [H1 H2].
    assert (Hg : digit_group (firstn n s)) by (split; [rewrite H2; lia | exact H1]).
    rewrite <- (firstn_skipn n s).
    apply orb_true_iff in Hm. destruct Hm as [Hm | Hm].
    + destruct (skipn n s); [|discriminate]. left. rewrite app_nil_r. exact Hg.
    + apply pystr_eqb_eq in Hm. rewrite Hm. right. exists (firstn n s). split; [reflexivity|exact Hg].
  - intros [[Hlen Hd] | [d [-> [Hlen Hd]]]].
    + exists (length s). split; [lia|]. split.
      * change (cls_match false Digit) with is_digit.
        rewrite <- (app_nil_r s) at 2. rewrite span_app_run by exact Hd. simpl. lia.
      * rewrite skipn_all. reflexivity.
    + exists (length d). split; [lia|]. split.
      * change (cls_match false Digit) with is_digit.
        rewrite span_app_run by exact Hd. rewrite span_head_false by reflexivity. lia.
      * rewrite skipn_app, skipn_all, Nat.sub_diag. reflexivity.
Qed.

Lemma match_bol re s : match_from (Bol :: re) true s = match_from re true s.
Proof. reflexivity. Qed.

Lemma ip_pattern_quad s :
  re_match ip_pattern s = true <->
  dotted_quad s \/ exists q, s = q ++ [newline] /\ dotted_quad q.
Proof.
  unfold re_match, ip_pattern. rewrite match_bol, match_group_dot. split.
  - intros [a [r1 [-> [Ha H]]]]. apply match_group_dot in H.
    destruct H as [b [r2 [-> [Hb H]]]]. apply match_group_dot in H.
    destruct H as [c [r3 [-> [Hc H]]]]. apply match_group_end in H.
    destruct H as [Hd | [d [-> Hd]]].
    + left. exists a, b, c, r3. auto.
    + right. exists (a ++ dot :: b ++ dot :: c ++ dot :: d). split.
      * rewrite <- !app_assoc. cbn [app]. rewrite <- !app_assoc. cbn [app].
        rewrite <- !app_assoc. reflexivity.
      * exists a, b, c, d. auto.
  - intros [[a [b [c [d [-> [Ha [Hb [Hc Hd]]]]]]]] | [q [-> [a [b [c [d [-> [Ha [Hb [Hc Hd]]]]]]]]]]].
    + exists a, (b ++ dot :: c ++ dot :: d). split; [reflexivity|]. split; [exact Ha|].
      apply match_group_dot. exists b, (c ++ dot :: d). split; [reflexivity|]. split; [exact Hb|].
      apply match_group_dot. exists c, d. split; [reflexivity|]. split; [exact Hc|].
      apply match_group_end. left. exact Hd.
    + exists a, (b ++ dot :: c ++ dot :: d ++ [newline]). split.
      * rewrite <- !app_assoc. cbn [app]. rewrite <- !app_assoc. cbn [app].
        rewrite <- !app_assoc. reflexivity.
      * split; [exact Ha|].
        apply match_group_dot. exists b, (c ++ dot :: d ++ [newline]).
        split; [reflexivity|]. split; [exact Hb|].
        apply match_group_dot. exists c, (d ++ [newline]).
        split; [reflexivity|]. split; [exact Hc|].
        apply match_group_end. right. exists d. split; [reflexivity | exact Hd].
Qed.

End IpFacts.

Section VerifyFacts.

Context {U : Unicode}.

(** The test an address has to pass (lines 251 and 254): it is not empty,
    the pattern matches it, and the text [85.142] stands somewhere in it. *)
Definition in_range (ip : pystr) : bool :=
  negb (is_empty ip) && re_match ip_pattern ip && contains (u "85.142") ip.

(** What one service adds to the check. *)
Inductive answer : Type :=
| Confirms            (* its address passes the test *)
| Passes              (* it shows something else *)
| Fails.              (* a call of the browser raises *)

Definition answer_of (w : web) (service : pystr) : answer :=
  if get_ok (w service) then
    match body_text (w service) with
    | Some text => if in_range (strip text) then Confirms else Passes
    | None => Fails
    end
  else Fails.

(** The calls made for one service. *)
Definition visit (w : web) (service : pystr) : list check_event :=
  if get_ok (w service) then
    [CheckGet service true; CheckSleep 5; CheckBody (is_some (body_text (w service)))]
  else [CheckGet service false].

Lemma check_services_step w service rest log :
  check_services w (service :: rest) log =
  match answer_of w service with
  | Confirms => (Return true, log ++ visit w service)
  | Passes => check_services w rest (log ++ visit w service)
  | Fails => (Raise, log ++ visit w service)
  end.
Proof.
  cbn [check_services]. unfold answer_of, visit, in_range, check_get, check_emit.
  unfold bind, guard, value, when, ret, py_raise, py_return.
  destruct (get_ok (w service)); [|reflexivity].
  destruct (body_text (w service)) as [text|]; cbn [is_some];
    [|rewrite <- !app_assoc; reflexivity].
  destruct (negb (is_empty (strip text)) && re_match ip_pattern (strip text)); cbn [andb].
  - destruct (contains (u "85.142") (strip text)); rewrite <- !app_assoc; reflexivity.
  - rewrite <- !app_assoc. reflexivity.
Qed.

Lemma check_services_pass w pre : forall rest log,
  Forall (fun s => answer_of w s = Passes) pre ->
  check_services w (pre ++ rest) log = check_services w rest (log ++ flat_map (visit w) pre).
Proof.
  induction pre as [|s pre IH]; intros rest log H.
  - cbn. rewrite app_nil_r. reflexivity.
  - inversion H; subst. cbn [app]. rewrite check_services_step.
    match goal with Hs : answer_of w s = Passes |- _ => rewrite Hs end.
    rewrite IH by assumption. cbn [flat_map]. rewrite app_assoc. reflexivity.
Qed.

Lemma startswith_app p s : startswith p (p ++ s) = true.
Proof.
  induction p as [|x p IH]; [reflexivity|].
  cbn. unfold char_eqb. rewrite N.eqb_refl. exact IH.
Qed.

Lemma contains_middle needle pre post s :
  s = pre ++ needle ++ post -> contains needle s = true.
Proof.
  intros ->. induction pre as [|x pre IH].
  - cbn [app]. destruct (needle ++ post) eqn:E; cbn [contains];
      rewrite <- E, startswith_app; reflexivity.
  - cbn [app contains]. rewrite IH. apply orb_true_r.
Qed.

(** The calls made for [ozon.ru] at the end of the check. *)
Definition visit_ozon (w : web) : list check_event :=
  if get_ok (w ozon_url) then
    [CheckGet ozon_url true; CheckSleep 5; CheckUrl (is_some (url_has_ozon (w ozon_url)))]
  else [CheckGet ozon_url false].

(** The answer of the last step: the page loads and its address holds
    [ozon]. *)
Definition ozon_reached (w : web) : bool :=
  get_ok (w ozon_url) &&
  match url_has_ozon (w ozon_url) with Some b => b | None => false end.

Lemma verify_run w :
  verify_proxy_working w [] =
  match check_services w ip_services [] with
  | (Normal _, log) => (Return (ozon_reached w), log ++ visit_ozon w)
  | (Return b, log) => (Return b, log)
  | (Raise, log) => (Return false, log)
  end.
Proof.
  unfold verify_proxy_working, try_except. unfold bind at 1.
  destruct (check_services w ip_services []) as [[[]|b|] log]; try reflexivity.
  unfold ozon_reached, visit_ozon, check_get, check_emit.
  unfold bind, guard, value, when, ret, py_raise, py_return.
  destruct (get_ok (w ozon_url)); [|reflexivity].
  destruct (url_has_ozon (w ozon_url)) as [[|]|]; cbn; rewrite <- !app_assoc; reflexivity.
Qed.

Lemma flat_map_snoc {A B} (f : A -> list B) l x :
  flat_map f (l ++ [x]) = flat_map f l ++ f x.
Proof. rewrite flat_map_app. cbn. rewrite app_nil_r. reflexivity. Qed.

(** Page loads in a log, and the seconds slept. *)
Definition loads (log : list check_event) : nat :=
  length (filter (fun e => match e with CheckGet _ _ => true | _ => false end) log).

Definition slept (log : list check_event) : nat :=
  fold_right (fun e n => match e with CheckSleep k => k + n | _ => n end) 0 log.

Lemma loads_app a b : loads (a ++ b) = loads a + loads b.
Proof. unfold loads. rewrite filter_app, length_app. reflexivity. Qed.

Lemma slept_app a b : slept (a ++ b) = slept a + slept b.
Proof. unfold slept. induction a as [|[] a IH]; cbn; rewrite ?IH; lia. Qed.

Lemma visit_cost w service : loads (visit w service) = 1 /\ slept (visit w service) <= 5.
Proof. unfold visit. destruct (get_ok (w service)); cbn; lia. Qed.

Lemma visit_ozon_cost w : loads (visit_ozon w) = 1 /\ slept (visit_ozon w) <= 5.
Proof. unfold visit_ozon. destruct (get_ok (w ozon_url)); cbn; lia. Qed.

Lemma check_services_cost w services : forall log,
  loads (snd (check_services w services log)) <= loads log + length services
  /\ slept (snd (check_services w services log)) <= slept log + 5 * length services.
Proof.
  induction services as [|s rest IH]; intros log.
  - cbn [check_services length]. unfold ret. cbn [snd]. lia.
  - rewrite check_services_step. destruct (visit_cost w s) as [H1 H2].
    destruct (answer_of w s); cbn [snd length].
    + rewrite loads_app, slept_app. lia.
    + destruct (IH (log ++ visit w s)) as [I1 I2].
      rewrite loads_app, slept_app in *. lia.
    + rewrite loads_app, slept_app. lia.
Qed.

End VerifyFacts.

Section VerifyClaims.

Context {U : Unicode}.

(** The pattern of the address check accepts exactly four groups of one to
    three digits with dots between them, and the same followed by one
    newline.  The text it is applied to was stripped and ends in no newline.
    The value of a group is not looked at. *)
Theorem ip_pattern_accepts :
  (forall s, re_match ip_pattern s = true <->
             dotted_quad s \/ exists q, s = q ++ [newline] /\ dotted_quad q)
  /\ (forall text, re_match ip_pattern (strip text) = true <-> dotted_quad (strip text)).
Proof.
  split; [apply ip_pattern_quad|].
  intros text. rewrite ip_pattern_quad. split; [|auto].
  intros [H | [q [Hq _]]]; [exact H|].
  apply strip_last in Hq. discriminate.
Qed.

(** The check answers [True] at the first service that shows an address
    passing the test, when the services before it showed something else; the
    services after it and [ozon.ru] are not loaded. *)
Theorem verify_confirmed_by_service (w : web) (pre post : list pystr) (service : pystr) :
  ip_services = pre ++ service :: post ->
  Forall (fun s => answer_of w s = Passes) pre ->
  answer_of w service = Confirms ->
  verify_proxy_working w [] = (Return true, flat_map (visit w) (pre ++ [service]))
  /\ loads (flat_map (visit w) (pre ++ [service])) = length pre + 1.
Proof.
  intros Hs Hpre Hc. split.
  - rewrite verify_run, Hs, check_services_pass by exact Hpre.
    rewrite check_services_step, Hc. rewrite flat_map_snoc. reflexivity.
  - clear Hs Hpre. rewrite flat_map_snoc, loads_app.
    rewrite (proj1 (visit_cost w service)). f_equal.
    induction pre as [|s pre IH]; [reflexivity|].
    cbn [flat_map length]. rewrite loads_app, IH, (proj1 (visit_cost w s)). reflexivity.
Qed.

(** A call of the browser that raises ends the check with [False], whatever
    the services not yet asked would have shown. *)
Theorem verify_browser_error_is_false (w : web) (pre post : list pystr) (service : pystr) :
  ip_services = pre ++ service :: post ->
  Forall (fun s => answer_of w s = Passes) pre ->
  answer_of w service = Fails ->
  verify_proxy_working w [] = (Return false, flat_map (visit w) (pre ++ [service])).
Proof.
  intros Hs Hpre Hc.
  rewrite verify_run, Hs, check_services_pass by exact Hpre.
  rewrite check_services_step, Hc. rewrite flat_map_snoc. reflexivity.
Qed.

(** When no service shows an address that passes the test, and none raises,
    the answer is whether [ozon.ru] loads with [ozon] in its address: a
    browser whose address is outside the expected range still passes the
    check. *)
Theorem verify_falls_back_to_ozon (w : web) :
  Forall (fun s => answer_of w s = Passes) ip_services ->
  verify_proxy_working w []
  = (Return (ozon_reached w), flat_map (visit w) ip_services ++ visit_ozon w).
Proof.
  intros H. rewrite verify_run.
  rewrite <- (app_nil_r ip_services) at 1.
  rewrite check_services_pass by exact H. reflexivity.
Qed.

(** The check always answers: no exception leaves it, it loads at most four
    pages and sleeps at most twenty seconds. *)
Theorem verify_always_answers (w : web) :
  exists b log,
    verify_proxy_working w [] = (Return b, log) /\ loads log <= 4 /\ slept log <= 20.
Proof.
  rewrite verify_run.
  destruct (check_services_cost w ip_services []) as [H1 H2].
  destruct (visit_ozon_cost w) as [H3 H4].
  destruct (check_services w ip_services []) as [[[]|b|] log]; cbn [snd] in *;
    eexists _, _; (split; [reflexivity|]);
    rewrite ?loads_app, ?slept_app; cbn in *; lia.
Qed.

(** The range test is a test for a substring: an address with [85.142] in
    its second and third group, or with a first group that only ends in
    [85], passes it as well. *)
Theorem in_range_is_a_substring_test (a b : pystr) :
  digit_group a -> digit_group b ->
  in_range (a ++ u ".85.142." ++ b) = true
  /\ in_range (u "185.142." ++ a ++ dot :: b) = true.
Proof.
  intros Ha Hb. unfold in_range. split.
  - apply andb_true_iff. split; [apply andb_true_iff; split|].
    + destruct a; [destruct Ha as [Hl _]; simpl in Hl; lia | reflexivity].
    + apply ip_pattern_quad. left. exists a, (u "85"), (u "142"), b.
      split; [reflexivity|]. split; [exact Ha|].
      split; [split; [cbn; lia | reflexivity]|].
      split; [split; [cbn; lia | reflexivity] | exact Hb].
    + apply (contains_middle (u "85.142") (a ++ [dot]) (dot :: b)).
      rewrite <- app_assoc. reflexivity.
  - apply andb_true_iff. split; [apply andb_true_iff; split|].
    + reflexivity.
    + apply ip_pattern_quad. left. exists (u "185"), (u "142"), a, b.
      split; [reflexivity|].
      split; [split; [cbn; lia | reflexivity]|].
      split; [split; [cbn; lia | reflexivity]|]. split; assumption.
    + apply (contains_middle (u "85.142") (u "1") (dot :: a ++ dot :: b)). reflexivity.
Qed.

End VerifyClaims.

(* ------------------------------------------------------------------ *)
(** ** More about the phone number and the session factory *)

(** Formatting a formatted number changes nothing; a number that formatting
    changes comes out as [+7] and at most ten more characters. *)
Theorem format_phone_is_idempotent (phone_number : pystr) :
  format_phone (format_phone phone_number) = format_phone phone_number
  /\ (format_phone phone_number = phone_number
      \/ (startswith (u "+7") (format_phone phone_number) = true
          /\ length (format_phone phone_number) <= 12)).
Proof.
  unfold format_phone.
  destruct (startswith (u "+") phone_number) eqn:Eplus; cbn [negb].
  - rewrite Eplus. cbn [negb]. auto.
  - destruct (startswith (u "9") phone_number || startswith (u "8") phone_number) eqn:E98.
    + split; [reflexivity|]. right. split; [reflexivity|].
      rewrite length_app. unfold last_chars. rewrite length_skipn. cbn. lia.
    + rewrite Eplus, E98. cbn [negb]. auto.
Qed.

Lemma in_add_nat x l : In x (add_nat x l).
Proof.
  pose proof (exists_add_nat x l) as H. apply existsb_exists in H.
  destruct H as [y [Hin Hy]]. apply Nat.eqb_eq in Hy. subst y. exact Hin.
Qed.

(** When [execute_cdp_cmd] raises, the browser that was just launched is
    neither quit nor returned: the factory returns [(None, plugin_path)]
    after asking for the removal of the artifact, and the session is still
    live. *)
Theorem setup_cdp_failure_leaves_browser (tag : option nat) (e : setup_env) (s : run_state) :
  zip_open_ok e && zip_write_ok e && add_extension_ok e && driver_ok e && launch_ok e = true ->
  cdp_ok e = false ->
  let b := launches (r_log s) in
  setup_browser_with_proxy tag e s
  = (Return (None, Some (stamp e)),
     mk_run_state (r_df s) (r_file s)
       (r_log s ++ [(tag, RunCreate (stamp e)); (tag, RunLaunch b);
                    (tag, RunRemove (stamp e) (cleanup_ok e))]))
  /\ In b (live_sessions (r_log (snd (setup_browser_with_proxy tag e s)))).
Proof.
  intros Hok Hcdp b.
  repeat (apply andb_true_iff in Hok; destruct Hok as [Hok ?]).
  rewrite setup_run. unfold setup_outcome.
  repeat match goal with H : _ = true |- _ => rewrite H; clear H end.
  rewrite Hcdp. cbn [andb fst snd r_log]. split; [reflexivity|].
  unfold live_sessions. rewrite resources_app. fold b.
  assert (Hlive : forall st,
            snd (fold_left resources_step
                   [(tag, RunCreate (stamp e)); (tag, RunLaunch b);
                    (tag, RunRemove (stamp e) (cleanup_ok e))] st) = add_nat b (snd st)).
  { intros st. destruct (cleanup_ok e); reflexivity. }
  rewrite Hlive. apply in_add_nat.
Qed.

(* ------------------------------------------------------------------ *)
(** ** The batch: loading the store *)

Section BatchMore.

Context {U : Unicode} {XL : Excel}.

(** Loading the store.  When the updated file exists, the original file is
    not looked at.  When the store cannot be loaded (no file can be read, the
    copy cannot be written, or the new [Cookies] column cannot be saved), the
    run ends there: no session is built and nothing more is written. *)
Theorem store_loading (env : batch_env) (f : frame) (source source' : option frame) :
  run_main env source (Some f) = run_main env source' (Some f)
  /\ run_main env None None = (false, None, [])
  /\ (copy_ok env = false -> run_main env (Some f) None = (false, None, []))
  /\ (cookies_column f = false -> column_save_ok env = false ->
      run_main env source (Some f) = (false, Some f, []))
  /\ (copy_ok env = true -> cookies_column f = false -> column_save_ok env = false ->
      run_main env (Some f) None = (false, Some (excel_view f), [(None, RunFileWritten)])).
Proof.
  split.
  { unfold run_main.
    assert (H : main env source (mk_run_state (mk_frame false false []) (Some f) [])
                = main env source' (mk_run_state (mk_frame false false []) (Some f) [])).
    { unfold main. unfold bind at 1. unfold bind at 3. unfold try_except.
      assert (Hl : load_store env source (mk_run_state (mk_frame false false []) (Some f) [])
                   = load_store env source' (mk_run_state (mk_frame false false []) (Some f) []))
        by reflexivity.
      rewrite Hl. reflexivity. }
    rewrite H. reflexivity. }
  unfold run_main, main, load_store, write_target.
  unfold try_except, bind, guard, value, ret, py_raise, py_return.
  split; [reflexivity|]. split; [|split].
  - intros Hc. cbn. rewrite Hc. reflexivity.
  - intros Hcol Hs. cbn. rewrite Hcol, Hs. reflexivity.
  - intros Hc Hcol Hs. cbn. rewrite Hc. cbn. rewrite Hcol, Hs. reflexivity.
Qed.

End BatchMore.

(* ------------------------------------------------------------------ *)
(** ** The batch: the exception that leaves [main] *)

Section BatchFlow.

Context {U : Unicode} {XL : Excel}.

(** The cleanup of lines 473-483 and 522-532 always ends normally. *)
Lemma teardown_returns {R} tag browser plugin_path q r s :
  exists s', @teardown R tag browser plugin_path q r s = (Normal tt, s').
Proof.
  unfold teardown, quit_if_open, remove_if_there, quit_browser, remove_path, path_exists.
  unfold try_except, bind, run_emit, guard, when, ret, py_raise.
  destruct browser as [b|]; [destruct q|]; cbn -[artifacts];
    (destruct plugin_path as [p|]; [|eexists; reflexivity]);
    cbn -[artifacts];
    match goal with
    | |- context [existsb ?f ?l] => destruct (existsb f l)
    end; cbn -[artifacts]; try (destruct r; cbn -[artifacts]); eexists; reflexivity.
Qed.

(** The exception of the one call that no handler covers: [browser.quit()]
    on line 495, after a failed proxy check. *)
Definition unguarded_quit (env : account_env) (index : nat) (log : list entry) : Prop :=
  exists b pre,
    log = pre ++ [(Some index, RunQuit b false)]
    /\ verify_ok env = false /\ quit_unverified_ok env = false.

Lemma use_session_raise env index row has_identity b s s' :
  use_session env index row has_identity b s = (Raise, s') ->
  unguarded_quit env index (r_log s').
Proof.
  unfold use_session, quit_browser, try_except, bind, run_emit, guard, ret, py_raise.
  cbn. destruct (verify_ok env) eqn:Ev; cbn.
  - destruct has_identity; cbn; [|discriminate].
    destruct (run_login_run index (login env) (strip (phone row))
                (mk_run_state (r_df s) (r_file s)
                   (r_log s ++ [(Some index, RunVerify b true)]))) as [evs [_ Hf]].
    destruct (run_login index (login env) (strip (phone row)) _) as [[v|r|] s1];
      cbn in *.
    + destruct (delete_cookies_ok env); cbn; discriminate.
    + destruct Hf as [Hf | [v Hf]]; discriminate.
    + discriminate.
  - destruct (quit_unverified_ok env) eqn:Eq; cbn; [discriminate|].
    intros H. inversion H; subst s'.
    exists b, (r_log s ++ [(Some index, RunVerify b false)]). auto.
Qed.

Lemma iteration_raise env index row has_identity browser plugin_path s s' :
  iteration env index row has_identity browser plugin_path s = (Raise, s') ->
  unguarded_quit env index (r_log s').
Proof.
  unfold iteration. destruct (done (cookies row)); [discriminate|].
  unfold bind at 1.
  destruct (@teardown_returns unit (Some index) browser plugin_path
              (quit_previous_ok env) (remove_previous_ok env) s) as [s1 ->].
  unfold bind at 1. unfold invoke. rewrite setup_run. cbn [fst snd].
  destruct (fst (fst (setup_outcome (Some index) (setup env) (launches (r_log s1)))))
    as [b|]; [|discriminate].
  unfold bind.
  match goal with
  | |- context [use_session env index row has_identity b ?s2] =>
      pose proof (use_session_raise env index row has_identity b s2) as H;
      destruct (use_session env index row has_identity b s2) as [[[]|r|] s3]
  end; try discriminate.
  intros H'. inversion H'; subst s'. apply (H s3). reflexivity.
Qed.

Lemma main_loop_raise env has_identity items : forall browser plugin_path s s',
  main_loop env has_identity items browser plugin_path s = (Raise, s') ->
  exists index, unguarded_quit (per_account env index) index (r_log s').
Proof.
  induction items as [|[index row] items IH]; intros browser plugin_path s s'; [discriminate|].
  cbn [main_loop]. unfold bind at 1.
  pose proof (iteration_raise (per_account env index) index row has_identity
                browser plugin_path s) as Hi.
  destruct (iteration (per_account env index) index row has_identity browser plugin_path s)
    as [[made|r|] s1].
  - apply IH.
  - discriminate.
  - intros H. inversion H; subst s'. exists index. apply (Hi s1). reflexivity.
Qed.

End BatchFlow.

Section BatchFlowClaims.

Context {U : Unicode} {XL : Excel}.

(** A run of [main] is left by an exception only through the one call that
    no handler covers: [browser.quit()] on line 495, when the proxy check of
    an account failed and quitting its browser raises.  That call is then the
    last thing the run did: the accounts after it are not processed, and the
    final cleanup does not run. *)
Theorem main_raises_only_at_unguarded_quit (env : batch_env) (source target : option frame) :
  fst (fst (run_main env source target)) = true ->
  exists index, unguarded_quit (per_account env index) index (snd (run_main env source target)).
Proof.
  unfold run_main. cbn [fst snd].
  set (s0 := mk_run_state (mk_frame false false []) target []).
  destruct (main env source s0) as [f s'] eqn:Em. cbn [fst snd].
  destruct f as [a|r|]; try discriminate. intros _.
  unfold main in Em. unfold bind at 1 in Em. unfold try_except in Em.
  destruct (load_store env source s0) as [[[]|r|] s1]; try discriminate.
  unfold bind at 1 in Em. unfold bind at 1 in Em.
  pose proof (main_loop_raise env (identity_columns (r_df s1)) (iterrows (r_df s1))
                None None s1) as Hl.
  destruct (main_loop env (identity_columns (r_df s1)) (iterrows (r_df s1)) None None s1)
    as [[last|r|] s2].
  - destruct (@teardown_returns unit None (fst last) (snd last)
                (final_quit_ok env) (final_remove_ok env) s2) as [s3 Ht].
    rewrite Ht in Em. discriminate.
  - discriminate.
  - inversion Em; subst s'. apply (Hl s2). reflexivity.
Qed.

End BatchFlowClaims.

(* ------------------------------------------------------------------ *)
(** ** The batch: sessions launched *)

Section BatchCount.

Context {U : Unicode} {XL : Excel}.













End BatchCount.

Section BatchCountClaims.

Context {U : Unicode} {XL : Excel}.


End BatchCountClaims.

(* ------------------------------------------------------------------ *)
(** ** The batch: cookies that were saved *)

(** The [Cookies] cell of row [i]. *)
Definition cell_at (i : nat) (f : frame) : option cell :=
  option_map cookies (nth_error (rows f) i).

Lemma update_row_same g l : forall i,
  nth_error (update_row i g l) i = option_map g (nth_error l i).
Proof.
  induction l as [|r l IH]; intros [|i]; cbn; try reflexivity. apply IH.
Qed.

Lemma update_row_length g l : forall i, length (update_row i g l) = length l.
Proof.
  induction l as [|r l IH]; intros [|i]; cbn; try reflexivity. rewrite IH. reflexivity.
Qed.

Lemma cell_at_set_other i j text f : j <> i -> cell_at i (set_cookies j text f) = cell_at i f.
Proof. intros H. unfold cell_at. cbn. rewrite update_row_other by auto. reflexivity. Qed.

Lemma cell_at_set_same i text f :
  i < length (rows f) -> cell_at i (set_cookies i text f) = Some (Text text).
Proof.
  intros H. unfold cell_at. cbn. rewrite update_row_same.
  destruct (nth_error (rows f) i) eqn:E; [reflexivity|].
  apply nth_error_None in E. lia.
Qed.

Lemma cell_at_excel {XL : Excel} i f :
  cell_at i (excel_view f) = option_map excel_cell (cell_at i f).
Proof.
  unfold cell_at. cbn. rewrite nth_error_map.
  destruct (nth_error (rows f) i); reflexivity.
Qed.

Lemma cell_at_some i f c : cell_at i f = Some c -> i < length (rows f).
Proof.
  unfold cell_at. intros H. apply nth_error_Some. destruct (nth_error (rows f) i); [|discriminate].
  discriminate.
Qed.

(** Row [i] holds [text] as its cookies in the frame, and what [to_excel]
    makes of it in the file. *)
Definition holds_cookies {XL : Excel} (i : nat) (text : pystr) (df : frame)
    (file : option frame) : Prop :=
  cell_at i df = Some (Text text)
  /\ exists f, file = Some f /\ cell_at i f = Some (excel_cell (Text text)).

Section LoginPersist.

Context {U : Unicode} {XL : Excel}.

Variable e : login_env.
Variable phone_number : pystr.
Variable j : nat.

(** No login changes the cookies another login has saved; the login of the
    same account can only save the same cookies again. *)
Lemma login_keeps_cookies i text :
  (j = i -> forall t, session_cookies e = Some t -> t = text) ->
  triple (fun s => holds_cookies i text (l_df s) (l_file s))
         (login_to_ozon e phone_number j) (fun _ _ => False)
         (fun _ s => holds_cookies i text (l_df s) (l_file s))
         (fun s => holds_cookies i text (l_df s) (l_file s)).
Proof.
  intros Hsame.
  apply (login_triple e phone_number j
           (fun s => holds_cookies i text (l_df s) (l_file s))
           (fun s => holds_cookies i text (l_df s) (l_file s))
           (fun s => holds_cookies i text (l_df s) (l_file s))); auto.
  - intros s H. destruct (otp_found e); exact H.
  - intros name s H. destruct (shot e name); exact H.
  - intros s [Hdf Hfile].
    unfold save_cookies, write_excel, assign_cookies, store_file, ui_emit.
    unfold bind, guard, value, ret, py_raise, py_return.
    destruct (session_cookies e) as [t|] eqn:Ec; cbn; [|split; assumption].
    assert (Hcell : cell_at i (set_cookies j t (l_df s)) = Some (Text text)).
    { destruct (Nat.eq_dec j i) as [Heq|Hne].
      - rewrite (Hsame Heq t eq_refl). subst j. apply cell_at_set_same.
        apply (cell_at_some _ _ _ Hdf).
      - rewrite cell_at_set_other by exact Hne. exact Hdf. }
    destruct (to_excel_ok e); cbn.
    + split; [exact Hcell|]. eexists. split; [reflexivity|].
      rewrite cell_at_excel, Hcell. reflexivity.
    + split; [exact Hcell | exact Hfile].
Qed.

(** The store was not written in this login. *)
Definition no_write (s : login_state) : Prop := ~ In (UiToExcel true) (l_log s).

Lemma no_write_snoc ev s : ev <> UiToExcel true -> no_write s -> no_write (logged s [ev]).
Proof.
  intros Hev H Hin. cbn in Hin. apply in_app_or in Hin.
  destruct Hin as [Hin | [Hin | []]]; [exact (H Hin) | exact (Hev Hin)].
Qed.

(** A successful [to_excel] is followed by [return True]. *)
Lemma login_write_returns :
  triple no_write (login_to_ozon e phone_number j) (fun _ _ => False)
         (fun r s => if r then True else no_write s) no_write.
Proof.
  apply (login_triple e phone_number j no_write no_write no_write); auto.
  - intros ev Hev s H. apply no_write_snoc; [|exact H]. destruct ev; try discriminate.
    contradiction.
  - intros s H. destruct (otp_found e); apply no_write_snoc; try discriminate; exact H.
  - intros s H Hin. cbn in Hin. apply in_app_or in Hin. destruct Hin as [Hin|Hin]; [exact (H Hin)|].
    apply in_map_iff in Hin. destruct Hin as [m [Hm _]]. discriminate.
  - intros ev Hev s H. apply no_write_snoc; [|exact H]. destruct ev; try discriminate.
    contradiction.
  - intros name s H. destruct (shot e name); apply no_write_snoc; try discriminate; exact H.
  - intros s H.
    unfold save_cookies, write_excel, assign_cookies, store_file, ui_emit.
    unfold bind, guard, value, ret, py_raise, py_return.
    destruct (session_cookies e) as [t|]; cbn.
    + destruct (to_excel_ok e); cbn; [exact I|].
      change (no_write (logged (logged (logged s [UiGetCookies true])
                                  [UiSetCookies j t]) [UiToExcel false])).
      repeat (apply no_write_snoc; [discriminate|]). exact H.
    + apply (no_write_snoc (UiGetCookies false) s); [discriminate | exact H].
Qed.

End LoginPersist.

Section BatchPersist.

Context {U : Unicode} {XL : Excel}.

Variable env : batch_env.
Variable i : nat.
Variable n : nat.

(** The entry of a successful [to_excel] in the login of account [i]. *)
Definition written : entry := (Some i, RunUi (UiToExcel true)).

(** The frame has [n] rows, and if the login of account [i] has written the
    store, the cookies of its session are in row [i] of the frame and of the
    file. *)
Definition persisted (s : run_state) : Prop :=
  length (rows (r_df s)) = n
  /\ (In written (r_log s) ->
      exists text, session_cookies (login (per_account env i)) = Some text
                   /\ holds_cookies i text (r_df s) (r_file s)).

Lemma persisted_append df file log df' file' evs :
  persisted (mk_run_state df file log) ->
  length (rows df') = n ->
  ~ In written evs ->
  (forall text, holds_cookies i text df file -> holds_cookies i text df' file') ->
  persisted (mk_run_state df' file' (log ++ evs)).
Proof.
  intros [Hn Hp] Hn' Hev Hkeep. split; [exact Hn'|]. cbn [r_log r_df r_file] in *.
  intros Hin. apply in_app_or in Hin. destruct Hin as [Hin|Hin]; [|destruct (Hev Hin)].
  destruct (Hp Hin) as [text [Ht Hh]]. exists text. split; [exact Ht | apply Hkeep; exact Hh].
Qed.

Lemma persisted_emit {R} tag ev :
  (forall x, ev <> RunUi x) -> preserves persisted (@run_emit R tag ev).
Proof.
  intros Hev s H. destruct s as [df file log]. unfold run_emit. cbn [snd r_df r_file r_log].
  apply (persisted_append df file log df file [(tag, ev)] H).
  - apply H.
  - intros [Hin|[]]. inversion Hin. eapply Hev. eauto.
  - auto.
Qed.

Lemma persisted_teardown {R} tag browser plugin_path q r :
  preserves persisted (@teardown R tag browser plugin_path q r).
Proof.
  unfold teardown, quit_if_open, remove_if_there, quit_browser, remove_path, path_exists.
  repeat first
    [ apply persisted_emit; discriminate
    | preserves_step
    | (intros s H; exact H) ].
Qed.

Lemma setup_outcome_events tag e b :
  Forall (fun en : entry => forall x, snd en <> RunUi x) (snd (setup_outcome tag e b)).
Proof.
  unfold setup_outcome.
  destruct (zip_open_ok e), (zip_write_ok e),
    (add_extension_ok e && driver_ok e && launch_ok e), (cdp_ok e);
    cbn; repeat constructor; discriminate.
Qed.

Lemma persisted_setup tag e : preserves persisted (setup_browser_with_proxy tag e).
Proof.
  intros s H. rewrite setup_run. cbn [snd]. destruct s as [df file log].
  cbn [r_df r_file r_log].
  apply (persisted_append df file log df file _ H).
  - apply H.
  - intros Hin.
    pose proof (setup_outcome_events tag e (launches log)) as Hev.
    rewrite Forall_forall in Hev. apply (Hev _ Hin (UiToExcel true)). reflexivity.
  - auto.
Qed.

Lemma set_cookies_length j text f : length (rows (set_cookies j text f)) = length (rows f).
Proof. cbn. apply update_row_length. Qed.

(** The login of account [j], one of the [n] accounts. *)
Lemma persisted_login j phone_number :
  j < n -> preserves persisted (run_login j (login (per_account env j)) phone_number).
Proof.
  intros Hj s H. destruct s as [df file log]. destruct H as [Hn Hp].
  cbn [r_df r_file r_log] in *.
  set (e := login (per_account env j)).
  pose proof (login_store e phone_number j df file (mk_login_state df file [])
                (conj eq_refl eq_refl)) as Hstore.
  pose proof (login_write_returns e phone_number j (mk_login_state df file [])
                (fun H => H)) as Hwrite.
  assert (Hkeep : forall text,
            (j = i -> forall t, session_cookies e = Some t -> t = text) ->
            holds_cookies i text df file ->
            holds_cookies i text
              (l_df (snd (login_to_ozon e phone_number j (mk_login_state df file []))))
              (l_file (snd (login_to_ozon e phone_number j (mk_login_state df file []))))).
  { intros text Hsame Hh.
    pose proof (login_keeps_cookies e phone_number j i text Hsame
                  (mk_login_state df file []) Hh) as Hk.
    destruct (login_to_ozon e phone_number j (mk_login_state df file [])) as [[[]|b|] ls];
      cbn [snd]; [destruct Hk | exact Hk | exact Hk]. }
  unfold run_login. cbn [r_df r_file r_log].
  destruct (login_to_ozon e phone_number j (mk_login_state df file [])) as [fl ls].
  cbn [fst snd] in *.
  assert (Hres : persisted
            (mk_run_state (l_df ls) (l_file ls)
               (log ++ map (fun ev => (Some j, RunUi ev)) (l_log ls)))).
  { assert (Hlen : length (rows (l_df ls)) = n).
    { destruct fl as [[]|[|]|].
      - destruct Hstore.
      - destruct Hstore as [t [_ [_ [Hd _]]]]. rewrite Hd, set_cookies_length. exact Hn.
      - destruct Hstore as [_ [Hd | [t [_ [_ Hd]]]]]; rewrite Hd, ?set_cookies_length; exact Hn.
      - destruct Hstore as [_ [Hd | [t [_ [_ Hd]]]]]; rewrite Hd, ?set_cookies_length; exact Hn. }
    split; [exact Hlen|]. cbn [r_df r_file r_log].
    intros Hin. apply in_app_or in Hin. destruct Hin as [Hin|Hin].
    - destruct (Hp Hin) as [text [Ht Hh]]. exists text. split; [exact Ht|].
      apply Hkeep; [|exact Hh]. intros -> t Hc. unfold e in Hc. congruence.
    - apply in_map_iff in Hin. destruct Hin as [ev [Hev Hin]].
      unfold written in Hev. inversion Hev; subst.
      destruct fl as [[]|[|]|]; try (exfalso; exact (Hwrite Hin)).
      + destruct Hstore.
      + destruct Hstore as [t [Ht [_ [Hd Hf]]]]. exists t. split; [exact Ht|]. split.
        * rewrite Hd. apply cell_at_set_same. lia.
        * eexists. split; [exact Hf|]. rewrite cell_at_excel, cell_at_set_same by lia.
          reflexivity. }
  destruct fl; exact Hres.
Qed.

Lemma persisted_use_session j row has_identity b :
  j < n -> preserves persisted (use_session (per_account env j) j row has_identity b).
Proof.
  intros Hj. unfold use_session, quit_browser.
  repeat first
    [ apply persisted_emit; discriminate
    | apply persisted_login; assumption
    | preserves_step ].
Qed.

Lemma persisted_iteration j row has_identity browser plugin_path :
  j < n ->
  preserves persisted (iteration (per_account env j) j row has_identity browser plugin_path).
Proof.
  intros Hj. unfold iteration.
  repeat first
    [ apply persisted_emit; discriminate
    | apply persisted_teardown
    | apply persisted_setup
    | apply persisted_use_session; assumption
    | preserves_step ].
Qed.

Lemma persisted_main_loop has_identity items : forall browser plugin_path,
  (forall j r, In (j, r) items -> j < n) ->
  preserves persisted (main_loop env has_identity items browser plugin_path).
Proof.
  induction items as [|[j r] items IH]; intros browser plugin_path Hitems.
  - apply preserves_ret.
  - cbn [main_loop]. apply preserves_bind.
    + apply persisted_iteration. apply (Hitems j r). left. reflexivity.
    + intros now. apply IH. intros j' r' Hin. apply (Hitems j' r'). right. exact Hin.
Qed.

End BatchPersist.

Section BatchPersistClaims.

Context {U : Unicode} {XL : Excel}.

(** No login has been logged. *)
Definition no_login_yet (s : run_state) : Prop :=
  forall tag ev, ~ In (tag, RunUi ev) (r_log s).

Lemma load_no_login env source : preserves no_login_yet (load_store env source).
Proof.
  assert (Hw : forall ok df, preserves no_login_yet (write_target ok df)).
  { intros ok df. unfold write_target. apply preserves_bind; [apply preserves_guard|].
    intros _ s H tag ev Hin. cbn [snd r_log] in Hin. apply in_app_or in Hin.
    destruct Hin as [Hin | [Hin | []]]; [exact (H tag ev Hin) | discriminate]. }
  unfold load_store.
  repeat first [ apply Hw | preserves_step | (intros s H; exact H) ].
Qed.

Lemma iterrows_bound f j r : In (j, r) (iterrows f) -> j < length (rows f).
Proof.
  intros Hin. unfold iterrows in Hin. apply in_combine_seq in Hin.
  destruct Hin as [_ Hn]. rewrite Nat.sub_0_r in Hn.
  apply nth_error_Some. rewrite Hn. discriminate.
Qed.

Lemma main_persisted env source i s :
  no_login_yet s ->
  exists f s',
    main env source s = (f, s')
    /\ ((exists n, persisted env i n s') \/ no_login_yet s').
Proof.
  intros H0. pose proof (load_no_login env source s H0) as H1.
  unfold main. unfold bind at 1. unfold try_except.
  destruct (load_store env source s) as [[[]|r|] s1]; cbn [snd] in H1.
  - unfold bind at 1. unfold bind at 1.
    assert (Hp1 : persisted env i (length (rows (r_df s1))) s1).
    { split; [reflexivity|]. intros Hin. destruct (H1 _ _ Hin). }
    pose proof (persisted_main_loop env i (length (rows (r_df s1)))
                  (identity_columns (r_df s1)) (iterrows (r_df s1)) None None
                  (iterrows_bound (r_df s1)) s1 Hp1) as Hp2.
    destruct (main_loop env (identity_columns (r_df s1)) (iterrows (r_df s1)) None None s1)
      as [[last|r|] s2]; cbn [snd] in *.
    + pose proof (persisted_teardown env i (length (rows (r_df s1))) (R := unit) None
                    (fst last) (snd last) (final_quit_ok env) (final_remove_ok env) s2 Hp2)
        as Hp3.
      destruct (teardown None (fst last) (snd last) (final_quit_ok env) (final_remove_ok env) s2)
        as [f3 s3]. cbn [snd] in *.
      eexists _, _. split; [reflexivity|]. left. eexists. exact Hp3.
    + eexists _, _. split; [reflexivity|]. left. eexists. exact Hp2.
    + eexists _, _. split; [reflexivity|]. left. eexists. exact Hp2.
  - eexists _, _. split; [reflexivity|]. right. exact H1.
  - unfold py_return. eexists _, _. split; [reflexivity|]. right. exact H1.
Qed.

(** Once the login of an account has written the store, its row of the file
    holds, to the end of the run and whatever happens to the accounts after
    it, what [read_excel] gives back for the text of the cookies of its
    session.  When that text is read as it was written and is not empty, the
    row counts as done for the next run. *)
Theorem saved_cookies_stay_in_the_file (env : batch_env) (source target : option frame)
    (i : nat) :
  In (Some i, RunUi (UiToExcel true)) (snd (run_main env source target)) ->
  exists text f row,
    session_cookies (login (per_account env i)) = Some text
    /\ snd (fst (run_main env source target)) = Some f
    /\ nth_error (rows f) i = Some row
    /\ cookies row = excel_cell (Text text)
    /\ (as_read (Text text) -> text <> [] -> done (cookies row) = true).
Proof.
  unfold run_main. cbn [fst snd].
  destruct (main_persisted env source i (mk_run_state (mk_frame false false []) target []))
    as [f [s' [Em [[n [_ Hp]] | Hno]]]]; [intros tag ev [] | |];
    rewrite Em; cbn [fst snd]; intros Hin; [|destruct (Hno _ _ Hin)].
  destruct (Hp Hin) as [text [Ht [_ [f' [Hf Hc]]]]].
  unfold cell_at in Hc. destruct (nth_error (rows f') i) as [row|] eqn:Er; [|discriminate].
  inversion Hc as [Hrow]. exists text, f', row. repeat split; try assumption.
  intros Has Hne. rewrite Hrow, Has. cbn. destruct text; [destruct (Hne eq_refl) | reflexivity].
Qed.

End BatchPersistClaims.

(* ------------------------------------------------------------------ *)
(** ** The batch: phone numbers and the proxy check *)

Section BatchPhones.

Context {U : Unicode} {XL : Excel}.

Variable f : frame.

(** A number typed in the login of account [j] is the phone of row [j],
    stripped and formatted. *)
Definition phone_of_row (en : entry) : Prop :=
  match en with
  | (tag, RunUi (UiTypePhone t _)) =>
      exists j row, tag = Some j /\ nth_error (rows f) j = Some row
                    /\ t = format_phone (strip (phone row))
  | _ => True
  end.

Definition phones_of_rows (s : run_state) : Prop := Forall phone_of_row (r_log s).

Lemma phones_emit {R} tag ev :
  (forall x, ev <> RunUi x) -> preserves phones_of_rows (@run_emit R tag ev).
Proof.
  intros Hev s H. unfold phones_of_rows, run_emit in *. cbn [snd r_log].
  apply Forall_app. split; [exact H|]. constructor; [|constructor].
  destruct ev; try exact I. exfalso. eapply Hev. reflexivity.
Qed.

Lemma phones_teardown {R} tag browser plugin_path q r :
  preserves phones_of_rows (@teardown R tag browser plugin_path q r).
Proof.
  unfold teardown, quit_if_open, remove_if_there, quit_browser, remove_path, path_exists.
  repeat first
    [ apply phones_emit; discriminate
    | preserves_step
    | (intros s H; exact H) ].
Qed.

Lemma phones_setup tag e : preserves phones_of_rows (setup_browser_with_proxy tag e).
Proof.
  intros s H. rewrite setup_run. cbn [snd]. unfold phones_of_rows in *. cbn [r_log].
  apply Forall_app. split; [exact H|].
  eapply Forall_impl; [|apply setup_outcome_events].
  intros [tag' ev] Hev. cbn in *. destruct ev; try exact I. exfalso. eapply Hev. reflexivity.
Qed.

Lemma phones_login j row e :
  nth_error (rows f) j = Some row ->
  preserves phones_of_rows (run_login j e (strip (phone row))).
Proof.
  intros Hrow s H.
  pose proof (login_types_phone e (strip (phone row)) j
                (mk_login_state (r_df s) (r_file s) []) (Forall_nil _)) as Ht.
  unfold log_all in Ht. unfold run_login.
  destruct (login_to_ozon e (strip (phone row)) j (mk_login_state (r_df s) (r_file s) []))
    as [fl ls]. cbn [fst snd] in *.
  assert (Hres : phones_of_rows
            (mk_run_state (l_df ls) (l_file ls)
               (r_log s ++ map (fun ev => (Some j, RunUi ev)) (l_log ls)))).
  { unfold phones_of_rows in *. cbn [r_log]. apply Forall_app. split; [exact H|].
    apply Forall_forall. intros en Hin. apply in_map_iff in Hin.
    destruct Hin as [ev [<- Hin]]. rewrite Forall_forall in Ht. specialize (Ht ev Hin).
    destruct ev; try exact I. cbn in Ht. cbn. exists j, row. auto. }
  destruct fl; exact Hres.
Qed.

Lemma phones_use_session env j row has_identity b :
  nth_error (rows f) j = Some row ->
  preserves phones_of_rows (use_session env j row has_identity b).
Proof.
  intros Hrow. unfold use_session, quit_browser.
  repeat first
    [ apply phones_emit; discriminate
    | apply phones_login; assumption
    | preserves_step ].
Qed.

Lemma phones_iteration env j row has_identity browser plugin_path :
  nth_error (rows f) j = Some row ->
  preserves phones_of_rows (iteration env j row has_identity browser plugin_path).
Proof.
  intros Hrow. unfold iteration.
  repeat first
    [ apply phones_emit; discriminate
    | apply phones_teardown
    | apply phones_setup
    | apply phones_use_session; assumption
    | preserves_step ].
Qed.

Lemma phones_main_loop env has_identity items : forall browser plugin_path,
  (forall j r, In (j, r) items -> nth_error (rows f) j = Some r) ->
  preserves phones_of_rows (main_loop env has_identity items browser plugin_path).
Proof.
  induction items as [|[j r] items IH]; intros browser plugin_path Hitems.
  - apply preserves_ret.
  - cbn [main_loop]. apply preserves_bind.
    + apply phones_iteration. apply (Hitems j r). left. reflexivity.
    + intros now. apply IH. intros j' r' Hin. apply (Hitems j' r'). right. exact Hin.
Qed.

End BatchPhones.

Section BatchPhonesClaims.

Context {U : Unicode} {XL : Excel}.

(** What a run types into the phone field in the login of account [j] is
    the phone of row [j] of the file, stripped of the white space around it
    and then formatted. *)
Theorem typed_phone_is_the_row_phone (env : batch_env) (source : option frame) (f : frame)
    (j : nat) (t : pystr) (b : bool) :
  cookies_column f = true ->
  In (Some j, RunUi (UiTypePhone t b)) (snd (run_main env source (Some f))) ->
  exists row, nth_error (rows f) j = Some row /\ t = format_phone (strip (phone row)).
Proof.
  intros Hc. unfold run_main. cbn [snd].
  set (s0 := mk_run_state (mk_frame false false []) (Some f) []).
  assert (Hk : phones_of_rows f (snd (main env source s0))).
  { unfold main. unfold bind at 1. unfold try_except.
    rewrite (load_present env source f s0 eq_refl Hc). cbn [r_file r_log s0].
    unfold bind at 1. cbn [r_df].
    apply preserves_bind.
    - apply phones_main_loop. intros j' r Hin. unfold iterrows in Hin.
      apply in_combine_seq in Hin. destruct Hin as [_ Hn]. rewrite Nat.sub_0_r in Hn. exact Hn.
    - intros last. apply phones_teardown.
    - constructor. }
  intros Hin. unfold phones_of_rows in Hk. rewrite Forall_forall in Hk.
  specialize (Hk _ Hin). cbn in Hk. destruct Hk as [j' [row [Hj [Hrow Ht]]]].
  inversion Hj; subst j'. exists row. auto.
Qed.

End BatchPhonesClaims.

Section BatchChecked.

Context {U : Unicode} {XL : Excel}.

Variable env : batch_env.
Variable i : nat.

(** The proxy check of account [i] was made and passed. *)
Definition check_passed (log : list entry) : Prop :=
  verify_ok (per_account env i) = true /\ exists b, In (Some i, RunVerify b true) log.

(** Every call of the login of account [i] stands, in the order of the
    calls of the run, after a proxy check of that account that passed. *)
Definition checked_first (s : run_state) : Prop :=
  forall pre ev post, r_log s = pre ++ (Some i, RunUi ev) :: post -> check_passed pre.

Lemma check_passed_app log evs : check_passed log -> check_passed (log ++ evs).
Proof.
  intros [Hv [b Hb]]. split; [exact Hv|]. exists b. apply in_or_app. left. exact Hb.
Qed.

(** More calls keep the order when none of them is a call of the login of
    account [i], or when the check of account [i] has passed before them. *)
Lemma checked_append df file log df' file' evs :
  checked_first (mk_run_state df file log) ->
  (forall ev, ~ In (Some i, RunUi ev) evs) \/ check_passed log ->
  checked_first (mk_run_state df' file' (log ++ evs)).
Proof.
  intros H Hev pre ev post Heq. cbn [r_log] in *. apply app_eq_app in Heq.
  destruct Heq as [l [[Hlog Hl] | [Hpre Hl]]].
  - destruct l as [|x l].
    + rewrite app_nil_r in Hlog. subst pre. destruct Hev as [Hev | Hev]; [|exact Hev].
      exfalso. apply (Hev ev). cbn in Hl. rewrite <- Hl. left. reflexivity.
    + inversion Hl; subst x. apply (H pre ev l Hlog).
  - destruct Hev as [Hev | Hev].
    + exfalso. apply (Hev ev). rewrite Hl. apply in_elt.
    + subst pre. apply check_passed_app. exact Hev.
Qed.

Lemma checked_emit {R} tag ev :
  (forall x, ev <> RunUi x) -> preserves checked_first (@run_emit R tag ev).
Proof.
  intros Hev s H. destruct s as [df file log]. unfold run_emit. cbn [snd r_df r_file r_log].
  apply (checked_append df file log df file [(tag, ev)] H).
  left. intros x [Hin|[]]. inversion Hin. eapply Hev. eauto.
Qed.

Lemma checked_teardown {R} tag browser plugin_path q r :
  preserves checked_first (@teardown R tag browser plugin_path q r).
Proof.
  unfold teardown, quit_if_open, remove_if_there, quit_browser, remove_path, path_exists.
  repeat first
    [ apply checked_emit; discriminate
    | preserves_step
    | (intros s H; exact H) ].
Qed.

Lemma checked_setup tag e : preserves checked_first (setup_browser_with_proxy tag e).
Proof.
  intros s H. rewrite setup_run. cbn [snd]. destruct s as [df file log].
  cbn [r_df r_file r_log].
  apply (checked_append df file log df file _ H).
  left. intros ev Hin.
  pose proof (setup_outcome_events tag e (launches log)) as Hev.
  rewrite Forall_forall in Hev. apply (Hev _ Hin ev). reflexivity.
Qed.

(** The same, in an iteration that has just seen the check of account [j]
    pass. *)
Definition checked_after (j : nat) (s : run_state) : Prop :=
  checked_first s
  /\ verify_ok (per_account env j) = true /\ exists b, In (Some j, RunVerify b true) (r_log s).

Lemma checked_after_emit {R} j tag ev :
  (forall x, ev <> RunUi x) -> preserves (checked_after j) (@run_emit R tag ev).
Proof.
  intros Hev s [H [Hv [b Hb]]]. split; [apply (checked_emit tag ev Hev s H)|].
  split; [exact Hv|]. exists b. cbn. apply in_or_app. left. exact Hb.
Qed.

Lemma checked_after_login j e phone_number :
  preserves (checked_after j) (run_login j e phone_number).
Proof.
  intros s [H [Hv [b Hb]]]. destruct s as [df file log]. cbn [r_log] in *.
  unfold run_login. cbn [r_df r_file r_log].
  destruct (login_to_ozon e phone_number j (mk_login_state df file [])) as [fl ls].
  cbn [fst snd].
  assert (Hres : checked_after j
            (mk_run_state (l_df ls) (l_file ls)
               (log ++ map (fun ev => (Some j, RunUi ev)) (l_log ls)))).
  { split; [|split; [exact Hv | exists b; cbn; apply in_or_app; left; exact Hb]].
    apply (checked_append df file log _ _ _ H).
    destruct (Nat.eq_dec j i) as [Heq | Hne].
    - right. subst j. split; [exact Hv | exists b; exact Hb].
    - left. intros ev Hin. apply in_map_iff in Hin. destruct Hin as [x [Hx _]].
      inversion Hx. contradiction. }
  destruct fl; exact Hres.
Qed.

Lemma checked_use_session j row has_identity b :
  preserves checked_first (use_session (per_account env j) j row has_identity b).
Proof.
  intros s H. unfold use_session.
  pose proof (checked_emit (R := unit) (Some j)
                (RunVerify b (verify_ok (per_account env j)))
                ltac:(discriminate) s H) as H1.
  unfold bind at 1. unfold run_emit at 1. unfold run_emit in H1. cbn [snd] in H1.
  destruct (verify_ok (per_account env j)) eqn:Ev; cbn [negb].
  - assert (Ha : checked_after j
              (mk_run_state (r_df s) (r_file s) (r_log s ++ [(Some j, RunVerify b true)]))).
    { split; [exact H1|]. split; [exact Ev|]. exists b. cbn. apply in_or_app. right.
      left. reflexivity. }
    assert (Hp : preserves (checked_after j)
              (try_except
                 (guard has_identity ;;
                  _ <- run_login j (login (per_account env j)) (strip (phone row)) ;;
                  run_emit (Some j) (RunDeleteCookies b (delete_cookies_ok (per_account env j))) ;;
                  guard (delete_cookies_ok (per_account env j)))
                 (ret tt))).
    { repeat first
        [ apply checked_after_emit; discriminate
        | apply checked_after_login
        | preserves_step ]. }
    apply (Hp _ Ha).
  - unfold quit_browser.
    assert (Hp : preserves checked_first
              (run_emit (R := unit) (Some j) (RunQuit b (quit_unverified_ok (per_account env j))) ;;
               guard (quit_unverified_ok (per_account env j)))).
    { repeat first [ apply checked_emit; discriminate | preserves_step ]. }
    apply (Hp _ H1).
Qed.

Lemma checked_iteration j row has_identity browser plugin_path :
  preserves checked_first
    (iteration (per_account env j) j row has_identity browser plugin_path).
Proof.
  unfold iteration.
  repeat first
    [ apply checked_emit; discriminate
    | apply checked_teardown
    | apply checked_setup
    | apply checked_use_session
    | preserves_step ].
Qed.

Lemma checked_main_loop has_identity items : forall browser plugin_path,
  preserves checked_first (main_loop env has_identity items browser plugin_path).
Proof.
  induction items as [|[j r] items IH]; intros browser plugin_path.
  - apply preserves_ret.
  - cbn [main_loop]. apply preserves_bind; [apply checked_iteration | intros now; apply IH].
Qed.

Lemma checked_load source : preserves checked_first (load_store env source).
Proof.
  assert (Hw : forall ok df, preserves checked_first (write_target ok df)).
  { intros ok df. unfold write_target. apply preserves_bind; [apply preserves_guard|].
    intros _ s H. destruct s as [df0 file log]. cbn [snd r_df r_file r_log].
    apply (checked_append df0 file log df0 (Some (excel_view df)) [(None, RunFileWritten)] H).
    left. intros ev [Hin|[]]. discriminate. }
  unfold load_store.
  repeat first
    [ apply Hw
    | preserves_step
    | (intros s H; exact H)
    | (intros s H pre ev post Heq; apply (H pre ev post Heq)) ].
Qed.

End BatchChecked.

Section BatchCheckedClaims.

Context {U : Unicode} {XL : Excel}.

(** A run logs in only through a browser that has passed the proxy check:
    every call of the login of an account stands, in the order of the calls
    of the run, after the proxy check of that account, and that check
    answered [True]. *)
Theorem login_only_after_proxy_check (env : batch_env) (source target : option frame)
    (i : nat) (ev : ui_event) (pre post : list entry) :
  snd (run_main env source target) = pre ++ (Some i, RunUi ev) :: post ->
  verify_ok (per_account env i) = true
  /\ exists b, In (Some i, RunVerify b true) pre.
Proof.
  unfold run_main. cbn [snd].
  set (s0 := mk_run_state (mk_frame false false []) target []).
  assert (Hp : preserves (checked_first env i) (main env source)).
  { unfold main.
    repeat first
      [ apply checked_load
      | apply checked_main_loop
      | apply checked_teardown
      | preserves_step
      | (intros s Hs; exact Hs) ]. }
  assert (H0 : checked_first env i s0).
  { intros p x q Heq. cbn in Heq. destruct p; discriminate. }
  intros Heq. apply (Hp s0 H0 pre ev post Heq).
Qed.

End BatchCheckedClaims.

(* ------------------------------------------------------------------ *)
(** ** Concrete runs *)

(** The tables of the engine cut down to ASCII and basic Cyrillic: the texts
    of the runs below are ASCII, for which the rest of the tables is never
    consulted. *)
#[export] Instance ascii_tables : Unicode :=
  {| uni_digit := fun _ => false; uni_fold := fun _ _ => false |}.

(** The store of the runs below is read and written by pandas with its
    defaults. *)
#[export] Instance pandas_excel : Excel := {| read_back := pandas_cell |}.

Example cells_read_back :
  pandas_cell (u "[{'name': 'abt_data', 'value': '7'}]")
  = Text (u "[{'name': 'abt_data', 'value': '7'}]")
  /\ pandas_cell (u "[]") = Text (u "[]")
  /\ pandas_cell [] = NaN
  /\ pandas_cell (u "None") = NaN
  /\ pandas_cell (u "NA") = NaN
  /\ pandas_cell (u "nan") = NaN
  /\ pandas_cell (u "null") = NaN
  /\ pandas_cell (repeat 97%N (N.to_nat 40000))
     = Text (repeat 97%N (N.to_nat cell_limit)).
Proof. repeat split; vm_compute; reflexivity. Qed.

(** [str()] of a list starts with a bracket: it is read back as a text that
    is not empty, so a row holding it counts as done. *)
Lemma list_text_is_done (s : pystr) :
  startswith (u "[") s = true -> done (pandas_cell s) = true.
Proof.
  destruct s as [|c s]; [discriminate|]. cbn [startswith u map list_ascii_of_string].
  intros H. apply andb_true_iff in H. destruct H as [H _].
  apply N.eqb_eq in H. subst c. reflexivity.
Qed.

(** A server that answers every search with no message. *)
Definition empty_inbox : attempt_env :=
  mk_attempt true true true (fun _ => Some []) (fun _ => None) (fun _ => true) (fun _ => true).

(** A server whose first search raises. *)
Definition search_fails : attempt_env :=
  mk_attempt true true true (fun _ => None) (fun _ => None) (fun _ => true) (fun _ => true).


(** The first attempt hits a protocol error, the second finds the code. *)
Definition flaky : mailbox :=
  fun n => if Nat.eqb n 0 then search_fails else serving (plain_message (u "code 12")).

(** Two attempts find nothing, the third finds a six-digit code. *)
Definition late : mailbox :=
  fun n => if n <? 2 then empty_inbox else serving (plain_message (u "Your code: 123456")).

Example tiers_six_after_four :
  scan_body empty_inbox (u "pin 1234, code 567890") = finish empty_inbox (u "567890").
Proof. reflexivity. Qed.

Example tiers_four :
  body_code (u "order 77, pin 1234") = Some (u "1234").
Proof. reflexivity. Qed.

Example tiers_keyword :
  body_code (u "Your CODE is: 12") = Some (u "12")
  /\ body_code (kod ++ u " 345") = Some (u "345")
  /\ body_code ([1050; 1054; 1044]%N ++ u ": 7") = Some (u "7").
Proof. repeat split; reflexivity. Qed.


Lemma retry_budget_found_witness :
  extract_otp_from_email late 8 5 = (Some (u "123456"), attempts_trace late 5 0 3)
  /\ connects (attempts_trace late 5 0 3) = 3
  /\ sleeps (attempts_trace late 5 0 3) = [5; 5].
Proof.
  apply (retry_budget_found late 8 5 2 (u "123456")).
  - lia.
  - intros j Hj. destruct j as [|[|j]]; [reflexivity | reflexivity | lia].
  - reflexivity.
  - reflexivity.
  - reflexivity.
Defined.

Lemma retry_budget_exhausted_witness :
  extract_otp_from_email (fun _ => empty_inbox) 3 5
  = (None, attempts_trace (fun _ => empty_inbox) 5 0 3)
  /\ connects (attempts_trace (fun _ => empty_inbox) 5 0 3) = 3
  /\ sleeps (attempts_trace (fun _ => empty_inbox) 5 0 3) = repeat 5 (3 - 1).
Proof.
  apply (retry_budget_exhausted (fun _ => empty_inbox) 3 5).
  intros j Hj. reflexivity.
Defined.

Lemma keyword_code_is_short_witness : 1 <= length (u "12") <= 3.
Proof.
  apply (keyword_code_is_short (u "code 12") (u "12")); reflexivity.
Defined.

(** A mailbox without mail from the sender, on a client that cannot send
    the search by subject: [imaplib] encodes a command as ASCII, and the
    third search holds Cyrillic text. *)
Definition no_ozon_mail : attempt_env :=
  mk_attempt true true true
    (fun q => match q with BySubject => None | _ => Some [] end)
    (fun _ => None) (fun _ => true) (fun _ => true).

(** C6, where the code departs from it. The search raises: the handler of
    the attempt sleeps, and the next attempt opens a new connection while the
    old one was neither closed nor logged out; the last attempt ends the same
    way and the function returns.  An attempt that finds no mail and whose
    search by subject raises ends the same way. *)
Lemma C6_error_leaves_session_open :
  attempt search_fails
  = (Raise, mk_imap [ImapConnect true; ImapLogin true; ImapSelect true;
                     ImapSearch FromUnseen false] 0 0)
  /\ extract_otp_from_email (fun _ => search_fails) 2 5
     = (None,
        [ImapConnect true; ImapLogin true; ImapSelect true; ImapSearch FromUnseen false;
         ImapSleep 5;
         ImapConnect true; ImapLogin true; ImapSelect true; ImapSearch FromUnseen false])
  /\ Forall (fun ev => ev <> ImapClose true /\ ev <> ImapLogout true)
            (snd (extract_otp_from_email (fun _ => search_fails) 2 5))
  /\ attempt no_ozon_mail
     = (Raise, mk_imap [ImapConnect true; ImapLogin true; ImapSelect true;
                        ImapSearch FromUnseen true; ImapSearch FromSender true;
                        ImapSearch BySubject false] 0 0).
Proof.
  split; [reflexivity|]. split; [reflexivity|]. split; [|reflexivity].
  vm_compute. repeat constructor; discriminate.
Qed.

Lemma C6_witness :
  closed_end (attempt_events (serving (plain_message (u "code 12"))))
  /\ fst (attempt (serving (plain_message (u "Welcome to the store")))) = Normal tt
  /\ closed_end (attempt_events (serving (plain_message (u "Welcome to the store")))).
Proof.
  split.
  - apply (proj1 (proj1 (C6_session_closed_unless_raised
                           (serving (plain_message (u "code 12")))))).
    vm_compute. discriminate.
  - apply (proj2 (C6_session_closed_unless_raised
                    (serving (plain_message (u "Welcome to the store"))))
             (plain_message (u "Welcome to the store")));
      reflexivity.
Defined.


(** A message as mail clients send it: a container, then the text. *)
Definition two_part_message (body : pystr) : list part :=
  [mk_part (u "multipart/alternative") None; mk_part (u "text/plain") (Some body)].

Lemma C3_witness :
  exists w,
    leftmost_run 6 (u "pin 1234, code 567890") w
    /\ extract_otp_from_email
         (fun _ => serving (two_part_message (u "pin 1234, code 567890"))) 8 5
       = (Some w, attempt_events (serving (two_part_message (u "pin 1234, code 567890")))).
Proof.
  apply (proj1 (C3_pattern_tiers_in_order
                  (fun _ => serving (two_part_message (u "pin 1234, code 567890"))) 8 5
                  [mk_part (u "multipart/alternative") None] []
                  (mk_part (u "text/plain") (Some (u "pin 1234, code 567890")))
                  (u "pin 1234, code 567890")
                  ltac:(lia) eq_refl eq_refl eq_refl eq_refl eq_refl eq_refl)).
  exists 15. reflexivity.
Defined.

Lemma C7_witness :
  extract_otp_from_email flaky 2 5
  = (Some (u "12"),
     attempts_trace flaky 5 0 1 ++ [ImapSleep 5] ++ attempt_events (flaky 1))
  /\ (1 < 2 -> exists tl, attempt_events (flaky 1) = ImapConnect true :: tl)
  /\ (fst (extract_otp_from_email flaky 2 5) = None ->
      snd (extract_otp_from_email flaky 2 5) = attempts_trace flaky 5 0 2).
Proof.
  apply (C7_protocol_error_is_a_failed_attempt flaky 2 5 0).
  - lia.
  - intros j Hj. lia.
  - reflexivity.
Defined.

(** A browser on which everything works up to the submission of the phone
    number and the OTP field never appears; [sh] is what [save_screenshot]
    does. *)
Definition no_otp_field (sh : pystr -> shot_outcome) : login_env :=
  mk_login_env (Some true) None true true true true true true false
               (fun _ => empty_inbox) true true true true (fun _ => false)
               (Some true) (Some (u "[]")) true sh.

(** A browser on which the whole login works, with the code in the mailbox. *)
Definition smooth_login : login_env :=
  mk_login_env (Some true) None true true true true true true true
               (fun _ => serving (plain_message (u "Your code: 123456")))
               true true true true (fun _ => false)
               (Some true) (Some (u "[]")) true (fun _ => Saved).

Definition two_accounts : frame :=
  mk_frame true true
    [mk_account (u "89991234567") (u "a@rambler.ru") (u "pw") NaN;
     mk_account (u "+79990000000") (u "b@rambler.ru") (u "pw") NaN].

(** The source file of a first run: two accounts and no [Cookies] column. *)
Definition new_accounts : frame :=
  mk_frame true false
    [mk_account (u "89991234567") (u "a@rambler.ru") (u "pw") NaN;
     mk_account (u "+79990000000") (u "b@rambler.ru") (u "pw") NaN].

(** The store of a later run: the second account has its cookies. *)
Definition half_done : frame :=
  mk_frame true true
    [mk_account (u "89991234567") (u "a@rambler.ru") (u "pw") NaN;
     mk_account (u "+79990000000") (u "b@rambler.ru") (u "pw")
                (Text (u "[{'name': 'abt_data', 'value': '7'}]"))].



(** The artifact of the iteration for account [i] carries the stamp
    [100 + i]. *)
Definition building (i : nat) (write_ok cdp : bool) : setup_env :=
  mk_setup_env (100 + i) true write_ok true true true cdp true.

(** A batch in which sessions are built without trouble and every login
    stops at the missing OTP field; [cleanup] is what [quit] and [os.remove]
    do at the top of an iteration. *)
Definition stalled_batch (cleanup : bool) : batch_env :=
  mk_batch_env true true
    (fun i => mk_account_env cleanup cleanup (building i true true) true true
                             (no_otp_field (fun _ => Saved)) true)
    true true.

(** C8, where the code departs from it. Writing the archive fails after
    [ZipFile] has made the file: [plugin_path] is still [None] in the
    handler, nothing is removed, and the file stays on disk while the factory
    returns [(None, None)]. *)
Theorem C8_partial_artifact_is_left :
  setup_browser_with_proxy (Some 0) (building 0 false true)
                           (mk_run_state two_accounts (Some two_accounts) [])
  = (Return (None, None),
     mk_run_state two_accounts (Some two_accounts) [(Some 0, RunCreate 100)])
  /\ artifacts [(Some 0, RunCreate 100)] = [100].
Proof. split; reflexivity. Qed.

Lemma setup_failure_removes_artifact_witness :
  fst (setup_browser_with_proxy (Some 0) (building 0 true false)
                                (mk_run_state two_accounts (Some two_accounts) []))
  = Return (None, Some (stamp (building 0 true false)))
  /\ ~ In (stamp (building 0 true false))
          (artifacts (r_log (snd (setup_browser_with_proxy (Some 0) (building 0 true false)
                                    (mk_run_state two_accounts (Some two_accounts) []))))).
Proof.
  apply (setup_failure_removes_artifact (Some 0) (building 0 true false)); reflexivity.
Defined.

(** C9, where the code departs from it. [quit] and [os.remove] raise at the
    top of the second iteration and the errors are swallowed: once the
    second session is launched there are two live sessions and two artifacts
    on disk. *)
Lemma C9_swallowed_cleanup_error_leaks :
  live_sessions (firstn 20 (snd (run_main (stalled_batch false) None (Some two_accounts))))
  = [0; 1]
  /\ artifacts (firstn 20 (snd (run_main (stalled_batch false) None (Some two_accounts))))
     = [100; 101].
Proof. split; reflexivity. Qed.

Lemma C9_witness :
  bounded (snd (run_main (stalled_batch true) None (Some two_accounts)))
  /\ (fst (fst (run_main (stalled_batch true) None (Some two_accounts))) = false ->
      artifacts (snd (run_main (stalled_batch true) None (Some two_accounts))) = []
      /\ live_sessions (snd (run_main (stalled_batch true) None (Some two_accounts))) = []).
Proof.
  apply (C9_one_session_one_artifact (stalled_batch true) None (Some two_accounts)).
  - intros i. reflexivity.
  - reflexivity.
  - reflexivity.
Defined.

(** A batch in which every session is built, passes the proxy check and logs
    in. *)
Definition smooth_batch : batch_env :=
  mk_batch_env true true
    (fun i => mk_account_env true true (building i true true) true true smooth_login true)
    true true.

(** One account of a first run, a browser on which everything works and a
    mailbox with the code: the number is typed as [+79991234567], the code is
    typed, the login succeeds, the cookies are in the frame and the frame is
    in the file. *)
Example login_end_to_end :
  let df := add_cookies_column new_accounts in
  let r := login_to_ozon smooth_login (u "89991234567") 0
                         (mk_login_state df (Some (excel_view df)) []) in
  fst r = Return true
  /\ nth_error (rows (l_df (snd r))) 0
     = Some (mk_account (u "89991234567") (u "a@rambler.ru") (u "pw") (Text (u "[]")))
  /\ l_file (snd r) = Some (excel_view (l_df (snd r)))
  /\ option_map (cell_at 0) (l_file (snd r)) = Some (Some (Text (u "[]")))
  /\ In (UiTypePhone (u "+79991234567") true) (l_log (snd r))
  /\ In (UiTypeOtp (u "123456") true) (l_log (snd r)).
Proof.
  vm_compute. split; [reflexivity|]. split; [reflexivity|]. split; [reflexivity|].
  split; [reflexivity|]. split.
  - do 6 right. left. reflexivity.
  - repeat (first [left; reflexivity | right]).
Qed.

Lemma C4_witness :
  exists pre post,
    l_log (snd (login_to_ozon smooth_login (u "89991234567") 0
                  (mk_login_state (add_cookies_column new_accounts) None [])))
    = pre ++ [UiWaitPhone true; UiClearPhone true;
              UiTypePhone (u "+79991234567") true] ++ post.
Proof.
  apply (proj2 (proj2 (proj2 (proj2
           (C4_phone_is_normalized smooth_login (u "89991234567") 0
              (add_cookies_column new_accounts) None))))).
  - left. reflexivity.
  - reflexivity.
  - reflexivity.
Defined.

Lemma C1_witness :
  untouched 1 (mk_account (u "+79990000000") (u "b@rambler.ru") (u "pw")
                          (Text (u "[{'name': 'abt_data', 'value': '7'}]")))
            (run_main smooth_batch None (Some half_done)).
Proof.
  apply (proj1 (proj2 C1_done_accounts_are_skipped) smooth_batch None half_done 1);
    reflexivity.
Defined.

Example six_digits_win :
  extract_otp_from_email (fun _ => serving (two_part_message (u "pin 1234, code 567890"))) 8 5
  = (Some (u "567890"),
     [ImapConnect true; ImapLogin true; ImapSelect true; ImapSearch FromUnseen true;
      ImapFetch 1 true; ImapClose true; ImapLogout true]).
Proof. reflexivity. Qed.


(* ------------------------------------------------------------------ *)
(** ** More concrete runs *)

(** A page that loads and shows [text]. *)
Definition shows (text : pystr) : page := mk_page true (Some text) (Some false).

(** The store front: it loads, and [ozon] is in its address. *)
Definition store_front : page := mk_page true None (Some true).

(** The first service shows a page of another kind, the others the address
    of the proxy with white space around it. *)
Definition proxied : web :=
  fun url =>
    if pystr_eqb url ozon_url then store_front
    else if pystr_eqb url (u "https://api.ipify.org") then shows (u "Too many requests")
    else shows (u " 85.142.131.100" ++ [newline]).

(** A browser that goes out without the proxy: the services show some other
    address. *)
Definition direct : web :=
  fun url => if pystr_eqb url ozon_url then store_front else shows (u "203.0.113.7").

(** The second service cannot be loaded; the third would show the address of
    the proxy. *)
Definition broken : web :=
  fun url =>
    if pystr_eqb url (u "https://api.ipify.org") then shows (u "203.0.113.7")
    else if pystr_eqb url (u "https://ifconfig.me/ip") then mk_page false None None
    else proxied url.

Example address_forms :
  re_match ip_pattern (u "85.142.131.100") = true
  /\ re_match ip_pattern (u "999.999.999.999") = true
  /\ re_match ip_pattern (u "85.142.131") = false
  /\ re_match ip_pattern (u "85.142.131.1000") = false
  /\ re_match ip_pattern (u "85.142.131.100" ++ [newline]) = true
  /\ re_match ip_pattern (u " 85.142.131.100") = false.
Proof. repeat split; reflexivity. Qed.

Lemma verify_confirmed_by_service_witness :
  verify_proxy_working proxied []
  = (Return true,
     flat_map (visit proxied) ([u "https://api.ipify.org"] ++ [u "https://ifconfig.me/ip"]))
  /\ loads (flat_map (visit proxied)
              ([u "https://api.ipify.org"] ++ [u "https://ifconfig.me/ip"]))
     = length [u "https://api.ipify.org"] + 1.
Proof.
  apply (verify_confirmed_by_service proxied [u "https://api.ipify.org"]
           [u "https://ipinfo.io/ip"] (u "https://ifconfig.me/ip")).
  - reflexivity.
  - repeat constructor.
  - reflexivity.
Defined.

Lemma verify_browser_error_is_false_witness :
  verify_proxy_working broken []
  = (Return false,
     flat_map (visit broken) ([u "https://api.ipify.org"] ++ [u "https://ifconfig.me/ip"])).
Proof.
  apply (verify_browser_error_is_false broken [u "https://api.ipify.org"]
           [u "https://ipinfo.io/ip"] (u "https://ifconfig.me/ip")).
  - reflexivity.
  - repeat constructor.
  - reflexivity.
Defined.

Lemma verify_falls_back_to_ozon_witness :
  verify_proxy_working direct []
  = (Return (ozon_reached direct), flat_map (visit direct) ip_services ++ visit_ozon direct).
Proof.
  apply (verify_falls_back_to_ozon direct). repeat constructor.
Defined.

Example direct_connection_passes :
  fst (verify_proxy_working direct []) = Return true.
Proof. reflexivity. Qed.

Lemma in_range_is_a_substring_test_witness :
  in_range (u "10" ++ u ".85.142." ++ u "7") = true
  /\ in_range (u "185.142." ++ u "10" ++ dot :: u "7") = true.
Proof.
  apply (in_range_is_a_substring_test (u "10") (u "7")).
  - split; [cbn; lia | reflexivity].
  - split; [cbn; lia | reflexivity].
Defined.

Lemma returned_code_comes_from_the_mailbox_witness :
  (exists j parts p body,
      j < 8 /\ fetched (late j) = Some parts /\ In p parts
      /\ is_text p = true /\ payload p = Some body /\ body_code body = Some (u "123456"))
  /\ (length (u "123456") = 6 \/ length (u "123456") = 4 \/ 1 <= length (u "123456") <= 3).
Proof.
  apply (returned_code_comes_from_the_mailbox late 8 5 (u "123456")). reflexivity.
Defined.

Lemma setup_cdp_failure_leaves_browser_witness :
  setup_browser_with_proxy (Some 0) (building 0 true false)
                           (mk_run_state two_accounts (Some two_accounts) [])
  = (Return (None, Some 100),
     mk_run_state two_accounts (Some two_accounts)
       [(Some 0, RunCreate 100); (Some 0, RunLaunch 0); (Some 0, RunRemove 100 true)])
  /\ In 0 (live_sessions
             (r_log (snd (setup_browser_with_proxy (Some 0) (building 0 true false)
                            (mk_run_state two_accounts (Some two_accounts) []))))).
Proof.
  apply (setup_cdp_failure_leaves_browser (Some 0) (building 0 true false)
           (mk_run_state two_accounts (Some two_accounts) [])); reflexivity.
Defined.

(** A batch in which every proxy check fails and the browser cannot be quit
    afterwards. *)
Definition unverified_batch : batch_env :=
  mk_batch_env true true
    (fun i => mk_account_env true true (building i true true) false false
                             (no_otp_field (fun _ => Saved)) true)
    true true.

Lemma main_raises_only_at_unguarded_quit_witness :
  exists index,
    unguarded_quit (per_account unverified_batch index) index
                   (snd (run_main unverified_batch None (Some two_accounts))).
Proof.
  apply (main_raises_only_at_unguarded_quit unverified_batch None (Some two_accounts)).
  reflexivity.
Defined.


Lemma saved_cookies_stay_in_the_file_witness :
  exists text f row,
    session_cookies (login (per_account smooth_batch 0)) = Some text
    /\ snd (fst (run_main smooth_batch (Some new_accounts) None)) = Some f
    /\ nth_error (rows f) 0 = Some row
    /\ cookies row = excel_cell (Text text)
    /\ (as_read (Text text) -> text <> [] -> done (cookies row) = true).
Proof.
  apply (saved_cookies_stay_in_the_file smooth_batch (Some new_accounts) None 0).
  vm_compute. repeat (first [left; reflexivity | right]).
Defined.

Lemma typed_phone_is_the_row_phone_witness :
  exists row,
    nth_error (rows two_accounts) 0 = Some row
    /\ u "+79991234567" = format_phone (strip (phone row)).
Proof.
  apply (typed_phone_is_the_row_phone smooth_batch None two_accounts 0 (u "+79991234567") true).
  - reflexivity.
  - vm_compute. repeat (first [left; reflexivity | right]).
Defined.

(** A browser that never gets to the store front; [sh] is what
    [save_screenshot] does. *)
Definition no_way (sh : pystr -> shot_outcome) : login_env :=
  mk_login_env (Some false) (Some false) true true true true true true true
               (fun _ => empty_inbox) true true true true (fun _ => false)
               (Some true) (Some (u "[]")) true sh.

Definition lost : login_env := no_way (fun _ => Saved).

Lemma unreachable_ozon_ends_login_witness :
  login_to_ozon lost (u "89991234567") 3 (mk_login_state two_accounts None [])
  = (Return false,
     mk_login_state two_accounts None
       [UiNavigate true; UiSleep 10; UiNavigate true; UiSleep 10;
        UiScreenshot (shot_name "error_navigation" 3) Saved])
  /\ login_to_ozon (no_way (fun _ => ShotRaises)) (u "89991234567") 3
                   (mk_login_state two_accounts None [])
     = (Raise,
        mk_login_state two_accounts None
          [UiNavigate true; UiSleep 10; UiNavigate true; UiSleep 10;
           UiScreenshot (shot_name "error_navigation" 3) ShotRaises;
           UiScreenshot (shot_name "error_general" 3) ShotRaises]).
Proof.
  split.
  - apply (unreachable_ozon_ends_login lost (u "89991234567") 3 two_accounts None);
      reflexivity.
  - apply (unreachable_ozon_ends_login (no_way (fun _ => ShotRaises)) (u "89991234567") 3
             two_accounts None); reflexivity.
Defined.

Lemma login_only_after_proxy_check_witness :
  verify_ok (per_account smooth_batch 0) = true
  /\ exists b, In (Some 0, RunVerify b true)
                  (firstn 3 (snd (run_main smooth_batch None (Some two_accounts)))).
Proof.
  apply (login_only_after_proxy_check smooth_batch None (Some two_accounts) 0
           (UiNavigate true)
           (firstn 3 (snd (run_main smooth_batch None (Some two_accounts))))
           (skipn 4 (snd (run_main smooth_batch None (Some two_accounts))))).
  vm_compute. reflexivity.
Defined.
